(** * Real-time messaging core of socratic-ui: rate limiter, presence,
      connection registry, pub/sub fan-out and the WebSocket message router.

    Shallow embedding of
      - backend/rate_limiter.py   (RateLimiter, its three algorithms and its
                                   statistics),
      - backend/redis_pubsub.py   (RedisPubSubManager),
      - backend/websocket_auth.py (WebSocketAuthManager and its handshake),
      - backend/main.py           (authenticated_websocket_chat,
                                   handle_websocket_message).

    Conventions.
      - Instants are rationals ([Q], seconds since the epoch).  Every function
        that reads the clock takes the reading as [now]; a call that reads
        the clock once per rule takes one reading per rule.
      - The token bucket computes with Python floats: every float operation
        of the source is the exact operation followed by the rounding [fl]
        to the nearest double.
      - A Redis key with a time-to-live is stored with the instant at which it
        dies and is visible at [now] when [now] is strictly before that
        instant (so a non-positive time-to-live removes the key at once, as
        EXPIRE does).  At the very instant of expiry Redis still serves the
        key: that single instant is where this reading and Redis differ.
      - Redis keys of different kinds (sorted sets, hashes, counters, strings,
        lists) live in separate maps.
      - Python dicts and JSON objects are finite maps or records; the order in
        which a dict or KEYS lists its entries is not modelled, and what is
        stated of a list built in that order is stated up to permutation or
        for every order.
      - main.py binds no name [json] (its two imports of it are local to
        functions of the document pipeline), so every [json.dumps] and
        [json.loads] of the endpoint and of the router raises NameError. *)

From Stdlib Require Import QArith Qminmax Qround Qabs Qpower Lqa ZArith String List Lia.
From Stdlib Require Import SpecFloat.
From stdpp Require Import gmap strings list pretty.

(** ** Values with a time-to-live *)

Record Expiring (A : Type) := mkExpiring { value : A; expire_at : Q }.
Arguments mkExpiring {A} _ _.
Arguments value {A} _.
Arguments expire_at {A} _.

Definition Qlt_bool (a b : Q) : bool := negb (Qle_bool b a).

(** A key is visible at [now] while its time-to-live has not run out. *)
Definition live {A} (now : Q) (e : Expiring A) : bool := Qlt_bool now (expire_at e).

(** GET / HGETALL / ZCARD on a key: the stored value when the key exists and
    is still alive. *)
Definition read {K A} `{Countable K} (now : Q) (m : gmap K (Expiring A)) (k : K) : option A :=
  match m !! k with
  | Some e => if live now e then Some (value e) else None
  | None => None
  end.

(** [int(x)] of Python: truncation toward zero. *)
Definition py_int (x : Q) : Z := Z.quot (Qnum x) (Zpos (Qden x)).

(** ** Python floats *)

Module Float64.

(** The integer nearest to [q], a tie going to the even one. *)
Definition round_half_even (q : Q) : Z :=
  let f := Qfloor q in
  match (q - inject_Z f ?= 1 # 2)%Q with
  | Lt => f
  | Gt => (f + 1)%Z
  | Eq => if Z.even f then f else (f + 1)%Z
  end.

(** The binary exponent of [q], for [q] other than 0: the [e] with
    [2 ^ e <= |q| < 2 ^ (e + 1)]. *)
Definition mag (q : Q) : Z :=
  let e0 := (Z.log2 (Z.abs (Qnum q)) - Z.log2 (Zpos (Qden q)))%Z in
  if Qle_bool (2 ^ e0) (Qabs q) then e0 else (e0 - 1)%Z.

(** The exponent of the last place of the doubles around [q]: 52 below the
    binary exponent of [q], and -1074 in the subnormal range. *)
Definition ulp_exp (q : Q) : Z := Z.max (mag q - 52) (-1074).

(** The double nearest to [q] (IEEE 754 binary64, round to nearest, ties to
    even), as the rational it is.  Numbers beyond the range of the doubles
    are not treated. *)
Definition fl (q : Q) : Q :=
  if Qeq_bool q 0 then 0
  else Qred (inject_Z (round_half_even (q / 2 ^ ulp_exp q)) * 2 ^ ulp_exp q).

(** The value of a finite double of the Standard Library's specification of
    IEEE 754, and the double of an integer there. *)
Definition SF2Q (f : spec_float) : Q :=
  match f with
  | S754_finite s m e => Qred ((if s then -1 else 1) * inject_Z (Zpos m) * 2 ^ e)
  | _ => 0
  end.

Definition SF_of_Z (z : Z) : spec_float := binary_normalize 53 1024 z 0 false.

End Float64.

(** ** rate_limiter.py *)

Module RateLimiter.

Inductive RateLimitType :=
  | PER_SECOND | PER_MINUTE | PER_HOUR | PER_DAY | SLIDING_WINDOW | TOKEN_BUCKET.

(** The part of a FastAPI [Request] that key functions read. *)
Record Request := mkRequest { client_host : string }.

Record RateLimitRule := mkRule {
  limit : Z;
  window : Z;            (* seconds *)
  limit_type : RateLimitType;
  burst_limit : Z;
  key_func : Request -> string
}.

Definition _default_key_func (request : Request) : string :=
  "rate_limit:" +:+ client_host request.

(** [RateLimitRule.__init__]: [burst_limit or limit], [key_func or default]. *)
Definition new_rule (limit window : Z) (limit_type : RateLimitType)
    (burst_limit : option Z) (key_func : option (Request -> string)) : RateLimitRule :=
  {| limit := limit;
     window := window;
     limit_type := limit_type;
     burst_limit := match burst_limit with
                    | Some b => if (b =? 0)%Z then limit else b
                    | None => limit
                    end;
     key_func := match key_func with Some f => f | None => _default_key_func end |}.

(** The [info] dict the three algorithms return. *)
Record Info := mkInfo {
  info_limit : Z;
  remaining : Z;
  reset_time : option Q;
  retry_after : option Z
}.

(** A token bucket hash: fields [tokens] and [last_refill].  [tokens] is the
    number that was written; [last_refill] is the clock reading, whose double
    is what Redis holds.  Both are read back through [float]. *)
Record Bucket := mkBucket { tokens : Q; last_refill : Q }.

(** The Redis keys the limiter owns.  A sorted set holds one member per
    distinct timestamp: the member is [str(now)] and its score is [now], so the
    set is the list of its scores without repetition.  A fixed-window counter
    is keyed by the rule key, the window length and the index of the calendar
    window, which is what the [strftime] suffix of the source encodes. *)
Record Store := mkStore {
  zsets : gmap string (Expiring (list Q));
  buckets : gmap string (Expiring Bucket);
  counters : gmap (string * Z * Z) (Expiring Z)
}.

Definition empty_store : Store := mkStore ∅ ∅ ∅.

(** ZREMRANGEBYSCORE key lo hi: drop the members whose score is in [lo, hi]. *)
Definition zremrangebyscore (lo hi : Q) (l : list Q) : list Q :=
  List.filter (fun s => negb (Qle_bool lo s && Qle_bool s hi)) l.

(** ZADD key {str(x): x}: a member that is already there keeps its place. *)
Definition zadd (x : Q) (l : list Q) : list Q :=
  if existsb (Qeq_bool x) l then l else l ++ [x].

Definition zcard (l : list Q) : Z := Z.of_nat (length l).

(** [_check_sliding_window]: the pipeline ZREMRANGEBYSCORE, ZCARD, ZADD,
    EXPIRE, then the decision from the count taken before the ZADD. *)
Definition _check_sliding_window (key : string) (rule : RateLimitRule) (now : Q)
    (s : Store) : Store * (bool * Info) :=
  let window_start := (now - inject_Z (window rule))%Q in
  let old := default [] (read now (zsets s) key) in
  let purged := zremrangebyscore 0 window_start old in
  let current_count := zcard purged in
  let entry := mkExpiring (zadd now purged) (now + inject_Z (window rule))%Q in
  let s' := mkStore (<[key := entry]> (zsets s)) (buckets s) (counters s) in
  let remaining := Z.max 0 (limit rule - current_count - 1) in
  let info := {| info_limit := limit rule;
                 remaining := remaining;
                 reset_time := Some (now + inject_Z (window rule))%Q;
                 retry_after := if (current_count <? limit rule)%Z then None
                                else Some (window rule) |} in
  (s', ((current_count <? limit rule)%Z, info)).

(** [_check_token_bucket].  The clock reading reaches the arithmetic as the
    double [fl now] of [timestamp()], and the hash fields as the doubles
    [float(...)] makes of them; the integers [burst_limit - 1] and
    [1 - tokens] are exact.  [None] is the [ZeroDivisionError] of
    [rule.limit / rule.window] (and of dividing by that rate). *)
Definition _check_token_bucket (key : string) (rule : RateLimitRule) (now : Q)
    (s : Store) : option (Store * (bool * Info)) :=
  let bucket_key := key +:+ ":bucket" in
  let fl := Float64.fl in
  let refilled : option Q :=
    match read now (buckets s) bucket_key with
    | None => Some (inject_Z (burst_limit rule) - 1)%Q
    | Some b =>
        if (window rule =? 0)%Z then None
        else
          let time_passed := fl (fl now - fl (last_refill b))%Q in
          let tokens_to_add :=
            fl (time_passed * fl (inject_Z (limit rule) / inject_Z (window rule)))%Q in
          let tokens := fl (fl (tokens b) + tokens_to_add)%Q in
          (* min(rule.burst_limit, tokens) is the integer or the float *)
          Some (if Qlt_bool tokens (inject_Z (burst_limit rule)) then fl (tokens - 1)
                else inject_Z (burst_limit rule) - 1)%Q
    end in
  match refilled with
  | None => None
  | Some tokens =>
      if Qle_bool 0 tokens then
        let entry := mkExpiring (mkBucket tokens now)
                                (now + inject_Z (window rule * 2))%Q in
        let s' := mkStore (zsets s) (<[bucket_key := entry]> (buckets s)) (counters s) in
        Some (s', (true, {| info_limit := limit rule;
                            remaining := py_int tokens;
                            reset_time := None;
                            retry_after := None |}))
      else
        if ((window rule =? 0) || (limit rule =? 0))%Z then None
        else
          let retry :=
            fl (fl (1 - tokens)
                / fl (inject_Z (limit rule) / inject_Z (window rule)))%Q in
          Some (s, (false, {| info_limit := limit rule;
                              remaining := 0;
                              reset_time := None;
                              retry_after := Some (py_int retry) |}))
  end.

(** The length of the calendar window of a fixed-window rule. *)
Definition window_seconds (rule : RateLimitRule) : Z :=
  match limit_type rule with
  | PER_SECOND => 1
  | PER_MINUTE => 60
  | PER_HOUR => 3600
  | PER_DAY => 86400
  | _ => window rule
  end.

(** [_check_fixed_window]: INCR of the counter of the current window, EXPIRE,
    then [current_count <= limit].  [None] is the [ZeroDivisionError] of
    [now.timestamp() // rule.window] in the last branch. *)
Definition _check_fixed_window (key : string) (rule : RateLimitRule) (now : Q)
    (s : Store) : option (Store * (bool * Info)) :=
  let ws := window_seconds rule in
  if (ws =? 0)%Z then None
  else
    let idx := Qfloor (now / inject_Z ws) in
    let window_key := (key, ws, idx) in
    let current_count := (default 0 (read now (counters s) window_key) + 1)%Z in
    let entry := mkExpiring current_count (now + inject_Z ws)%Q in
    let s' := mkStore (zsets s) (buckets s) (<[window_key := entry]> (counters s)) in
    Some (s', ((current_count <=? limit rule)%Z,
               {| info_limit := limit rule;
                  remaining := Z.max 0 (limit rule - current_count);
                  reset_time := Some (inject_Z ((idx + 1) * ws));
                  retry_after := if (limit rule <? current_count)%Z then Some ws
                                 else None |})).

(** The [rate_limit_info] dict of [check_rate_limit]. *)
Record RateLimitInfo := mkRateLimitInfo {
  allowed : bool;
  rl_limit : Z;
  rl_remaining : Z;
  rl_reset_time : option Q;
  rl_retry_after : option Z
}.

(** What [check_rate_limit] returns next to the boolean: the bare
    [{"allowed": True}] of an endpoint without rules, or the full dict. *)
Inductive InfoDict :=
  | OnlyAllowed
  | Full (i : RateLimitInfo).

Definition initial_info : RateLimitInfo :=
  {| allowed := true; rl_limit := 0; rl_remaining := 0;
     rl_reset_time := None; rl_retry_after := None |}.

(** [rate_limit_info.update(info)] *)
Definition update (acc : RateLimitInfo) (info : Info) : RateLimitInfo :=
  {| allowed := allowed acc;
     rl_limit := info_limit info;
     rl_remaining := remaining info;
     rl_reset_time := reset_time info;
     rl_retry_after := retry_after info |}.

Definition set_allowed (b : bool) (acc : RateLimitInfo) : RateLimitInfo :=
  {| allowed := b; rl_limit := rl_limit acc; rl_remaining := rl_remaining acc;
     rl_reset_time := rl_reset_time acc; rl_retry_after := rl_retry_after acc |}.

(** The dispatch on [rule.limit_type] inside the loop. *)
Definition check_rule (key : string) (rule : RateLimitRule) (now : Q) (s : Store)
    : option (Store * (bool * Info)) :=
  match limit_type rule with
  | SLIDING_WINDOW => Some (_check_sliding_window key rule now s)
  | TOKEN_BUCKET => _check_token_bucket key rule now s
  | _ => _check_fixed_window key rule now s
  end.

(** The clock readings of one call of [check_rate_limit]: the check of each
    rule reads [datetime.utcnow()] itself, so the i-th rule evaluated gets
    the reading [clock i]. *)
Definition Clock := nat -> Q.

(** The readings left to the rules after the first. *)
Definition later (clock : Clock) : Clock := fun i => clock (S i).

(** The loop [for rule in self.rules[endpoint]].  The state is returned also
    when a rule raises, with the writes of the rules before it. *)
Fixpoint check_rules (rules : list RateLimitRule) (request : Request) (clock : Clock)
    (acc : RateLimitInfo) (s : Store) : Store * option (bool * RateLimitInfo) :=
  match rules with
  | [] => (s, Some (true, acc))
  | rule :: rest =>
      let key := key_func rule request in
      match check_rule key rule (clock 0%nat) s with
      | None => (s, None)
      | Some (s', (is_allowed, info)) =>
          if negb is_allowed then
            (s', Some (false, set_allowed false (update acc info)))
          else
            let acc' :=
              if ((remaining info <? rl_remaining acc) || (rl_remaining acc =? 0))%Z
              then update acc info else acc in
            check_rules rest request (later clock) acc' s'
      end
  end.

(** The limiter: its rules per endpoint and its Redis keys. *)
Record RateLimiter := mkRateLimiter {
  rules : gmap string (list RateLimitRule);
  store : Store
}.

Definition new_limiter : RateLimiter := mkRateLimiter ∅ empty_store.

Definition add_rule (endpoint : string) (rule : RateLimitRule) (rl : RateLimiter)
    : RateLimiter :=
  mkRateLimiter (<[endpoint := default [] (rules rl !! endpoint) ++ [rule]]> (rules rl))
                (store rl).

(** [check_rate_limit] *)
Definition check_rate_limit (rl : RateLimiter) (request : Request) (endpoint : string)
    (clock : Clock) : RateLimiter * option (bool * InfoDict) :=
  match rules rl !! endpoint with
  | None => (rl, Some (true, OnlyAllowed))
  | Some rs =>
      let '(s', r) := check_rules rs request clock initial_info (store rl) in
      (mkRateLimiter (rules rl) s',
       match r with
       | Some (b, i) => Some (b, Full i)
       | None => None
       end)
  end.

(** [CommonRateLimits] *)
Definition API_GENERAL := new_rule 100 60 SLIDING_WINDOW None None.
Definition API_STRICT := new_rule 10 60 SLIDING_WINDOW None None.
Definition API_BURST := new_rule 20 60 TOKEN_BUCKET (Some 50%Z) None.
Definition CHAT_MESSAGE := new_rule 30 60 SLIDING_WINDOW None None.

(** A run of checks of one rule on one key at the given instants, with the
    decisions in order; [None] when a check raises. *)
Fixpoint replay (check : string -> RateLimitRule -> Q -> Store -> option (Store * (bool * Info)))
    (key : string) (rule : RateLimitRule) (times : list Q) (s : Store)
    : option (Store * list bool) :=
  match times with
  | [] => Some (s, [])
  | t :: rest =>
      match check key rule t s with
      | None => None
      | Some (s1, (ok, _)) =>
          match replay check key rule rest s1 with
          | None => None
          | Some (s2, oks) => Some (s2, ok :: oks)
          end
      end
  end.

(** [_check_sliding_window] as a check that never raises. *)
Definition sliding_window_check (key : string) (rule : RateLimitRule) (now : Q)
    (s : Store) : option (Store * (bool * Info)) :=
  Some (_check_sliding_window key rule now s).

(** Every rule of the list evaluated in order, whatever the earlier ones
    decided: the reading of "all rules are evaluated even after one denies". *)
Fixpoint evaluate_all (rules : list RateLimitRule) (request : Request) (clock : Clock)
    (s : Store) : option (Store * list (bool * Info)) :=
  match rules with
  | [] => Some (s, [])
  | rule :: rest =>
      match check_rule (key_func rule request) rule (clock 0%nat) s with
      | None => None
      | Some (s1, r) =>
          match evaluate_all rest request (later clock) s1 with
          | None => None
          | Some (s2, rs) => Some (s2, r :: rs)
          end
      end
  end.

(** The smallest [remaining] among the results of some rules. *)
Definition smallest_remaining (results : list (bool * Info)) : Z :=
  match results with
  | [] => 0
  | r :: rest => fold_right Z.min (remaining (snd r)) ((fun x => remaining (snd x)) <$> rest)
  end.

(** The dict a denial returns: the denying rule's info with [allowed] false. *)
Definition denial_of (info : Info) : RateLimitInfo :=
  {| allowed := false; rl_limit := info_limit info; rl_remaining := remaining info;
     rl_reset_time := reset_time info; rl_retry_after := retry_after info |}.

(** The bucket hash of a key, as stored (alive or not). *)
Definition stored_bucket (key : string) (s : Store) : option Bucket :=
  value <$> buckets s !! (key +:+ ":bucket").

End RateLimiter.

(** ** JSON values: payloads, frames and dict-shaped messages *)

#[warnings="-register-all"] Inductive Json :=
  | JNull
  | JBool (b : bool)
  | JInt (z : Z)
  | JStr (s : string)
  | JTime (t : Q)                          (* an [isoformat()] timestamp *)
  | JList (l : list Json)
  | JObj (fields : list (string * Json)).

Definition JStrs (l : list string) : Json := JList (JStr <$> l).

(** The keys of a JSON object, [] for any other value. *)
Definition json_keys (j : Json) : list string :=
  match j with
  | JObj fields => fst <$> fields
  | _ => []
  end.

(** ** redis_pubsub.py *)

Module PubSub.

(** LRANGE key start stop: the elements from [start] to [stop], both
    included; a negative index counts from the end of the list. *)
Definition lrange {A} (start stop : Z) (l : list A) : list A :=
  let n := Z.of_nat (length l) in
  let start := if (start <? 0)%Z then Z.max 0 (n + start) else start in
  let stop := if (stop <? 0)%Z then (n + stop)%Z else stop in
  let stop := Z.min stop (n - 1) in
  if (stop <? start)%Z then []
  else take (Z.to_nat (stop - start + 1)) (drop (Z.to_nat start) l).

(** What is stored under a [heartbeat:<wallet>] key: the empty string, the
    ISO string of a naive instant (what [set_user_heartbeat] writes), the ISO
    string of an instant with a UTC offset, or a string
    [datetime.fromisoformat] rejects. *)
Inductive IsoString :=
  | Empty
  | Iso (t : Q)
  | Aware (t : Q)
  | Malformed.

(** A message read from [pubsub.listen()]; [msg_data] is [json.loads] of its
    payload, [None] when that raises. *)
Record PubSubMessage := mkPubSubMessage {
  msg_type : string;
  msg_channel : string;
  msg_data : option Json
}.

Section Manager.

(** The callables handed to [subscribe_to_channel], and what a call of one
    does to the state [Env] it acts on: [Some e] is a raised exception. *)
Context {Callback Env : Type}.
Variable invoke : Callback -> string -> Json -> Env -> Env * option string.

(** [RedisPubSubManager].  [is_connected] stands for a usable client and
    pubsub object; [redis_reachable] is whether [connect()] would succeed.
    [heartbeats] is keyed by the wallet address after the [heartbeat:]
    prefix, [recent_messages] by the room after [recent_messages:];
    [published] is the log of PUBLISH commands, oldest first. *)
Record RedisPubSubManager := mkManager {
  is_connected : bool;
  redis_reachable : bool;
  subscriptions : gmap string (list Callback);
  heartbeats : gmap string (Expiring IsoString);
  recent_messages : gmap string (Expiring (list Json));
  published : list (string * Json)
}.

Definition new_manager : RedisPubSubManager :=
  mkManager false true ∅ ∅ ∅ [].

Definition with_heartbeats (h : gmap string (Expiring IsoString))
    (m : RedisPubSubManager) : RedisPubSubManager :=
  mkManager (is_connected m) (redis_reachable m) (subscriptions m) h
            (recent_messages m) (published m).

(** [connect]: [None] when the connection attempt raises. *)
Definition connect (m : RedisPubSubManager) : option RedisPubSubManager :=
  if redis_reachable m then
    Some (mkManager true (redis_reachable m) (subscriptions m) (heartbeats m)
                    (recent_messages m) (published m))
  else None.

(** [publish_message]: the boolean is the return value. *)
Definition publish_message (channel : string) (message : Json)
    (m : RedisPubSubManager) : RedisPubSubManager * bool :=
  if is_connected m then
    (mkManager (is_connected m) (redis_reachable m) (subscriptions m) (heartbeats m)
               (recent_messages m) (published m ++ [(channel, message)]), true)
  else (m, false).

(** [subscribe_to_channel]: [None] when [connect()] raises. *)
Definition subscribe_to_channel (channel : string) (callback : Callback)
    (m : RedisPubSubManager) : option RedisPubSubManager :=
  match (if is_connected m then Some m else connect m) with
  | None => None
  | Some m =>
      Some (mkManager (is_connected m) (redis_reachable m)
              (<[channel := default [] (subscriptions m !! channel) ++ [callback]]>
                 (subscriptions m))
              (heartbeats m) (recent_messages m) (published m))
  end.

(** [unsubscribe_from_channel]: drops the channel with all its callbacks. *)
Definition unsubscribe_from_channel (channel : string) (m : RedisPubSubManager)
    : RedisPubSubManager :=
  if is_connected m then
    mkManager (is_connected m) (redis_reachable m) (delete channel (subscriptions m))
              (heartbeats m) (recent_messages m) (published m)
  else m.

(** One entry of the record of a fan-out: the callback called, its
    arguments, and the exception it raised (caught and logged), if any. *)
Record Invocation := mkInvocation {
  inv_callback : Callback;
  inv_channel : string;
  inv_data : Json;
  inv_raised : option string
}.

(** [for callback in self.subscriptions[channel]: try: await callback(...)
    except Exception: logger.error(...)] *)
Fixpoint invoke_callbacks (cbs : list Callback) (channel : string) (data : Json)
    (env : Env) : Env * list Invocation :=
  match cbs with
  | [] => (env, [])
  | callback :: rest =>
      let '(env1, raised) := invoke callback channel data env in
      let '(env2, log) := invoke_callbacks rest channel data env1 in
      (env2, mkInvocation callback channel data raised :: log)
  end.

(** The body of the [async for] of [listen_for_messages] for one message.
    [None] is the exception of [json.loads], which ends the loop. *)
Definition on_message (message : PubSubMessage) (m : RedisPubSubManager) (env : Env)
    : option (RedisPubSubManager * Env * list Invocation) :=
  if String.eqb (msg_type message) "message" then
    match msg_data message with
    | None => None
    | Some data =>
        match subscriptions m !! msg_channel message with
        | Some cbs =>
            let '(env', log) := invoke_callbacks cbs (msg_channel message) data env in
            Some (m, env', log)
        | None => Some (m, env, [])
        end
    end
  else Some (m, env, []).

(** [listen_for_messages] over the messages the pubsub connection yields. *)
Fixpoint listen_for_messages (messages : list PubSubMessage) (m : RedisPubSubManager)
    (env : Env) : RedisPubSubManager * Env * list Invocation :=
  match messages with
  | [] => (m, env, [])
  | message :: rest =>
      if is_connected m then
        match on_message message m env with
        | None => (m, env, [])
        | Some (m1, env1, log1) =>
            let '(m2, env2, log2) := listen_for_messages rest m1 env1 in
            (m2, env2, log1 ++ log2)
        end
      else (m, env, [])
  end.

Definition publish_chat_message (room_id : string) (message_data : Json) (now : Q)
    (m : RedisPubSubManager) : RedisPubSubManager :=
  fst (publish_message ("room:" +:+ room_id)
         (JObj [("type", JStr "chat_message"); ("data", message_data);
                ("timestamp", JTime now)]) m).

Definition publish_user_status (wallet_address : string) (status_data : Json) (now : Q)
    (m : RedisPubSubManager) : RedisPubSubManager :=
  fst (publish_message "user_status"
         (JObj [("type", JStr "user_status"); ("wallet_address", JStr wallet_address);
                ("data", status_data); ("timestamp", JTime now)]) m).

(** [set_user_heartbeat]: SETEX heartbeat:<wallet> 60 <now>; without a
    client the exception is logged and nothing is written. *)
Definition set_user_heartbeat (wallet_address : string) (now : Q)
    (m : RedisPubSubManager) : RedisPubSubManager :=
  if is_connected m then
    with_heartbeats (<[wallet_address := mkExpiring (Iso now) (now + 60)%Q]> (heartbeats m)) m
  else m.

Definition get_user_heartbeat (wallet_address : string) (now : Q)
    (m : RedisPubSubManager) : option IsoString :=
  if is_connected m then read now (heartbeats m) wallet_address else None.

(** KEYS heartbeat:* with the prefix removed.  Redis lists the keys in no
    particular order; the order here is the one of the map. *)
Definition heartbeat_keys (now : Q) (m : RedisPubSubManager) : list string :=
  fst <$> List.filter (fun kv => live now (snd kv)) (map_to_list (heartbeats m)).

Definition get_online_users (now : Q) (m : RedisPubSubManager) : list string :=
  if is_connected m then heartbeat_keys now m else [].

(** The liveness threshold of the monitor: [timedelta(minutes=2)]. *)
Definition offline_after : Q := 120.

(** The [for key in keys] loop of [_heartbeat_monitor]: the keys left and the
    wallets found expired, in order.  An empty value fails the test
    [if heartbeat_time_str] and is skipped; subtracting an instant with an
    offset from the naive [current_time] raises TypeError, which is not the
    ValueError caught in the loop: the round ends there ([None]) with the
    deletions made so far. *)
Fixpoint scan_heartbeats (keys : list string) (current_time : Q)
    (h : gmap string (Expiring IsoString)) (expired_users : list string)
    : gmap string (Expiring IsoString) * option (list string) :=
  match keys with
  | [] => (h, Some expired_users)
  | key :: rest =>
      match read current_time h key with
      | Some (Iso heartbeat_time) =>
          if Qlt_bool offline_after (current_time - heartbeat_time) then
            scan_heartbeats rest current_time (delete key h) (expired_users ++ [key])
          else scan_heartbeats rest current_time h expired_users
      | Some (Aware _) => (h, None)
      | Some Malformed => scan_heartbeats rest current_time (delete key h) expired_users
      | Some Empty => scan_heartbeats rest current_time h expired_users
      | None => scan_heartbeats rest current_time h expired_users
      end
  end.

(** The notifications of one sweep. *)
Fixpoint notify_offline (expired_users : list string) (current_time : Q)
    (m : RedisPubSubManager) : RedisPubSubManager :=
  match expired_users with
  | [] => m
  | wallet_address :: rest =>
      notify_offline rest current_time
        (publish_user_status wallet_address
           (JObj [("is_online", JBool false); ("last_seen", JTime current_time)])
           current_time m)
  end.

(** One round of [_heartbeat_monitor] from the point where KEYS has returned
    [keys], in that order: the scan, then the notifications; an exception of
    the scan is logged and ends the round before the notifications. *)
Definition sweep_keys (keys : list string) (current_time : Q) (m : RedisPubSubManager)
    : RedisPubSubManager :=
  match scan_heartbeats keys current_time (heartbeats m) [] with
  | (h, Some expired_users) =>
      notify_offline expired_users current_time (with_heartbeats h m)
  | (h, None) => with_heartbeats h m
  end.

(** One round of [_heartbeat_monitor], run when its 30 second sleep ends at
    [current_time]. *)
Definition heartbeat_sweep (current_time : Q) (m : RedisPubSubManager)
    : RedisPubSubManager :=
  if is_connected m then sweep_keys (heartbeat_keys current_time m) current_time m
  else m.

(** The sweeps of the monitor at the given instants, in order. *)
Definition heartbeat_monitor (sweeps : list Q) (m : RedisPubSubManager)
    : RedisPubSubManager :=
  fold_left (fun m t => heartbeat_sweep t m) sweeps m.

(** [store_message_cache]: LPUSH, LTRIM 0 99, EXPIRE ttl. *)
Definition store_message_cache (room_id : string) (message : Json) (ttl : Z) (now : Q)
    (m : RedisPubSubManager) : RedisPubSubManager :=
  if is_connected m then
    let old := default [] (read now (recent_messages m) room_id) in
    mkManager (is_connected m) (redis_reachable m) (subscriptions m) (heartbeats m)
      (<[room_id := mkExpiring (take 100 (message :: old)) (now + inject_Z ttl)%Q]>
         (recent_messages m))
      (published m)
  else m.

(** [get_recent_messages]: LRANGE 0 limit-1, oldest first. *)
Definition get_recent_messages (room_id : string) (limit : Z) (now : Q)
    (m : RedisPubSubManager) : list Json :=
  if is_connected m then
    rev (lrange 0 (limit - 1) (default [] (read now (recent_messages m) room_id)))
  else [].

End Manager.

Arguments RedisPubSubManager : clear implicits.
Arguments Invocation : clear implicits.

End PubSub.

(** ** websocket_auth.py *)

Module WsAuth.

(** A transport handle. *)
Definition Websocket := nat.

(** The verified token payload: the wallet and the NFT holdings captured at
    authentication ([None] when the key is absent). *)
Record UserData := mkUserData {
  wallet_address : string;
  nft_holdings : option (list string);
  display_name : option string
}.

(** One value of [authenticated_connections]. *)
Record ConnData := mkConnData {
  websocket : Websocket;
  user_data : UserData;
  conn_wallet_address : string
}.

Record WebSocketAuthManager := mkAuthManager {
  authenticated_connections : gmap string ConnData
}.

Definition new_auth_manager : WebSocketAuthManager := mkAuthManager ∅.

Definition add_connection (connection_id : string) (websocket : Websocket)
    (user_data : UserData) (a : WebSocketAuthManager) : WebSocketAuthManager :=
  mkAuthManager
    (<[connection_id := mkConnData websocket user_data (wallet_address user_data)]>
       (authenticated_connections a)).

Definition remove_connection (connection_id : string) (a : WebSocketAuthManager)
    : WebSocketAuthManager :=
  match authenticated_connections a !! connection_id with
  | Some _ => mkAuthManager (delete connection_id (authenticated_connections a))
  | None => a
  end.

Definition get_connection (connection_id : string) (a : WebSocketAuthManager)
    : option ConnData :=
  authenticated_connections a !! connection_id.

(** The connections of the dict with their ids.  The dict iterates in the
    order of insertion, which the map does not keep: the order here is the
    one of the map. *)
Definition connections (a : WebSocketAuthManager) : list (string * ConnData) :=
  map_to_list (authenticated_connections a).

Definition get_connections_by_wallet (wallet : string) (a : WebSocketAuthManager)
    : list ConnData :=
  List.filter (fun c => String.eqb (conn_wallet_address c) wallet)
              (snd <$> connections a).

(** [broadcast_to_wallet]: the frames written, as (transport, frame). *)
Definition broadcast_to_wallet (wallet : string) (message : Json)
    (a : WebSocketAuthManager) : list (Websocket * Json) :=
  (fun c => (websocket c, message)) <$> get_connections_by_wallet wallet a.

(** [any(nft in user_nfts for nft in required_nfts)] *)
Definition holds_any (user_nfts required_nfts : list string) : bool :=
  existsb (fun nft => existsb (String.eqb nft) user_nfts) required_nfts.

Definition broadcast_to_nft_holders (required_nfts : list string) (message : Json)
    (a : WebSocketAuthManager) : list (Websocket * Json) :=
  (fun c => (websocket c, message)) <$>
    List.filter (fun c => holds_any (default [] (nft_holdings (user_data c))) required_nfts)
                (snd <$> connections a).

(** The wallets of [get_stats], each once. *)
Definition active_wallets (a : WebSocketAuthManager) : list string :=
  remove_dups ((fun c => conn_wallet_address c) <$> (snd <$> connections a)).

Definition get_stats (a : WebSocketAuthManager) : Json :=
  JObj [("total_connections", JInt (Z.of_nat (length (connections a))));
        ("unique_wallets", JInt (Z.of_nat (length (active_wallets a))));
        ("active_wallets", JStrs (active_wallets a))].

End WsAuth.

(** ** message_models.py: the tables the router reads and writes *)

Module Models.

Record ChatRoom := mkChatRoom {
  room_id : Z;
  room_name : string;
  room_type : string;                       (* public, nft_gated, private *)
  required_nfts : option (list string)      (* nullable JSON column *)
}.

Record RoomMember := mkRoomMember {
  member_room_id : Z;
  member_wallet : string;
  role : string;
  can_send_messages : bool;
  message_count : Z;
  last_seen : option Q
}.

Record ChatMessage := mkChatMessage {
  message_id : Z;
  message_room_id : Z;
  content : string;
  sender_wallet : string;
  sender_nfts : list string;
  message_type : string;
  created_at : Q
}.

Record PrivateMessage := mkPrivateMessage {
  pm_id : Z;
  pm_sender_wallet : string;
  pm_recipient_wallet : string;
  pm_content : string;
  pm_message_type : string;
  pm_created_at : Q
}.

(** The committed rows, in insertion order.  A new row gets the next free
    primary key and the commit instant as [created_at]. *)
Record Database := mkDatabase {
  chat_rooms : list ChatRoom;
  room_members : list RoomMember;
  chat_messages : list ChatMessage;
  private_messages : list PrivateMessage
}.

Definition empty_db : Database := mkDatabase [] [] [] [].

(** [db.query(ChatRoom).filter(ChatRoom.id == room_id).first()] *)
Definition find_room (id : Z) (d : Database) : option ChatRoom :=
  List.find (fun r => (room_id r =? id)%Z) (chat_rooms d).

Definition is_member_row (id : Z) (wallet : string) (m : RoomMember) : bool :=
  (member_room_id m =? id)%Z && String.eqb (member_wallet m) wallet.

(** [db.query(RoomMember).filter(room_id == .., wallet_address == ..).first()] *)
Definition find_member (id : Z) (wallet : string) (d : Database) : option RoomMember :=
  List.find (is_member_row id wallet) (room_members d).

Definition add_member (m : RoomMember) (d : Database) : Database :=
  mkDatabase (chat_rooms d) (room_members d ++ [m]) (chat_messages d) (private_messages d).

Definition next_message_id (d : Database) : Z := Z.of_nat (length (chat_messages d)) + 1.
Definition next_private_id (d : Database) : Z := Z.of_nat (length (private_messages d)) + 1.

Definition add_message (m : ChatMessage) (d : Database) : Database :=
  mkDatabase (chat_rooms d) (room_members d) (chat_messages d ++ [m]) (private_messages d).

Definition add_private_message (m : PrivateMessage) (d : Database) : Database :=
  mkDatabase (chat_rooms d) (room_members d) (chat_messages d) (private_messages d ++ [m]).

(** [member.message_count += 1; member.last_seen = now] on the row that
    [find_member] returned. *)
Fixpoint touch_member (id : Z) (wallet : string) (now : Q) (l : list RoomMember)
    : list RoomMember :=
  match l with
  | [] => []
  | m :: rest =>
      if is_member_row id wallet m then
        mkRoomMember (member_room_id m) (member_wallet m) (role m) (can_send_messages m)
                     (message_count m + 1) (Some now) :: rest
      else m :: touch_member id wallet now rest
  end.

Definition update_member_stats (id : Z) (wallet : string) (now : Q) (d : Database)
    : Database :=
  mkDatabase (chat_rooms d) (touch_member id wallet now (room_members d))
             (chat_messages d) (private_messages d).

End Models.

(** ** main.py: the WebSocket endpoint and its message router

    main.py uses the name [json] without binding it, so every frame the
    endpoint or the router sets out to write through [json.dumps] ends in
    NameError before anything reaches the transport; websocket_auth.py and
    redis_pubsub.py import [json] and their writes go through.  A transport
    write succeeds and is recorded; the AI trigger and the database are
    collaborators: the first is recorded as an effect, the second is the
    committed rows. *)

Module Router.

Import WsAuth Models.

(** The callbacks the router subscribes:
    [lambda channel, data: websocket_message_callback(websocket, channel, data)]. *)
Inductive Callback :=
  | ForwardTo (websocket : Websocket).

(** What the router does to the outside, in the order it does it.  [ERaise]
    is the exception that ends the function being run. *)
Inductive Effect :=
  | ESetHeartbeat (wallet : string) (t : Q)          (* SETEX heartbeat:<wallet> *)
  | ESend (websocket : Websocket) (frame : Json)     (* websocket.send_text *)
  | ECommit                                          (* db.commit() *)
  | ESubscribe (channel : string) (callback : Callback)
  | ECacheMessage (room : string) (message : Json)   (* LPUSH recent_messages:<room> *)
  | EPublish (channel : string)                      (* PUBLISH *)
  | ETriggerAi (context : Json)                      (* trigger_socratic_ai *)
  | ERaise (exception : string).

(** The module-level singletons and the collaborators they reach. *)
Record World := mkWorld {
  auth : WebSocketAuthManager;                       (* websocket_auth_manager *)
  pubsub : PubSub.RedisPubSubManager Callback;       (* redis_pubsub_manager *)
  limiter : RateLimiter.RateLimiter;                 (* global_rate_limiter *)
  db : Database;
  effects : list Effect
}.

Definition with_auth (a : WebSocketAuthManager) (w : World) : World :=
  mkWorld a (pubsub w) (limiter w) (db w) (effects w).
Definition with_pubsub (p : PubSub.RedisPubSubManager Callback) (w : World) : World :=
  mkWorld (auth w) p (limiter w) (db w) (effects w).
Definition with_limiter (l : RateLimiter.RateLimiter) (w : World) : World :=
  mkWorld (auth w) (pubsub w) l (db w) (effects w).
Definition with_db (d : Database) (w : World) : World :=
  mkWorld (auth w) (pubsub w) (limiter w) d (effects w).
Definition log (e : list Effect) (w : World) : World :=
  mkWorld (auth w) (pubsub w) (limiter w) (db w) (effects w ++ e).

(** [json.dumps(value)] where main.py evaluates it: the text to send, or
    [None] for an exception.  The module has no global [json] (its imports
    of it, at lines 1032 and 1088, are local to two functions of the document
    pipeline), so the lookup of the name raises NameError, before the
    argument is looked at. *)
Definition json_dumps (value : Json) : option Json := None.

(** The function being run ends with [exception]. *)
Definition raises (exception : string) (w : World) : World :=
  log [ERaise exception] w.

(** [websocket_message_callback]: forwards the data; an exception of
    [json.dumps] or of the write is caught inside, so the callback never
    raises. *)
Definition websocket_message_callback (callback : Callback) (channel : string)
    (data : Json) (sent : list Effect) : list Effect * option string :=
  match callback with
  | ForwardTo websocket =>
      match json_dumps data with
      | Some text => (sent ++ [ESend websocket text], None)
      | None => (sent, None)
      end
  end.

(** An inbound frame that is a JSON object: the fields the router reads. *)
Record Frame := mkFrame {
  frame_type : option string;
  frame_room_id : option Z;
  frame_message : option string;
  frame_target_wallet : option string
}.

(** What [json.loads] makes of an inbound frame: an object, or another JSON
    value (a list, a string, a number, a boolean or null). *)
Inductive MessageData :=
  | NotADict
  | Dict (frame : Frame).

(** [await websocket.send_text(json.dumps(frame))] outside a [try]. *)
Definition send_text (websocket : Websocket) (frame : Json) (w : World) : World :=
  match json_dumps frame with
  | Some text => log [ESend websocket text] w
  | None => raises "NameError" w
  end.

Definition error_frame (message : string) : Json :=
  JObj [("type", JStr "error"); ("message", JStr message)].

(** The handler of [handle_websocket_message]:
    [except Exception: await websocket.send_text(json.dumps({... "Internal
    server error"}))], itself outside any [try]. *)
Definition internal_server_error (websocket : Websocket) (w : World) : World :=
  send_text websocket (error_frame "Internal server error") w.

(** [await websocket.send_text(json.dumps(frame))] inside the [try] of
    [handle_websocket_message]: an exception goes to its handler. *)
Definition reply (websocket : Websocket) (frame : Json) (w : World) : World :=
  match json_dumps frame with
  | Some text => log [ESend websocket text] w
  | None => internal_server_error websocket w
  end.

Definition commit (d : Database) (w : World) : World :=
  log [ECommit] (with_db d w).

(** [str(list_of_strings)] *)
Definition py_str_list (l : list string) : string :=
  "[" +:+ String.concat ", " ((fun s => "'" +:+ s +:+ "'") <$> l) +:+ "]".

Definition py_str_option (o : option string) : string := default "None" o.

(** [redis_pubsub_manager.set_user_heartbeat(wallet_address)] *)
Definition manager_set_user_heartbeat (wallet : string) (now : Q) (w : World) : World :=
  if PubSub.is_connected (pubsub w) then
    log [ESetHeartbeat wallet now]
        (with_pubsub (PubSub.set_user_heartbeat wallet now (pubsub w)) w)
  else w.

Definition manager_store_message_cache (room : string) (message : Json) (now : Q) (w : World)
    : World :=
  if PubSub.is_connected (pubsub w) then
    log [ECacheMessage room message]
        (with_pubsub (PubSub.store_message_cache room message 3600 now (pubsub w)) w)
  else w.

Definition manager_publish_chat_message (room : string) (message : Json) (now : Q) (w : World)
    : World :=
  if PubSub.is_connected (pubsub w) then
    log [EPublish ("room:" +:+ room)]
        (with_pubsub (PubSub.publish_chat_message room message now (pubsub w)) w)
  else w.

(** Python truthiness of the optional fields. *)
Definition truthy_id (o : option Z) : option Z :=
  match o with
  | Some z => if (z =? 0)%Z then None else Some z
  | None => None
  end.

Definition truthy_str (o : option string) : option string :=
  match o with
  | Some s => if String.eqb s "" then None else Some s
  | None => None
  end.

(** The gate of [join_room]:
    [room.room_type == "nft_gated" and room.required_nfts]. *)
Definition gating_requirement (room : ChatRoom) : option (list string) :=
  if String.eqb (room_type room) "nft_gated" then
    match required_nfts room with
    | Some (nft :: rest) => Some (nft :: rest)
    | _ => None
    end
  else None.

Definition has_access (user_data : UserData) (required : list string) : bool :=
  holds_any (default [] (nft_holdings user_data)) required.

Definition room_channel (id : Z) : string := "room:" +:+ pretty id.

(** The [join_room] branch. *)
Definition join_room (websocket : Websocket) (wallet : string) (message_data : Frame)
    (user_data : UserData) (now : Q) (w : World) : World :=
  match truthy_id (frame_room_id message_data) with
  | None => reply websocket (error_frame "Room ID required") w
  | Some id =>
      match find_room id (db w) with
      | None => reply websocket (error_frame "Room not found") w
      | Some room =>
          let denied :=
            match gating_requirement room with
            | Some required => negb (has_access user_data required)
            | None => false
            end in
          if denied then
            reply websocket
              (error_frame ("Access denied. Required NFTs: " +:+
                            py_str_list (default [] (required_nfts room)))) w
          else
            let w :=
              match find_member id wallet (db w) with
              | Some _ => w
              | None =>
                  commit (add_member (mkRoomMember id wallet "member" true 0 None) (db w)) w
              end in
            match PubSub.subscribe_to_channel (room_channel id) (ForwardTo websocket)
                    (pubsub w) with
            | None => internal_server_error websocket w
            | Some p =>
                let w := log [ESubscribe (room_channel id) (ForwardTo websocket)]
                             (with_pubsub p w) in
                let recent := PubSub.get_recent_messages (pretty id) 50 now (pubsub w) in
                reply websocket
                  (JObj [("type", JStr "room_joined"); ("room_id", JInt id);
                         ("room_name", JStr (room_name room));
                         ("recent_messages", JList recent)]) w
            end
      end
  end.

(** The [room_message] branch. *)
Definition room_message (websocket : Websocket) (wallet : string) (message_data : Frame)
    (user_data : UserData) (now : Q) (w : World) : World :=
  match truthy_id (frame_room_id message_data), truthy_str (frame_message message_data) with
  | Some id, Some text =>
      match find_member id wallet (db w) with
      | Some member =>
          if can_send_messages member then
            let new_message :=
              mkChatMessage (next_message_id (db w)) id text wallet
                            (default [] (nft_holdings user_data)) "text" now in
            let w := commit (add_message new_message (db w)) w in
            let chat_message :=
              JObj [("type", JStr "room_message"); ("message_id", JInt (message_id new_message));
                    ("room_id", JInt id); ("wallet_address", JStr wallet);
                    ("message", JStr text); ("timestamp", JTime (created_at new_message))] in
            let w := manager_store_message_cache (pretty id) chat_message now w in
            let w := manager_publish_chat_message (pretty id) chat_message now w in
            let w := commit (update_member_stats id wallet now (db w)) w in
            log [ETriggerAi
                   (JObj [("content", JStr text); ("room_id", JInt id);
                          ("sender_wallet", JStr wallet);
                          ("message_id", JInt (message_id new_message));
                          ("timestamp", JTime (created_at new_message));
                          ("nft_holdings", JStrs (default [] (nft_holdings user_data)))])] w
          else
            reply websocket
              (error_frame "Not authorized to send messages in this room") w
      | None =>
          reply websocket (error_frame "Not authorized to send messages in this room") w
      end
  | _, _ => reply websocket (error_frame "Room ID and message content required") w
  end.

(** The [private_message] branch.  [broadcast_to_wallet] is
    websocket_auth.py's, whose [json] is bound. *)
Definition private_message (websocket : Websocket) (wallet : string) (message_data : Frame)
    (now : Q) (w : World) : World :=
  match truthy_str (frame_target_wallet message_data),
        truthy_str (frame_message message_data) with
  | Some target_wallet, Some text =>
      let private_msg :=
        mkPrivateMessage (next_private_id (db w)) wallet target_wallet text "text" now in
      let w := commit (add_private_message private_msg (db w)) w in
      let frame :=
        JObj [("type", JStr "private_message"); ("message_id", JInt (pm_id private_msg));
              ("from_wallet", JStr wallet); ("message", JStr text);
              ("timestamp", JTime (pm_created_at private_msg))] in
      let w := log ((fun p => ESend (fst p) (snd p)) <$>
                      broadcast_to_wallet target_wallet frame (auth w)) w in
      reply websocket
        (JObj [("type", JStr "message_sent"); ("message_id", JInt (pm_id private_msg));
               ("target_wallet", JStr target_wallet)]) w
  | _, _ =>
      reply websocket (error_frame "Target wallet and message content required") w
  end.

(** [message_type == name] *)
Definition is_type (message_type : option string) (name : string) : bool :=
  match message_type with
  | Some t => String.eqb t name
  | None => false
  end.

(** The [if/elif] chain on [message_type], after the heartbeat update. *)
Definition dispatch (websocket : Websocket) (wallet : string) (message_data : Frame)
    (user_data : UserData) (now : Q) (w : World) : World :=
  let message_type := frame_type message_data in
  if is_type message_type "heartbeat" then
    reply websocket
      (JObj [("type", JStr "heartbeat_ack"); ("timestamp", JTime now);
             ("wallet_address", JStr wallet)]) w
  else if is_type message_type "join_room" then
    join_room websocket wallet message_data user_data now w
  else if is_type message_type "room_message" then
    room_message websocket wallet message_data user_data now w
  else if is_type message_type "private_message" then
    private_message websocket wallet message_data now w
  else if is_type message_type "get_online_users" then
    let online_users := PubSub.get_online_users now (pubsub w) in
    reply websocket
      (JObj [("type", JStr "online_users"); ("users", JStrs online_users);
             ("count", JInt (Z.of_nat (length online_users)))]) w
  else if is_type message_type "stats" then
    let online_users := PubSub.get_online_users now (pubsub w) in
    reply websocket
      (JObj [("type", JStr "stats"); ("websocket_connections", get_stats (auth w));
             ("online_users_count", JInt (Z.of_nat (length online_users)));
             ("redis_connected", JBool (PubSub.is_connected (pubsub w)))]) w
  else
    reply websocket
      (error_frame ("Unknown message type: " +:+ py_str_option message_type)) w.

(** [handle_websocket_message].  Its first statement is
    [message_data.get("type")], which raises AttributeError on a value that
    is not a dict, before the registry and the heartbeat are touched. *)
Definition handle_websocket_message (connection_id : string) (message_data : MessageData)
    (user_data : UserData) (now : Q) (w : World) : World :=
  match message_data with
  | NotADict => raises "AttributeError" w
  | Dict frame =>
      match get_connection connection_id (auth w) with
      | None => w
      | Some conn_data =>
          let websocket := websocket conn_data in
          let wallet := wallet_address user_data in
          let w := manager_set_user_heartbeat wallet now w in
          dispatch websocket wallet frame user_data now w
      end
  end.

(** The message loop of the endpoint over the frames that arrive before the
    disconnect.  A turn that receives a frame goes to [json.loads]; a turn
    that finds the transport closed goes, like every exception of the inner
    [try], to the clause [except json.JSONDecodeError]: both look up [json]
    and raise NameError, which ends the loop at its first turn. *)
Definition message_loop (frames : list (option Frame * Q)) (w : World) : World :=
  raises "NameError" w.

(** The [finally] block of the endpoint: all that runs when the transport
    closes. *)
Definition cleanup (connection_id : string) (w : World) : World :=
  with_auth (remove_connection connection_id (auth w)) w.

(** The [try] block of the endpoint after a successful authentication: the
    registration, the welcome frame and the message loop over [frames].  The
    exception that ends it is logged by [except Exception]. *)
Definition serve (connection_id : string) (websocket : Websocket)
    (user_data : UserData) (frames : list (option Frame * Q)) (w : World) : World :=
  let w := with_auth (add_connection connection_id websocket user_data (auth w)) w in
  match json_dumps (JObj [("type", JStr "welcome");
                          ("wallet_address", JStr (wallet_address user_data));
                          ("nft_holdings", JStrs (default [] (nft_holdings user_data)));
                          ("message", JStr "Connected to authenticated chat")]) with
  | Some text => message_loop frames (log [ESend websocket text] w)
  | None => raises "NameError" w
  end.

(** [authenticated_websocket_chat] for a connection that delivers [frames]
    and then disconnects; [auth_result] is what the authentication returned. *)
Definition authenticated_websocket_chat (connection_id : string) (websocket : Websocket)
    (auth_result : option UserData) (frames : list (option Frame * Q)) (w : World)
    : World :=
  match auth_result with
  | None => cleanup connection_id w
  | Some user_data => cleanup connection_id (serve connection_id websocket user_data frames w)
  end.

(** The effects a step has added to the log. *)
Definition new_effects (before after : World) : list Effect :=
  drop (length (effects before)) (effects after).

(** A frame without a [retry_after] field, or an effect that is not a write
    to a transport. *)
Definition no_retry_after (e : Effect) : bool :=
  match e with
  | ESend _ frame => negb (existsb (String.eqb "retry_after") (json_keys frame))
  | _ => true
  end.

(** The frames written to transports, oldest first. *)
Definition sent_frames (l : list Effect) : list (Websocket * Json) :=
  omap (fun e => match e with ESend ws f => Some (ws, f) | _ => None end) l.

End Router.

(** An object frame where a decoded frame is expected. *)
Coercion Router.Dict : Router.Frame >-> Router.MessageData.

(** ** rate_limiter.py: statistics *)

Module RateLimiterStats.
Import RateLimiter.

(** ZCOUNT key lo hi: the members whose score is in [lo, hi]. *)
Definition zcount (lo hi : Q) (l : list Q) : Z :=
  Z.of_nat (length (List.filter (fun s => Qle_bool lo s && Qle_bool s hi) l)).

(** One entry of the list [get_user_stats] builds for an endpoint. *)
Record RuleStats := mkRuleStats {
  rule_index : nat;
  stats_limit : Z;
  stats_remaining : Z;
  stats_window : Z;
  stats_type : RateLimitType
}.

(** The [remaining] that [get_user_stats] computes for one rule; the key is
    [rate_limit:<user_key>] whatever the rule's key function is. *)
Definition stats_remaining_of (user_key : string) (rule : RateLimitRule) (now : Q)
    (s : Store) : Z :=
  let key := "rate_limit:" +:+ user_key in
  match limit_type rule with
  | SLIDING_WINDOW =>
      let window_start := (now - inject_Z (window rule))%Q in
      let count := zcount window_start now (default [] (read now (zsets s) key)) in
      Z.max 0 (limit rule - count)
  | TOKEN_BUCKET =>
      py_int (Float64.fl (match read now (buckets s) (key +:+ ":bucket") with
                          | Some b => tokens b
                          | None => inject_Z (burst_limit rule)
                          end))
  | _ => limit rule
  end.

(** [get_user_stats]: for every endpoint, the statistics of its rules in
    order. *)
Definition get_user_stats (rl : RateLimiter) (user_key : string) (now : Q)
    : gmap string (list RuleStats) :=
  (fun endpoint_rules =>
     imap (fun i rule =>
             mkRuleStats i (limit rule) (stats_remaining_of user_key rule now (store rl))
                         (window rule) (limit_type rule))
          endpoint_rules) <$> rules rl.

End RateLimiterStats.

(** ** websocket_auth.py: the authentication handshake *)

Module Handshake.
Import WsAuth.

(** The first text frame of a connection, as [json.loads] sees it: not JSON,
    JSON that is not an object, or an object with its [type] and [token]
    fields (absent fields are [None]; a [type] that is not a string differs
    from "auth" like an absent one). *)
Inductive FirstMessage :=
  | NotJson
  | NotAnObject
  | AuthObject (type : option string) (token : option Json).

(** What the handshake did: the payload it returned, whether it accepted the
    transport, the frames it sent and the code it closed with. *)
Record Outcome := mkOutcome {
  user : option UserData;
  accepted : bool;
  sent : list Json;
  close_code : option Z
}.

Definition auth_error (message : string) : Json :=
  JObj [("type", JStr "auth_error"); ("message", JStr message)].

Definition auth_success (user_payload : UserData) : Json :=
  JObj [("type", JStr "auth_success");
        ("wallet_address", JStr (wallet_address user_payload));
        ("message", JStr "Authentication successful")].

Section Verify.

(** [WalletAuthService.verify_token] on the value presented as token: the
    payload of a valid token, [None] when it raises. *)
Variable verify_token : Json -> option UserData.

(** The second half of [authenticate_websocket]: accept, then read the auth
    message.  The transport delivers a first frame and takes the writes. *)
Definition authenticate_by_message (first : FirstMessage) : Outcome :=
  match first with
  | NotJson =>
      mkOutcome None true [auth_error "Invalid JSON in auth message"] (Some 4002%Z)
  | NotAnObject =>
      mkOutcome None true [auth_error "Invalid or expired token"] (Some 4003%Z)
  | AuthObject type token =>
      match (if default false (String.eqb "auth" <$> type) then token else None) with
      | None =>
          mkOutcome None true
            [auth_error "Authentication required. Send {type: 'auth', token: 'your_jwt_token'}"]
            (Some 4001%Z)
      | Some t =>
          match verify_token t with
          | Some user_payload =>
              mkOutcome (Some user_payload) true [auth_success user_payload] None
          | None =>
              mkOutcome None true [auth_error "Invalid or expired token"] (Some 4003%Z)
          end
      end
  end.

(** [authenticate_websocket]: [query_token] is the first [token] parameter of
    the query string, if any. *)
Definition authenticate_websocket (query_token : option string) (first : FirstMessage)
    : Outcome :=
  match Router.truthy_str query_token with
  | Some token =>
      match verify_token (JStr token) with
      | Some user_payload => mkOutcome (Some user_payload) false [] None
      | None => authenticate_by_message first
      end
  | None => authenticate_by_message first
  end.

End Verify.

End Handshake.

(** * Specification vocabulary

    The predicates the properties below are stated with, and the concrete
    rules, requests and sessions they are tried on. *)

(** ** Rate limiter *)

Module RateLimiterSpec.
Import RateLimiter.

(** A clock that stands still during a call, and one that advances by a
    millisecond from one rule to the next. *)
Definition steady (now : Q) : Clock := fun _ => now.

Definition ticking (start : Q) : Clock :=
  fun i => (start + inject_Z (Z.of_nat i) / 1000)%Q.

(** The bucket of the key is visible at [now], was written at [now] and holds
    [m] tokens. *)
Definition bucket_holds (key : string) (now : Q) (m : Z) (s : Store) : Prop :=
  exists b, read now (buckets s) (key +:+ ":bucket") = Some b /\
            (tokens b == inject_Z m)%Q /\ last_refill b = now.

(** One request per 49 seconds, with a bucket of one token. *)
Definition one_per_49s : RateLimitRule := new_rule 1 49 TOKEN_BUCKET (Some 1%Z) None.

(** Ten requests per second, with a bucket of two tokens. *)
Definition ten_per_second : RateLimitRule := new_rule 10 1 TOKEN_BUCKET (Some 2%Z) None.

(** The earlier checks that a check at [t] still counts: those younger than
    the window. *)
Definition counted (rule : RateLimitRule) (history : list Q) (t : Q) : list Q :=
  List.filter (fun x => Qlt_bool (t - inject_Z (window rule)) x) history.

(** The decisions of a run of sliding-window checks, from the instants of the
    earlier checks alone. *)
Fixpoint window_decisions (rule : RateLimitRule) (history : list Q) (times : list Q)
    : list bool :=
  match times with
  | [] => []
  | t :: rest =>
      (Z.of_nat (length (counted rule history t)) <? limit rule)%Z
      :: window_decisions rule (history ++ [t]) rest
  end.

(** Each instant is later than the one before it, the first one later than
    [last]. *)
Fixpoint increasing_from (last : Q) (times : list Q) : Prop :=
  match times with
  | [] => True
  | t :: rest => (last < t)%Q /\ increasing_from t rest
  end.

(** The allowed checks of a run whose instant lies in the span [a, a + w). *)
Fixpoint allowed_in_span (a w : Q) (times : list Q) (oks : list bool) : nat :=
  match times, oks with
  | t :: ts, ok :: os =>
      (if ok && Qle_bool a t && Qlt_bool t (a + w) then 1 else 0)%nat
      + allowed_in_span a w ts os
  | _, _ => 0%nat
  end.

(** The store holds, for the key, what the checks at [history] left: purged
    at any later instant it is the part of the history the window covers. *)
Definition holds_history (key : string) (rule : RateLimitRule) (s : Store)
    (history : list Q) : Prop :=
  forall now, Forall (fun x => (x < now)%Q) history ->
    zremrangebyscore 0 (now - inject_Z (window rule)) (default [] (read now (zsets s) key))
    = counted rule history now.

(** What each algorithm leaves in the store. *)
Definition check_writes (key : string) (rule : RateLimitRule) (now : Q) (s : Store) : Prop :=
  (* sliding window: the instant is a member afterwards, allowed or not *)
  (exists e, zsets (fst (_check_sliding_window key rule now s)) !! key = Some e /\
             existsb (Qeq_bool now) (value e) = true /\
             expire_at e = (now + inject_Z (window rule))%Q) /\
  (* fixed window: the counter of the current window goes up by one, allowed
     or not *)
  (forall s' ok info,
     _check_fixed_window key rule now s = Some (s', (ok, info)) ->
     let wkey := (key, window_seconds rule, Qfloor (now / inject_Z (window_seconds rule))) in
     read now (counters s') wkey = Some (default 0 (read now (counters s) wkey) + 1)%Z) /\
  (* token bucket: a denied check writes nothing *)
  (forall s' info,
     _check_token_bucket key rule now s = Some (s', (false, info)) -> s' = s) /\
  (* token bucket: an allowed check stores the new count and the instant *)
  (forall s' info,
     _check_token_bucket key rule now s = Some (s', (true, info)) ->
     exists b, stored_bucket key s' = Some b /\ last_refill b = now /\
               (0 <= tokens b)%Q /\ remaining info = py_int (tokens b)).

(** Every result is an allowance. *)
Definition all_allowed (results : list (bool * Info)) : Prop :=
  Forall (fun r => fst r = true) results.

(** Every result reports a positive [remaining]. *)
Definition all_positive (results : list (bool * Info)) : Prop :=
  Forall (fun r => (0 < remaining (snd r))%Z) results.

(** What [check_rate_limit] does with several rules.  A denial ends the
    call: the store is the one the rules up to the denying one have left. *)
Definition first_denial_wins (rl : RateLimiter) (request : Request) (endpoint : string)
    (clock : Clock) : Prop :=
  forall pre rule post s1 s2 results info,
    rules rl !! endpoint = Some (pre ++ rule :: post) ->
    evaluate_all pre request clock (store rl) = Some (s1, results) ->
    all_allowed results ->
    check_rule (key_func rule request) rule (clock (length pre)) s1
    = Some (s2, (false, info)) ->
    check_rate_limit rl request endpoint clock
    = (mkRateLimiter (rules rl) s2, Some (false, Full (denial_of info))).

(** Without a denial every rule is run and the call allows; when every rule
    reports a positive [remaining], the smallest one is returned. *)
Definition smallest_remaining_wins (rl : RateLimiter) (request : Request)
    (endpoint : string) (clock : Clock) : Prop :=
  forall rs s' results,
    rules rl !! endpoint = Some rs ->
    evaluate_all rs request clock (store rl) = Some (s', results) ->
    all_allowed results ->
    exists i, check_rate_limit rl request endpoint clock
              = (mkRateLimiter (rules rl) s', Some (true, Full i)) /\
              allowed i = true /\
              (all_positive results -> rl_remaining i = smallest_remaining results).

(** Two sliding-window rules on one endpoint, on separate keys: one request
    per minute on key a, five on key b. *)
Definition rule_a : RateLimitRule :=
  new_rule 1 60 SLIDING_WINDOW None (Some (fun _ => "a")).

Definition rule_b : RateLimitRule :=
  new_rule 5 60 SLIDING_WINDOW None (Some (fun _ => "b")).

Definition two_rules : RateLimiter :=
  add_rule "chat" rule_b (add_rule "chat" rule_a new_limiter).

Definition a_request : Request := mkRequest "10.0.0.1".

(** The limiter after one request at the instant 100. *)
Definition after_first_request : RateLimiter :=
  fst (check_rate_limit two_rules a_request "chat" (ticking 100)).

End RateLimiterSpec.

(** ** Presence *)

Module PresenceSpec.
Import PubSub.

(** Every heartbeat key holds an instant and dies 60 seconds after it: what
    [set_user_heartbeat] writes. *)
Definition written_by_heartbeat (h : gmap string (Expiring IsoString)) : Prop :=
  forall k e, h !! k = Some e -> exists t, value e = Iso t /\ (expire_at e == t + 60)%Q.

(** A connected manager without keys. *)
Definition connected : RedisPubSubManager unit :=
  mkManager true true ∅ ∅ ∅ [].

End PresenceSpec.

(** ** Fan-out *)

Module FanOutSpec.

(** The state after the callbacks have run one after the other. *)
Definition after_callbacks {Callback Env : Type}
    (invoke : Callback -> string -> Json -> Env -> Env * option string)
    (cbs : list Callback) (channel : string) (data : Json) (env : Env) : Env :=
  fold_left (fun e cb => fst (invoke cb channel data e)) cbs env.

(** The calls the listener owes for one message: every callback subscribed
    to its channel, in the order of the list, with the channel and the
    decoded data; none for a message of another type. *)
Definition calls_for {Callback : Type} (m : PubSub.RedisPubSubManager Callback)
    (message : PubSub.PubSubMessage) : list (Callback * string * Json) :=
  if String.eqb (PubSub.msg_type message) "message" then
    match PubSub.msg_data message with
    | Some data =>
        (fun cb => (cb, PubSub.msg_channel message, data))
          <$> default [] (PubSub.subscriptions m !! PubSub.msg_channel message)
    | None => []
    end
  else [].

(** The callback and the arguments of a recorded call. *)
Definition call_of {Callback : Type} (i : PubSub.Invocation Callback)
    : Callback * string * Json :=
  (PubSub.inv_callback i, PubSub.inv_channel i, PubSub.inv_data i).

(** The calls made one after the other, each on the state the one before it
    left, whether that one raised or not: the final state and what each call
    raised. *)
Fixpoint run_calls {Callback Env : Type}
    (invoke : Callback -> string -> Json -> Env -> Env * option string)
    (calls : list (Callback * string * Json)) (env : Env) : Env * list (option string) :=
  match calls with
  | [] => (env, [])
  | (cb, channel, data) :: rest =>
      let '(env1, raised) := invoke cb channel data env in
      let '(env2, others) := run_calls invoke rest env1 in
      (env2, raised :: others)
  end.

(** The payload of the message is JSON. *)
Definition decodable (message : PubSub.PubSubMessage) : Prop :=
  PubSub.msg_type message = "message" -> PubSub.msg_data message <> None.

(** What the listener does with the messages it is handed: for every one of
    them, in order, every callback of its channel is called, in the order of
    subscription, with the channel and the data; a call that raises is
    recorded with its exception and the calls after it are made all the same;
    the manager, and with it every subscriber list, is as it was. *)
Definition delivers_every_message {Callback Env : Type}
    (invoke : Callback -> string -> Json -> Env -> Env * option string)
    (m : PubSub.RedisPubSubManager Callback) (env : Env)
    (messages : list PubSub.PubSubMessage) : Prop :=
  let calls := concat (calls_for m <$> messages) in
  exists log,
    PubSub.listen_for_messages invoke messages m env
    = (m, fst (run_calls invoke calls env), log) /\
    call_of <$> log = calls /\
    PubSub.inv_raised <$> log = snd (run_calls invoke calls env).

(** Three subscribers of room:1, the second of which raises on every call:
    each callback appends its number to the state. *)
Definition second_raises (cb : nat) (channel : string) (data : Json) (env : list nat)
    : list nat * option string :=
  (env ++ [cb], if Nat.eqb cb 2 then Some "boom" else None).

End FanOutSpec.

(** ** Router *)

Module RouterSpec.
Import WsAuth Models Router.

(** What a step of the router leaves alone and what it adds: the registry,
    the limiter and the heartbeat keys are untouched, a connected manager
    stays connected, and the log grows by effects without [retry_after]. *)
Definition steps (w w' : World) : Prop :=
  auth w' = auth w /\ limiter w' = limiter w /\
  PubSub.heartbeats (pubsub w') = PubSub.heartbeats (pubsub w) /\
  (PubSub.is_connected (pubsub w) = true -> PubSub.is_connected (pubsub w') = true) /\
  exists l, effects w' = effects w ++ l /\ forallb no_retry_after l = true.

(** A world with a public room 1 and a room 2 gated on nftX, a connected
    pub/sub manager, and wallet A holding nftY. *)
Definition alice : UserData := mkUserData "walletA" (Some ["nftY"]) None.

Definition lobby : ChatRoom := mkChatRoom 1 "lobby" "public" None.

Definition vault : ChatRoom := mkChatRoom 2 "vault" "nft_gated" (Some ["nftX"]).

Definition world0 : World :=
  mkWorld new_auth_manager (PubSub.mkManager true true ∅ ∅ ∅ [])
          RateLimiter.new_limiter (mkDatabase [lobby; vault] [] [] []) [].

Definition join (id : Z) : Frame := mkFrame (Some "join_room") (Some id) None None.

Definition say (id : Z) (text : string) : Frame :=
  mkFrame (Some "room_message") (Some id) (Some text) None.

(** Wallet A registered as c1 on transport 7. *)
Definition alice_registered : World :=
  with_auth (add_connection "c1" 7 alice (auth world0)) world0.

(** After the router has handled its join of room 1 at the instant 10: the
    membership is recorded and the callback subscribed (the call then ends at
    its reply). *)
Definition alice_in_lobby : World :=
  handle_websocket_message "c1" (join 1) alice 10 alice_registered.

(** After the [finally] block of the endpoint has run for c1. *)
Definition alice_gone : World := cleanup "c1" alice_in_lobby.

(** A limiter with one request per minute on the endpoint room_message, which
    has seen the request of 10.0.0.1 at the instant 99. *)
Definition throttled : RateLimiter.RateLimiter :=
  fst (RateLimiter.check_rate_limit
         (RateLimiter.add_rule "room_message"
            (RateLimiter.new_rule 1 60 RateLimiter.SLIDING_WINDOW None None)
            RateLimiter.new_limiter)
         (RateLimiter.mkRequest "10.0.0.1") "room_message" (RateLimiterSpec.steady 99)).

Definition alice_throttled : World := with_limiter throttled alice_in_lobby.

(** The registry after a close, with everything else as it was. *)
Definition closed_connection_is_unregistered (connection_id : string) (w w' : World) : Prop :=
  get_connection connection_id (auth w') = None /\
  (forall wallet c,
     c ∈ get_connections_by_wallet wallet (auth w') ->
     exists other, other <> connection_id /\
                   authenticated_connections (auth w) !! other = Some c /\
                   conn_wallet_address c = wallet) /\
  pubsub w' = pubsub w /\ db w' = db w /\ limiter w' = limiter w /\ effects w' = effects w.

(** The limiter has no part in what the router does with a frame. *)
Definition ignores_rate_limiter (connection_id : string) (message_data : Frame)
    (user_data : UserData) (now : Q) (w : World) : Prop :=
  let w' := handle_websocket_message connection_id message_data user_data now w in
  limiter w' = limiter w /\
  (forall l, handle_websocket_message connection_id message_data user_data now
               (with_limiter l w) = with_limiter l w') /\
  forallb no_retry_after (new_effects w w') = true.

(** The outcome of a join refused at the NFT gate: the heartbeat write,
    then the exception of the reply; nothing is written to a transport and
    nothing else changes. *)
Definition denied_without_reply (wallet : string) (now : Q) (w w' : World) : Prop :=
  w' = raises "NameError" (manager_set_user_heartbeat wallet now w) /\
  sent_frames (new_effects w w') = [] /\
  last (new_effects w w') = Some (ERaise "NameError") /\
  Forall (fun e => e = ESetHeartbeat wallet now \/ e = ERaise "NameError")
         (new_effects w w') /\
  db w' = db w /\ auth w' = auth w /\ limiter w' = limiter w /\
  pubsub w' = PubSub.set_user_heartbeat wallet now (pubsub w) /\
  PubSub.subscriptions (pubsub w') = PubSub.subscriptions (pubsub w).

(** The heartbeat write comes first and keeps the wallet online. *)
Definition heartbeat_refreshed_first (wallet : string) (now : Q) (w w' : World) : Prop :=
  (exists rest, effects w' = effects w ++ ESetHeartbeat wallet now :: rest) /\
  PubSub.get_user_heartbeat wallet now (pubsub w') = Some (PubSub.Iso now) /\
  (forall t, (now <= t)%Q -> (t < now + 60)%Q ->
             wallet ∈ PubSub.get_online_users t (pubsub w')).

(** The call ends with AttributeError and has touched nothing. *)
Definition rejected_before_heartbeat (w w' : World) : Prop :=
  new_effects w w' = [ERaise "AttributeError"] /\
  pubsub w' = pubsub w /\ db w' = db w /\ auth w' = auth w /\ limiter w' = limiter w.

End RouterSpec.

(** ** Fixed windows *)

Module FixedWindowSpec.
Import RateLimiter.

(** The decisions of [n] checks of a window whose counter stands at [c]. *)
Fixpoint count_up (limit c : Z) (n : nat) : list bool :=
  match n with
  | O => []
  | S n => (c + 1 <=? limit)%Z :: count_up limit (c + 1) n
  end.

(** The instant [t] lies in the calendar window [idx] of the rule. *)
Definition in_window (rule : RateLimitRule) (idx : Z) (t : Q) : Prop :=
  Qfloor (t / inject_Z (window_seconds rule)) = idx.

(** The counter of the window stands at [c]: absent for 0, else stored by a
    check inside the window. *)
Definition counter_at (key : string) (rule : RateLimitRule) (idx : Z) (s : Store) (c : Z)
    : Prop :=
  (c = 0%Z /\ counters s !! (key, window_seconds rule, idx) = None) \/
  (exists e t0, counters s !! (key, window_seconds rule, idx) = Some e /\ value e = c /\
                in_window rule idx t0 /\
                expire_at e = (t0 + inject_Z (window_seconds rule))%Q).

End FixedWindowSpec.

(** ** Runs of checks *)

Module RetrySpec.
Import RateLimiter.

(** The store a run of checks leaves ([s] itself when a check raises). *)
Definition store_after
    (check : string -> RateLimitRule -> Q -> Store -> option (Store * (bool * Info)))
    (key : string) (rule : RateLimitRule) (times : list Q) (s : Store) : Store :=
  match replay check key rule times s with
  | Some (s', _) => s'
  | None => s
  end.

End RetrySpec.

(** ** Message cache and channels *)

Module CacheSpec.
Import PubSub.

(** The messages of [items] stored one after the other, each at its instant. *)
Fixpoint store_all {Callback : Type} (room_id : string) (ttl : Z)
    (items : list (Json * Q)) (m : RedisPubSubManager Callback)
    : RedisPubSubManager Callback :=
  match items with
  | [] => m
  | (message, t) :: rest =>
      store_all room_id ttl rest (store_message_cache room_id message ttl t m)
  end.

(** Each store comes before the list written by the store before it runs out,
    and so does the read at [t]. *)
Fixpoint kept_alive (ttl : Z) (times : list Q) (t : Q) : Prop :=
  match times with
  | [] => True
  | t0 :: rest =>
      match rest with
      | [] => (t < t0 + inject_Z ttl)%Q
      | t1 :: _ => (t1 < t0 + inject_Z ttl)%Q /\ kept_alive ttl rest t
      end
  end.

(** The instant of the first store of [items], or [t] when there is none. *)
Definition next_time (items : list (Json * Q)) (t : Q) : Q :=
  match items with
  | [] => t
  | (_, t0) :: _ => t0
  end.

(** What subscribing and unsubscribing do to the fan-out of a channel. *)
Definition subscription_life {Callback Env : Type}
    (invoke : Callback -> string -> Json -> Env -> Env * option string)
    (m : RedisPubSubManager Callback) (channel : string) (callback : Callback) : Prop :=
  exists m1,
    subscribe_to_channel channel callback m = Some m1 /\
    (forall other, other <> channel -> subscriptions m1 !! other = subscriptions m !! other) /\
    (forall message data env,
       msg_type message = "message" -> msg_data message = Some data ->
       msg_channel message = channel ->
       (exists env' log,
          on_message invoke message m1 env = Some (m1, env', log) /\
          inv_callback <$> log = default [] (subscriptions m !! channel) ++ [callback]) /\
       on_message invoke message (unsubscribe_from_channel channel m1) env
       = Some (unsubscribe_from_channel channel m1, env, [])) /\
    (forall other, other <> channel ->
       subscriptions (unsubscribe_from_channel channel m1) !! other
       = subscriptions m !! other).

End CacheSpec.

(** ** The heartbeat sweep *)

Module SweepSpec.
Import PubSub.

(** The key is visible at [t] and holds an instant older than the threshold. *)
Definition stale (t : Q) (h : gmap string (Expiring IsoString)) (k : string) : bool :=
  match read t h k with
  | Some (Iso heartbeat_time) => Qlt_bool offline_after (t - heartbeat_time)
  | _ => false
  end.

(** The key is visible at [t] and holds a string that is not an instant. *)
Definition unreadable (t : Q) (h : gmap string (Expiring IsoString)) (k : string) : bool :=
  match read t h k with
  | Some Malformed => true
  | _ => false
  end.

(** The status message of an offline wallet. *)
Definition offline_notice (t : Q) (wallet_address : string) : string * Json :=
  ("user_status",
   JObj [("type", JStr "user_status"); ("wallet_address", JStr wallet_address);
         ("data", JObj [("is_online", JBool false); ("last_seen", JTime t)]);
         ("timestamp", JTime t)]).

(** The key is visible at [t] and holds an instant with a UTC offset. *)
Definition offset_aware (t : Q) (h : gmap string (Expiring IsoString)) (k : string) : bool :=
  match read t h k with
  | Some (Aware _) => true
  | _ => false
  end.

(** The keys the scan looks at: those before the first one that holds an
    instant with an offset. *)
Fixpoint scanned (t : Q) (h : gmap string (Expiring IsoString)) (keys : list string)
    : list string :=
  match keys with
  | [] => []
  | k :: rest => if offset_aware t h k then [] else k :: scanned t h rest
  end.

(** No key holds an instant with an offset. *)
Definition all_naive (t : Q) (h : gmap string (Expiring IsoString)) (keys : list string)
    : bool :=
  forallb (fun k => negb (offset_aware t h k)) keys.

(** What a full round of the monitor does to a connected manager, when KEYS
    returned [keys]: the stale and the unreadable keys are deleted, one
    offline status per stale key is published, in the order of [keys], and
    what is left visible is empty or at most two minutes old. *)
Definition sweep_outcome {Callback : Type} (keys : list string) (t : Q)
    (m m' : RedisPubSubManager Callback) : Prop :=
  (forall k, heartbeats m' !! k
             = if stale t (heartbeats m) k || unreadable t (heartbeats m) k
               then None else heartbeats m !! k) /\
  published m'
  = published m ++ (offline_notice t <$> List.filter (stale t (heartbeats m)) keys) /\
  (forall k v, read t (heartbeats m') k = Some v ->
               v = Empty \/
               exists heartbeat_time, v = Iso heartbeat_time /\
                                      (t - heartbeat_time <= offline_after)%Q) /\
  subscriptions m' = subscriptions m /\ recent_messages m' = recent_messages m.

(** What a round that ends in the scan does, when KEYS returned [keys]:
    nothing is published, not even for the stale keys already deleted; the
    stale and the unreadable keys among those scanned are deleted, and every
    other key is as it was. *)
Definition sweep_cut_short {Callback : Type} (keys : list string) (t : Q)
    (m m' : RedisPubSubManager Callback) : Prop :=
  published m' = published m /\
  (forall k, heartbeats m' !! k
             = if bool_decide (k ∈ scanned t (heartbeats m) keys) &&
                  (stale t (heartbeats m) k || unreadable t (heartbeats m) k)
               then None else heartbeats m !! k) /\
  subscriptions m' = subscriptions m /\ recent_messages m' = recent_messages m.

(** Five heartbeat keys, all visible at 1150: one stale, one fresh, one
    empty, one that is no instant, and one stale again. *)
Definition five_keys : gmap string (Expiring IsoString) :=
  {["walletA" := mkExpiring (Iso 1000) 2000; "walletB" := mkExpiring (Iso 1100) 2000;
    "walletC" := mkExpiring Empty 2000; "walletD" := mkExpiring Malformed 2000;
    "walletE" := mkExpiring (Iso 900) 2000]}.

End SweepSpec.

(** ** Handshake *)

Module HandshakeSpec.
Import WsAuth.

(** The verifier of the examples: one valid token, of a wallet without
    recorded holdings. *)
Definition only_good_token (token : Json) : option UserData :=
  match token with
  | JStr "good" => Some (mkUserData "walletA" None None)
  | _ => None
  end.

End HandshakeSpec.

(** ** Sessions *)

Module SessionSpec.
Import WsAuth Models Router.
Local Open Scope Z_scope.

(** A step that stored no room message, published nothing and cached
    nothing. *)
Definition stores_nothing (w w' : World) : Prop :=
  chat_messages (db w') = chat_messages (db w) /\
  PubSub.published (pubsub w') = PubSub.published (pubsub w) /\
  PubSub.recent_messages (pubsub w') = PubSub.recent_messages (pubsub w).

(** The frame of a room message as it is cached and published. *)
Definition room_frame (row : ChatMessage) : Json :=
  JObj [("type", JStr "room_message"); ("message_id", JInt (message_id row));
        ("room_id", JInt (message_room_id row)); ("wallet_address", JStr (sender_wallet row));
        ("message", JStr (content row)); ("timestamp", JTime (created_at row))].

(** The frame of a private message as the connections of the target get it. *)
Definition private_frame (row : PrivateMessage) : Json :=
  JObj [("type", JStr "private_message"); ("message_id", JInt (pm_id row));
        ("from_wallet", JStr (pm_sender_wallet row)); ("message", JStr (pm_content row));
        ("timestamp", JTime (pm_created_at row))].

(** The member row after one more message at [now]. *)
Definition after_message (now : Q) (m : RoomMember) : RoomMember :=
  mkRoomMember (member_room_id m) (member_wallet m) (role m) (can_send_messages m)
               (message_count m + 1) (Some now).

End SessionSpec.

(** * Properties *)

(** ** Comparisons and expiry *)

Lemma Qlt_bool_iff a b : Qlt_bool a b = true <-> (a < b)%Q.
Proof.
  unfold Qlt_bool. rewrite negb_true_iff. split; intros H.
  - apply Qnot_le_lt. intros Hle. apply Qle_bool_iff in Hle. congruence.
  - destruct (Qle_bool b a) eqn:E; [|reflexivity].
    apply Qle_bool_iff in E. exfalso. apply (Qlt_not_le _ _ H E).
Qed.

Lemma Qlt_bool_false a b : Qlt_bool a b = false <-> (b <= a)%Q.
Proof.
  unfold Qlt_bool. rewrite negb_false_iff. apply Qle_bool_iff.
Qed.

Lemma Qle_bool_false a b : Qle_bool a b = false <-> (b < a)%Q.
Proof.
  split; intros H.
  - apply Qnot_le_lt. intros Hle. apply Qle_bool_iff in Hle. congruence.
  - destruct (Qle_bool a b) eqn:E; [|reflexivity].
    apply Qle_bool_iff in E. exfalso. apply (Qlt_not_le _ _ H E).
Qed.

Lemma read_live {K A} `{Countable K} (now : Q) (m : gmap K (Expiring A)) k e :
  m !! k = Some e -> (now < expire_at e)%Q -> read now m k = Some (value e).
Proof.
  intros Hk Hlt. unfold read, live. rewrite Hk.
  apply Qlt_bool_iff in Hlt. by rewrite Hlt.
Qed.

Lemma read_insert_live {K A} `{Countable K} (now : Q) (m : gmap K (Expiring A)) k v ex :
  (now < ex)%Q -> read now (<[k := mkExpiring v ex]> m) k = Some v.
Proof.
  intros Hlt. by rewrite (read_live now _ k (mkExpiring v ex) (lookup_insert_eq _ _ _) Hlt).
Qed.

Lemma read_Some {K A} `{Countable K} (now : Q) (m : gmap K (Expiring A)) k v :
  read now m k = Some v ->
  exists e, m !! k = Some e /\ value e = v /\ (now < expire_at e)%Q.
Proof.
  unfold read, live. destruct (m !! k) as [e|]; [|discriminate].
  destruct (Qlt_bool now (expire_at e)) eqn:E; [|discriminate].
  intros [= <-]. exists e. split; [done|]. split; [done|]. by apply Qlt_bool_iff.
Qed.

(** ** Python floats *)

(** [fl] on the numbers used below agrees with the division, the
    multiplication and the subtraction of the Standard Library's
    specification of IEEE 754 binary64. *)
Example fl_agrees_with_binary64 :
  Float64.fl (1 # 49) = Float64.SF2Q (SFdiv 53 1024 (Float64.SF_of_Z 1) (Float64.SF_of_Z 49)) /\
  Float64.fl (49 * Float64.fl (1 # 49))
  = Float64.SF2Q (SFmul 53 1024 (Float64.SF_of_Z 49)
                    (SFdiv 53 1024 (Float64.SF_of_Z 1) (Float64.SF_of_Z 49))) /\
  Float64.fl (1001 # 10)
  = Float64.SF2Q (SFdiv 53 1024 (Float64.SF_of_Z 1001) (Float64.SF_of_Z 10)) /\
  Float64.fl (Float64.fl (1001 # 10) - 100)
  = Float64.SF2Q (SFsub 53 1024
                    (SFdiv 53 1024 (Float64.SF_of_Z 1001) (Float64.SF_of_Z 10))
                    (Float64.SF_of_Z 100)).
Proof. vm_compute. repeat split. Qed.

Module Float64Props.
Import Float64.

Lemma two_neq_0 : ~ (2 == 0)%Q.
Proof. discriminate. Qed.

Lemma pow2_pos z : (0 < 2 ^ z)%Q.
Proof. apply Qpower_0_lt. reflexivity. Qed.

Lemma pow2_succ z : (2 ^ (z + 1) == 2 * 2 ^ z)%Q.
Proof. rewrite Qpower_plus by apply two_neq_0. rewrite Qpower_1_r. ring. Qed.

Lemma pow2_inject z : (0 <= z)%Z -> (inject_Z (2 ^ z) == 2 ^ z)%Q.
Proof. intros Hz. by apply Zpower_Qpower. Qed.

Lemma pow2_minus a b : (2 ^ (a - b) == 2 ^ a / 2 ^ b)%Q.
Proof. apply Qpower_minus, two_neq_0. Qed.

Lemma pow2_plus a b : (2 ^ (a + b) == 2 ^ a * 2 ^ b)%Q.
Proof. apply Qpower_plus, two_neq_0. Qed.

Lemma pow2_le a b : (a <= b)%Z -> (2 ^ a <= 2 ^ b)%Q.
Proof. intros H. apply Qpower_le_compat_l; [exact H|]. discriminate. Qed.

Lemma pow2_lt_inv a b : (2 ^ a < 2 ^ b)%Q -> (a < b)%Z.
Proof. intros H. apply (Qpower_lt_compat_l_inv 2); [exact H|reflexivity]. Qed.

Lemma mag_bounds q :
  ~ (q == 0)%Q -> (2 ^ mag q <= Qabs q)%Q /\ (Qabs q < 2 ^ (mag q + 1))%Q.
Proof.
  intros Hq. destruct q as [n d].
  assert (Hn : n <> 0%Z).
  { intros ->. apply Hq. reflexivity. }
  unfold mag. cbn [Qnum Qden].
  set (a := Z.log2 (Z.abs n)). set (b := Z.log2 (Zpos d)).
  assert (Ha : (2 ^ a <= Z.abs n < 2 ^ (a + 1))%Z).
  { apply Z.log2_spec. lia. }
  assert (Hb : (2 ^ b <= Zpos d < 2 ^ (b + 1))%Z).
  { apply Z.log2_spec. lia. }
  assert (Ha0 : (0 <= a)%Z) by apply Z.log2_nonneg.
  assert (Hb0 : (0 <= b)%Z) by apply Z.log2_nonneg.
  assert (Habs : (Qabs (n # d) == inject_Z (Z.abs n) / inject_Z (Zpos d))%Q).
  { change (Qabs (n # d)) with (Z.abs n # d). apply Qmake_Qdiv. }
  set (N := inject_Z (Z.abs n)) in *. set (D := inject_Z (Zpos d)) in *.
  assert (HN : (2 ^ a <= N)%Q /\ (N < 2 * 2 ^ a)%Q).
  { rewrite <- pow2_succ, <- !pow2_inject by lia. unfold N.
    rewrite <- Zle_Qle, <- Zlt_Qlt. exact Ha. }
  assert (HD : (2 ^ b <= D)%Q /\ (D < 2 * 2 ^ b)%Q).
  { rewrite <- pow2_succ, <- !pow2_inject by lia. unfold D.
    rewrite <- Zle_Qle, <- Zlt_Qlt. exact Hb. }
  pose proof (pow2_pos a) as Hpa. pose proof (pow2_pos b) as Hpb.
  assert (HD0 : (0 < D)%Q) by lra.
  assert (Hupper : (Qabs (n # d) < 2 ^ (a - b + 1))%Q).
  { rewrite Habs, pow2_succ, pow2_minus.
    apply Qlt_shift_div_r; [exact HD0|].
    assert (Heq : (2 * (2 ^ a / 2 ^ b) * D == (2 * 2 ^ a) * (D / 2 ^ b))%Q)
      by (field; lra).
    rewrite Heq.
    assert (H1 : (1 <= D / 2 ^ b)%Q) by (apply Qle_shift_div_l; lra).
    nra. }
  assert (Hlower : (2 ^ (a - b - 1) < Qabs (n # d))%Q).
  { rewrite Habs. apply Qlt_shift_div_l; [exact HD0|].
    replace (a - b - 1)%Z with (a - (b + 1))%Z by lia.
    rewrite pow2_minus, pow2_succ.
    assert (Heq : (2 ^ a / (2 * 2 ^ b) * D == 2 ^ a * (D / (2 * 2 ^ b)))%Q)
      by (field; lra).
    rewrite Heq.
    assert (H1 : (D / (2 * 2 ^ b) < 1)%Q) by (apply Qlt_shift_div_r; lra).
    nra. }
  destruct (Qle_bool (2 ^ (a - b)) (Qabs (n # d))) eqn:E.
  - apply Qle_bool_iff in E. split; [exact E|exact Hupper].
  - split; [apply Qlt_le_weak, Hlower|].
    replace (a - b - 1 + 1)%Z with (a - b)%Z by lia.
    apply Qnot_le_lt. intros H. apply Qle_bool_iff in H. congruence.
Qed.

Lemma round_half_even_comp q1 q2 :
  (q1 == q2)%Q -> round_half_even q1 = round_half_even q2.
Proof.
  intros H. unfold round_half_even.
  assert (Hf : Qfloor q1 = Qfloor q2) by (by rewrite H).
  assert (Hc : (q1 - inject_Z (Qfloor q1) ?= 1 # 2)%Q
               = (q2 - inject_Z (Qfloor q2) ?= 1 # 2)%Q).
  { rewrite Hf. apply Qcompare_comp; [by rewrite H|reflexivity]. }
  by rewrite Hc, Hf.
Qed.

Lemma round_half_even_inject z : round_half_even (inject_Z z) = z.
Proof.
  unfold round_half_even. rewrite Qfloor_Z.
  assert (Hc : (inject_Z z - inject_Z z ?= 1 # 2)%Q = Lt).
  { apply (proj1 (Qlt_alt _ _)). ring_simplify (inject_Z z - inject_Z z)%Q. reflexivity. }
  by rewrite Hc.
Qed.

Lemma round_half_even_bound y N :
  (Qabs y <= inject_Z N)%Q -> (Z.abs (round_half_even y) <= N)%Z.
Proof.
  intros Hy. apply Qabs_Qle_condition in Hy as [Hlo Hhi].
  assert (Hf1 : (- N <= Qfloor y)%Z).
  { rewrite <- (Qfloor_Z (- N)). apply Qfloor_resp_le.
    rewrite inject_Z_opp. exact Hlo. }
  assert (Hf2 : (Qfloor y <= N)%Z).
  { rewrite <- (Qfloor_Z N). by apply Qfloor_resp_le. }
  assert (Hup : (0 < y - inject_Z (Qfloor y))%Q -> (Qfloor y + 1 <= N)%Z).
  { intros Hpos. destruct (Z.eq_dec (Qfloor y) N) as [E|E]; [|lia].
    rewrite E in Hpos. lra. }
  unfold round_half_even.
  destruct (Qcompare_spec (y - inject_Z (Qfloor y)) (1 # 2)) as [E|E|E].
  - destruct (Z.even (Qfloor y)); [lia|].
    assert (Qfloor y + 1 <= N)%Z by (apply Hup; rewrite E; reflexivity). lia.
  - lia.
  - assert (Qfloor y + 1 <= N)%Z by (apply Hup; lra). lia.
Qed.

Lemma Qred_zero q : (q == 0)%Q -> Qred q = 0%Q.
Proof. intros H. by apply (Qred_complete q 0). Qed.

Lemma inject_Z_neq_0 n : n <> 0%Z -> ~ (inject_Z n == 0)%Q.
Proof. intros Hn H. apply Hn. unfold Qeq in H. cbn in H. lia. Qed.

Lemma Qabs_inject_Z n : Qabs (inject_Z n) = inject_Z (Z.abs n).
Proof. reflexivity. Qed.

(** A value that fits the 53 bits of the significand is not rounded. *)
Lemma fl_exact q n e :
  (q == inject_Z n * 2 ^ e)%Q -> n <> 0%Z -> (Z.abs n < 2 ^ 53)%Z -> (-1074 <= e)%Z ->
  fl q = Qred q.
Proof.
  intros Hq Hn Hn53 He.
  pose proof (pow2_pos e) as Hpe.
  assert (Hq0 : ~ (q == 0)%Q).
  { rewrite Hq. intros H0. apply Qmult_integral in H0 as [H0|H0]; [|lra].
    by apply (inject_Z_neq_0 n). }
  destruct (mag_bounds q Hq0) as [Hlo _].
  assert (Habs : (Qabs q == inject_Z (Z.abs n) * 2 ^ e)%Q).
  { rewrite Hq, Qabs_Qmult, Qabs_inject_Z. rewrite (Qabs_pos (2 ^ e)); [reflexivity|lra]. }
  assert (Hmag : (mag q - 52 <= e)%Z).
  { assert (H : (2 ^ mag q < 2 ^ (53 + e))%Q).
    { eapply Qle_lt_trans; [exact Hlo|]. rewrite Habs, pow2_plus.
      apply Qmult_lt_compat_r; [exact Hpe|].
      rewrite <- pow2_inject by lia. by rewrite <- Zlt_Qlt. }
    apply pow2_lt_inv in H. lia. }
  unfold fl.
  assert (E : Qeq_bool q 0 = false).
  { destruct (Qeq_bool q 0) eqn:E; [|done]. apply Qeq_bool_iff in E. done. }
  rewrite E. unfold ulp_exp.
  set (ue := Z.max (mag q - 52) (-1074)).
  assert (Hue : (ue <= e)%Z) by lia.
  pose proof (pow2_pos ue) as Hpu.
  assert (Hdiv : (q / 2 ^ ue == inject_Z (n * 2 ^ (e - ue)))%Q).
  { rewrite inject_Z_mult, pow2_inject by lia. rewrite Hq, pow2_minus. field. lra. }
  rewrite (round_half_even_comp _ _ Hdiv), round_half_even_inject.
  apply Qred_complete. rewrite <- Hdiv. field. lra.
Qed.

Lemma abs_two_53 n :
  Z.abs n = (2 ^ 53)%Z ->
  n = (n / 2 * 2)%Z /\ (n / 2)%Z <> 0%Z /\ (Z.abs (n / 2) < 2 ^ 53)%Z.
Proof.
  change (2 ^ 53)%Z with 9007199254740992%Z. intros H.
  assert (Hn : n = 9007199254740992%Z \/ n = (-9007199254740992)%Z) by lia.
  destruct Hn as [->| ->]; repeat split; done.
Qed.

Lemma Qred_Qred q : Qred (Qred q) = Qred q.
Proof. apply Qred_complete, Qred_correct. Qed.

Lemma fl_zero q : (q == 0)%Q -> fl q = 0%Q.
Proof. intros H. unfold fl. apply Qeq_bool_iff in H. by rewrite H. Qed.

(** An integer of at most 53 bits is a double. *)
Lemma fl_integer_red q z :
  (q == inject_Z z)%Q -> (Z.abs z <= 2 ^ 53)%Z -> fl q = Qred q.
Proof.
  intros Hq Hz.
  destruct (Z.eq_dec z 0%Z) as [->|Hz0].
  { rewrite (fl_zero q) by exact Hq. symmetry. by apply Qred_zero. }
  destruct (Z.eq_dec (Z.abs z) (2 ^ 53)%Z) as [Hmax|Hlt].
  - apply (fl_exact q (z / 2) 1).
    + rewrite Hq. change (2 ^ 1)%Q with (inject_Z 2). rewrite <- inject_Z_mult.
      apply (proj2 (inject_Z_injective _ _)). apply (abs_two_53 z Hmax).
    + apply (abs_two_53 z Hmax).
    + apply (abs_two_53 z Hmax).
    + lia.
  - apply (fl_exact q z 0).
    + rewrite Hq. change (2 ^ 0)%Q with 1%Q. ring.
    + exact Hz0.
    + lia.
    + lia.
Qed.

Lemma fl_integer q z :
  (q == inject_Z z)%Q -> (Z.abs z <= 2 ^ 53)%Z -> (fl q == q)%Q.
Proof. intros Hq Hz. rewrite (fl_integer_red q z Hq Hz). apply Qred_correct. Qed.

Lemma Qred_inject_Z z : Qred (inject_Z z) = inject_Z z.
Proof.
  unfold Qred, inject_Z.
  pose proof (Z.ggcd_gcd z 1) as Hg. pose proof (Z.ggcd_correct_divisors z 1) as Hd.
  destruct (Z.ggcd z 1) as [g [n d]]. cbn in Hg, Hd. rewrite Z.gcd_1_r in Hg. subst g.
  destruct Hd as [Hn Hd]. f_equal; [lia|]. replace d with 1%Z by lia. reflexivity.
Qed.

Lemma fl_inject_Z z : (Z.abs z <= 2 ^ 53)%Z -> fl (inject_Z z) = inject_Z z.
Proof.
  intros Hz. rewrite (fl_integer_red (inject_Z z) z); [|reflexivity|exact Hz].
  apply Qred_inject_Z.
Qed.

(** Rounding a double gives the double. *)
Lemma fl_idempotent q : fl (fl q) = fl q.
Proof.
  destruct (Qeq_dec q 0) as [Hq0|Hq0].
  { rewrite (fl_zero q Hq0). by apply fl_zero. }
  assert (E : Qeq_bool q 0 = false).
  { destruct (Qeq_bool q 0) eqn:E; [|done]. apply Qeq_bool_iff in E. done. }
  unfold fl at 2 3. rewrite E. unfold ulp_exp.
  destruct (mag_bounds q Hq0) as [_ Hhi].
  set (ue := Z.max (mag q - 52) (-1074)).
  pose proof (pow2_pos ue) as Hpu.
  set (n := round_half_even (q / 2 ^ ue)).
  assert (Hn : (Z.abs n <= 2 ^ 53)%Z).
  { apply round_half_even_bound. unfold Qdiv. rewrite Qabs_Qmult, Qabs_Qinv.
    rewrite (Qabs_pos (2 ^ ue)) by lra.
    apply Qle_shift_div_r; [exact Hpu|].
    rewrite pow2_inject by lia. rewrite <- pow2_plus.
    apply Qlt_le_weak. eapply Qlt_le_trans; [exact Hhi|]. apply pow2_le. lia. }
  set (r := Qred (inject_Z n * 2 ^ ue)).
  assert (Hr : (r == inject_Z n * 2 ^ ue)%Q) by apply Qred_correct.
  destruct (Z.eq_dec n 0%Z) as [Hn0|Hn0].
  { assert (Hr0 : r = 0%Q) by (apply Qred_zero; rewrite Hn0; ring).
    rewrite Hr0. reflexivity. }
  destruct (Z.eq_dec (Z.abs n) (2 ^ 53)%Z) as [Hmax|Hlt].
  - rewrite (fl_exact r (n / 2) (ue + 1)); [apply Qred_Qred| | | |].
    + rewrite Hr, pow2_succ.
      assert (H2 : (inject_Z n == inject_Z (n / 2) * 2)%Q).
      { change 2%Q with (inject_Z 2). rewrite <- inject_Z_mult.
        apply (proj2 (inject_Z_injective _ _)). apply (abs_two_53 n Hmax). }
      rewrite H2. ring.
    + apply (abs_two_53 n Hmax).
    + apply (abs_two_53 n Hmax).
    + unfold ue; lia.
  - rewrite (fl_exact r n ue); [apply Qred_Qred|exact Hr|exact Hn0|lia|unfold ue; lia].
Qed.

Lemma fl_idempotent_eq q : (fl (fl q) == fl q)%Q.
Proof. by rewrite fl_idempotent. Qed.

End Float64Props.

(** ** Runs of checks *)

Module TokenBucketProps.
Import RateLimiter RateLimiterSpec.

Section OneKey.
Variable key : string.
Variable rule : RateLimitRule.

Lemma replay_app check times1 : forall times2 s s1 oks1,
  replay check key rule times1 s = Some (s1, oks1) ->
  replay check key rule (times1 ++ times2) s =
    match replay check key rule times2 s1 with
    | Some (s2, oks2) => Some (s2, oks1 ++ oks2)
    | None => None
    end.
Proof.
  induction times1 as [|t ts IH]; intros times2 s s1 oks1 Hrun.
  - cbn in Hrun. injection Hrun as <- <-. cbn.
    destruct (replay check key rule times2 s) as [[s2 oks2]|]; reflexivity.
  - cbn in Hrun |- *. destruct (check key rule t s) as [[sa [ok info]]|]; [|discriminate].
    destruct (replay check key rule ts sa) as [[sb oksb]|] eqn:E; [|discriminate].
    injection Hrun as <- <-. rewrite (IH times2 sa sb oksb E).
    destruct (replay check key rule times2 sb) as [[s2 oks2]|]; reflexivity.
Qed.

(** ** A burst at one instant *)

Variable now : Q.
Hypothesis burst_fits : (1 <= burst_limit rule <= 2 ^ 53)%Z.
Hypothesis window_positive : (1 <= window rule)%Z.
Hypothesis limit_not_zero : limit rule <> 0%Z.

Local Abbreviation holds := (bucket_holds key now).

Lemma bucket_written tk s m :
  (tk == inject_Z m)%Q ->
  holds m (mkStore (zsets s)
             (<[key +:+ ":bucket" := mkExpiring (mkBucket tk now)
                                       (now + inject_Z (window rule * 2))%Q]> (buckets s))
             (counters s)).
Proof.
  intros Hm. exists (mkBucket tk now). split; [|by split].
  cbn [buckets]. apply read_insert_live.
  assert (H : (0 < inject_Z (window rule * 2))%Q).
  { change 0%Q with (inject_Z 0). rewrite <- Zlt_Qlt. lia. }
  lra.
Qed.

(** The first check of the key takes one token of the full bucket. *)
Lemma first_check s :
  read now (buckets s) (key +:+ ":bucket") = None ->
  exists s1 info,
    _check_token_bucket key rule now s = Some (s1, (true, info)) /\
    holds (burst_limit rule - 1) s1.
Proof.
  intros Hnone. unfold _check_token_bucket. cbv zeta. rewrite Hnone.
  assert (Hm : (inject_Z (burst_limit rule) - 1 == inject_Z (burst_limit rule - 1))%Q).
  { unfold Z.sub. rewrite inject_Z_plus, inject_Z_opp. reflexivity. }
  assert (Hok : Qle_bool 0 (inject_Z (burst_limit rule) - 1) = true).
  { apply Qle_bool_iff. rewrite Hm. change 0%Q with (inject_Z 0). rewrite <- Zle_Qle. lia. }
  rewrite Hok. eexists _, _. split; [reflexivity|].
  by apply bucket_written.
Qed.

(** A check at the instant of the last one finds no refill: it takes a token
    when there is one and is denied when there is none. *)
Lemma check_again m s :
  (0 <= m < burst_limit rule)%Z -> holds m s ->
  (1 <= m)%Z /\ (exists s1 info, _check_token_bucket key rule now s = Some (s1, (true, info))
                                  /\ holds (m - 1) s1) \/
  m = 0%Z /\ exists info, _check_token_bucket key rule now s = Some (s, (false, info)).
Proof.
  intros Hm (b & Hread & Htb & Hlast).
  unfold _check_token_bucket. cbv zeta. rewrite Hread, Hlast.
  assert (Hw0 : (window rule =? 0)%Z = false) by (apply Z.eqb_neq; lia).
  assert (Hl0 : (limit rule =? 0)%Z = false) by (by apply Z.eqb_neq).
  rewrite Hw0, Hl0. cbn [orb].
  assert (E1 : Float64.fl (Float64.fl now - Float64.fl now) = 0%Q)
    by (apply Float64Props.fl_zero; ring).
  rewrite E1.
  assert (E2 : Float64.fl (0 * Float64.fl (inject_Z (limit rule) / inject_Z (window rule)))
               = 0%Q) by (apply Float64Props.fl_zero; ring).
  rewrite E2.
  set (T := Float64.fl (Float64.fl (tokens b) + 0)).
  assert (HT : (T == inject_Z m)%Q).
  { assert (H1 : (Float64.fl (tokens b) + 0 == inject_Z m)%Q).
    { rewrite (Float64Props.fl_integer (tokens b) m Htb) by lia. rewrite Htb. ring. }
    unfold T. rewrite (Float64Props.fl_integer _ m H1) by lia. exact H1. }
  assert (Hlt : Qlt_bool T (inject_Z (burst_limit rule)) = true).
  { apply Qlt_bool_iff. rewrite HT, <- Zlt_Qlt. lia. }
  rewrite Hlt.
  set (T' := Float64.fl (T - 1)).
  assert (HT' : (T' == inject_Z (m - 1))%Q).
  { assert (H1 : (T - 1 == inject_Z (m - 1))%Q).
    { rewrite HT. unfold Z.sub. rewrite inject_Z_plus, inject_Z_opp. reflexivity. }
    unfold T'. rewrite (Float64Props.fl_integer _ (m - 1) H1) by lia. exact H1. }
  destruct (Z.eq_dec m 0%Z) as [->|Hm0].
  - right. split; [reflexivity|].
    assert (Hno : Qle_bool 0 T' = false).
    { destruct (Qle_bool 0 T') eqn:E; [|reflexivity]. apply Qle_bool_iff in E.
      rewrite HT' in E. unfold Qle in E. cbn in E. lia. }
    rewrite Hno. eexists. reflexivity.
  - left. split; [lia|].
    assert (Hok : Qle_bool 0 T' = true).
    { apply Qle_bool_iff. rewrite HT'. change 0%Q with (inject_Z 0). rewrite <- Zle_Qle. lia. }
    rewrite Hok. eexists _, _. split; [reflexivity|].
    by apply bucket_written.
Qed.

(** With [m] tokens in the bucket, [m] checks at the instant are allowed and
    the one after them is denied. *)
Lemma burst_run (n : nat) : forall s,
  (Z.of_nat n < burst_limit rule)%Z -> holds (Z.of_nat n) s ->
  exists s', replay _check_token_bucket key rule (repeat now (S n)) s
             = Some (s', repeat true n ++ [false]).
Proof.
  induction n as [|n IH]; intros s Hn Hholds.
  - destruct (check_again 0 s) as [[Hm _]|[_ (info & Hchk)]]; [lia|exact Hholds|lia|].
    exists s. cbn. by rewrite Hchk.
  - destruct (check_again (Z.of_nat (S n)) s)
      as [[_ (s1 & info & Hchk & Hholds1)]|[Hm _]]; [lia|exact Hholds| |lia].
    replace (Z.of_nat (S n) - 1)%Z with (Z.of_nat n) in Hholds1 by lia.
    destruct (IH s1) as (s' & Hrun); [lia|exact Hholds1|].
    exists s'. cbn [repeat replay app]. rewrite Hchk.
    cbn [repeat replay] in Hrun. by rewrite Hrun.
Qed.

(** On a key without a bucket, [burst_limit] checks at one instant are
    allowed and the check after them, at the same instant, is denied. *)
Lemma burst_at_one_instant s :
  read now (buckets s) (key +:+ ":bucket") = None ->
  exists s', replay _check_token_bucket key rule
               (repeat now (S (Z.to_nat (burst_limit rule)))) s
             = Some (s', repeat true (Z.to_nat (burst_limit rule)) ++ [false]).
Proof.
  intros Hnone. destruct (first_check s Hnone) as (s1 & info & Hchk & Hholds).
  destruct (Z.to_nat (burst_limit rule)) as [|n] eqn:Hn; [lia|].
  replace (burst_limit rule - 1)%Z with (Z.of_nat n) in Hholds by lia.
  destruct (burst_run n s1) as (s' & Hrun); [lia|exact Hholds|].
  exists s'. cbn [repeat replay app]. rewrite Hchk.
  cbn [repeat replay] in Hrun. by rewrite Hrun.
Qed.

End OneKey.

End TokenBucketProps.

(** ** Token bucket *)

(** C6.  The burst is as claimed: for a burst limit from 1 to 2^53, a window
    of at least one second and a limit other than 0, on a key without a
    bucket, [burst_limit] checks at one instant are all allowed and the check
    right after them is denied.  The refill is not: it falls short by
    rounding.  One request per 49 seconds with a bucket of one token: the
    first check is allowed, the check right after it is denied, and the check
    49 seconds later, when [window / limit] seconds have passed and one token
    is due, is denied as well: in doubles 49 * (1 / 49) is one unit in the
    last place below 1, so the bucket holds less than the token the check
    takes.  Ten requests per second with a bucket of two tokens: the check a
    tenth of a second after the burst is denied in the same way. *)
Theorem token_bucket_refill_falls_short :
  (forall (key : string) (rule : RateLimiter.RateLimitRule) (now : Q)
          (s : RateLimiter.Store),
     (1 <= RateLimiter.burst_limit rule <= 2 ^ 53)%Z ->
     (1 <= RateLimiter.window rule)%Z ->
     RateLimiter.limit rule <> 0%Z ->
     read now (RateLimiter.buckets s) (key +:+ ":bucket") = None ->
     exists s',
       RateLimiter.replay RateLimiter._check_token_bucket key rule
         (repeat now (S (Z.to_nat (RateLimiter.burst_limit rule)))) s
       = Some (s', repeat true (Z.to_nat (RateLimiter.burst_limit rule)) ++ [false])) /\
  (exists s',
     RateLimiter.replay RateLimiter._check_token_bucket "rate_limit:10.0.0.1"
       RateLimiterSpec.one_per_49s [1700000000; 1700000000; 1700000049]%Q
       RateLimiter.empty_store
     = Some (s', [true; false; false])) /\
  Float64.fl (49 * Float64.fl (1 # 49)) = (9007199254740991 # 9007199254740992)%Q /\
  (exists s',
     RateLimiter.replay RateLimiter._check_token_bucket "rate_limit:10.0.0.1"
       RateLimiterSpec.ten_per_second [100; 100; 100; 1001 # 10]%Q
       RateLimiter.empty_store
     = Some (s', [true; true; false; false])).
Proof.
  split; [|split; [|split]].
  - intros key rule now s HB HW HL Hnone.
    by apply TokenBucketProps.burst_at_one_instant.
  - eexists. vm_compute. reflexivity.
  - vm_compute. reflexivity.
  - eexists. vm_compute. reflexivity.
Qed.

(** The burst of the theorem for thirty requests per minute with a bucket of
    three tokens, at the instant 1700000000. *)
Lemma token_bucket_refill_falls_short_witness :
  exists s',
    RateLimiter.replay RateLimiter._check_token_bucket "rate_limit:10.0.0.1"
      (RateLimiter.new_rule 30 60 RateLimiter.TOKEN_BUCKET (Some 3%Z) None)
      [1700000000; 1700000000; 1700000000; 1700000000]%Q RateLimiter.empty_store
    = Some (s', [true; true; true; false]).
Proof.
  apply (proj1 token_bucket_refill_falls_short "rate_limit:10.0.0.1"
           (RateLimiter.new_rule 30 60 RateLimiter.TOKEN_BUCKET (Some 3%Z) None)
           1700000000%Q RateLimiter.empty_store).
  - vm_compute. split; discriminate.
  - vm_compute. discriminate.
  - discriminate.
  - reflexivity.
Defined.

(** Where the rate and the wait are exact in doubles the refill is as the
    documentation has it: two requests per second with a bucket of three
    tokens allow three checks at one instant, deny the fourth, and allow one
    more check half a second later. *)
Example token_bucket_exact_refill :
  exists s',
    RateLimiter.replay RateLimiter._check_token_bucket "rate_limit:10.0.0.1"
      (RateLimiter.new_rule 2 1 RateLimiter.TOKEN_BUCKET (Some 3%Z) None)
      [1700000000; 1700000000; 1700000000; 1700000000; 3400000001 # 2; 3400000001 # 2]%Q
      RateLimiter.empty_store
    = Some (s', [true; true; true; false; true; false]).
Proof. eexists. vm_compute. reflexivity. Qed.

(** ** Sliding window *)

Module SlidingWindowProps.
Import RateLimiter RateLimiterSpec.

Lemma zadd_present x l : existsb (Qeq_bool x) (zadd x l) = true.
Proof.
  unfold zadd. destruct (existsb (Qeq_bool x) l) eqn:E; [exact E|].
  rewrite existsb_app. cbn. rewrite (proj2 (Qeq_bool_iff x x) (Qeq_refl x)).
  by rewrite orb_true_r.
Qed.

(** A check records its instant, with a fresh time-to-live, whatever it
    decides. *)
Lemma sliding_window_records key rule now s :
  exists e, zsets (fst (_check_sliding_window key rule now s)) !! key = Some e /\
            existsb (Qeq_bool now) (value e) = true /\
            expire_at e = (now + inject_Z (window rule))%Q.
Proof.
  unfold _check_sliding_window. cbn. rewrite lookup_insert_eq.
  eexists. split; [reflexivity|]. cbn. split; [apply zadd_present|reflexivity].
Qed.

(** Checks at one instant leave one member in the set, so from the second
    check on the count read is 1. *)
Lemma same_instant_count key rule now s :
  (0 < window rule)%Z ->
  read now (zsets s) key = Some [now] ->
  _check_sliding_window key rule now s
  = (mkStore (<[key := mkExpiring [now] (now + inject_Z (window rule))%Q]> (zsets s))
             (buckets s) (counters s),
     ((1 <? limit rule)%Z,
      {| info_limit := limit rule;
         remaining := Z.max 0 (limit rule - 1 - 1);
         reset_time := Some (now + inject_Z (window rule))%Q;
         retry_after := if (1 <? limit rule)%Z then None else Some (window rule) |})).
Proof.
  intros HW Hread. unfold _check_sliding_window. rewrite Hread.
  change (default [] (Some [now])) with [now].
  assert (Hpurge : zremrangebyscore 0 (now - inject_Z (window rule)) [now] = [now]).
  { unfold zremrangebyscore. cbn.
    assert (Hlt : Qle_bool now (now - inject_Z (window rule)) = false).
    { apply Qle_bool_false.
      assert (0 < inject_Z (window rule))%Q.
      { change 0%Q with (inject_Z 0). by rewrite <- Zlt_Qlt. }
      lra. }
    rewrite Hlt, andb_false_r. reflexivity. }
  rewrite Hpurge.
  assert (Hadd : zadd now [now] = [now]).
  { unfold zadd. cbn. by rewrite (proj2 (Qeq_bool_iff now now) (Qeq_refl now)). }
  rewrite Hadd. reflexivity.
Qed.

(** With a limit of at least 2, any number of checks at one instant on a
    fresh key are all allowed. *)
Lemma same_instant_all_allowed key rule now (n : nat) : forall s,
  (0 < window rule)%Z -> (2 <= limit rule)%Z ->
  read now (zsets s) key = None \/ read now (zsets s) key = Some [now] ->
  exists s', replay sliding_window_check key rule (repeat now n) s
             = Some (s', repeat true n).
Proof.
  induction n as [|n IH]; intros s HW HL Hs.
  - exists s. reflexivity.
  - cbn [repeat replay]. unfold sliding_window_check at 1.
    assert (Hnow : (now < now + inject_Z (window rule))%Q).
    { assert (0 < inject_Z (window rule))%Q.
      { change 0%Q with (inject_Z 0). by rewrite <- Zlt_Qlt. }
      lra. }
    destruct Hs as [Hs|Hs].
    + destruct (_check_sliding_window key rule now s) as [s1 [ok info]] eqn:Hc.
      unfold _check_sliding_window in Hc. rewrite Hs in Hc. cbn in Hc.
      injection Hc as <- <- <-.
      destruct (IH (mkStore (<[key := mkExpiring [now] (now + inject_Z (window rule))%Q]>
                               (zsets s)) (buckets s) (counters s)) HW HL)
        as (s' & Hrun).
      { right. cbn. by apply read_insert_live. }
      rewrite Hrun. exists s'. change (zcard []) with 0%Z.
      replace (0 <? limit rule)%Z with true by (symmetry; apply Z.ltb_lt; lia).
      reflexivity.
    + rewrite (same_instant_count key rule now s HW Hs).
      destruct (IH (mkStore (<[key := mkExpiring [now] (now + inject_Z (window rule))%Q]>
                               (zsets s)) (buckets s) (counters s)) HW HL)
        as (s' & Hrun).
      { right. cbn. by apply read_insert_live. }
      rewrite Hrun. exists s'.
      replace (1 <? limit rule)%Z with true by (symmetry; apply Z.ltb_lt; lia).
      reflexivity.
Qed.

Section History.
Variable key : string.
Variable rule : RateLimitRule.

Let W : Q := inject_Z (window rule).

Local Abbreviation holds_history := (RateLimiterSpec.holds_history key rule).

Lemma purge_positive now l :
  Forall (fun x => (0 < x)%Q) l ->
  zremrangebyscore 0 (now - W) l = List.filter (fun x => Qlt_bool (now - W) x) l.
Proof.
  induction l as [|x l IH]; intros Hpos; [reflexivity|].
  inversion Hpos as [|? ? Hx Hl]; subst. cbn. rewrite <- (IH Hl).
  unfold zremrangebyscore. cbn.
  assert (H0 : Qle_bool 0 x = true) by (apply Qle_bool_iff; lra).
  rewrite H0. cbn [andb]. unfold Qlt_bool. reflexivity.
Qed.

Lemma filter_younger (t now : Q) l :
  (t <= now)%Q ->
  List.filter (fun x => Qlt_bool (now - W) x) (List.filter (fun x => Qlt_bool (t - W) x) l)
  = List.filter (fun x => Qlt_bool (now - W) x) l.
Proof.
  intros Hle. induction l as [|x l IH]; [reflexivity|]. cbn.
  destruct (Qlt_bool (t - W) x) eqn:E1.
  - cbn. by rewrite IH.
  - rewrite IH. apply Qlt_bool_false in E1.
    assert (E2 : Qlt_bool (now - W) x = false) by (apply Qlt_bool_false; lra).
    by rewrite E2.
Qed.

Lemma filter_none (now : Q) l :
  Forall (fun x => (x <= now - W)%Q) l ->
  List.filter (fun x => Qlt_bool (now - W) x) l = [].
Proof.
  induction l as [|x l IH]; intros H; [reflexivity|].
  inversion H as [|? ? Hx Hl]; subst. cbn.
  apply Qlt_bool_false in Hx. rewrite Hx. by apply IH.
Qed.

Lemma zadd_new t l : Forall (fun x => (x < t)%Q) l -> zadd t l = l ++ [t].
Proof.
  intros H. unfold zadd.
  assert (E : existsb (Qeq_bool t) l = false).
  { induction l as [|x l IH]; [reflexivity|]. inversion H as [|? ? Hx Hl]; subst. cbn.
    rewrite (IH Hl), orb_false_r.
    destruct (Qeq_bool t x) eqn:E; [|reflexivity].
    apply Qeq_bool_iff in E. lra. }
  by rewrite E.
Qed.

Lemma Forall_filter_sub {A} (P : A -> Prop) f (l : list A) :
  Forall P l -> Forall P (List.filter f l).
Proof.
  induction l as [|x l IH]; intros H; [constructor|].
  inversion H; subst. cbn. destruct (f x); [constructor|]; auto.
Qed.

(** One check at [t], later than all the history. *)
Lemma check_extends_history s history t :
  holds_history s history ->
  Forall (fun x => (0 < x)%Q) history -> (0 < t)%Q ->
  Forall (fun x => (x < t)%Q) history ->
  exists s' info,
    _check_sliding_window key rule t s
    = (s', ((Z.of_nat (length (counted rule history t)) <? limit rule)%Z, info)) /\
    holds_history s' (history ++ [t]).
Proof.
  intros Hs Hpos Ht Hlt. unfold _check_sliding_window.
  rewrite (Hs t Hlt). fold W. eexists _, _. split; [reflexivity|].
  intros now Hnow. cbn [zsets].
  apply Forall_app in Hnow as [Hnow_h Hnow_t].
  inversion Hnow_t as [|? ? Htn _]; subst.
  assert (Hc_lt : Forall (fun x => (x < t)%Q) (counted rule history t))
    by (by apply Forall_filter_sub).
  assert (Hc_pos : Forall (fun x => (0 < x)%Q) (counted rule history t))
    by (by apply Forall_filter_sub).
  rewrite (zadd_new t _ Hc_lt).
  unfold counted at 2. rewrite List.filter_app. fold W. cbn [List.filter].
  destruct (Qlt_bool now (t + W)) eqn:Elive.
  - unfold read, live. rewrite lookup_insert_eq. cbn [expire_at value]. rewrite Elive.
    cbn [default from_option id].
    apply Qlt_bool_iff in Elive.
    rewrite purge_positive.
    2:{ apply Forall_app. split; [exact Hc_pos|]. by repeat constructor. }
    rewrite List.filter_app. cbn [List.filter].
    unfold counted. fold W. rewrite filter_younger by lra. reflexivity.
  - unfold read, live. rewrite lookup_insert_eq. cbn [expire_at value]. rewrite Elive.
    cbn [default from_option id].
    apply Qlt_bool_false in Elive.
    assert (Et : Qlt_bool (now - W) t = false) by (apply Qlt_bool_false; lra).
    rewrite Et, filter_none; [reflexivity|].
    eapply Forall_impl; [exact Hlt|]. cbn. intros x Hx. lra.
Qed.

Lemma replay_follows_decisions times : forall s history last,
  holds_history s history ->
  Forall (fun x => (0 < x)%Q) history -> (0 <= last)%Q ->
  Forall (fun x => (x <= last)%Q) history ->
  increasing_from last times ->
  exists s', replay sliding_window_check key rule times s
             = Some (s', window_decisions rule history times).
Proof.
  induction times as [|t rest IH]; intros s history last Hs Hpos Hlast Hle Hinc.
  - exists s. reflexivity.
  - destruct Hinc as [Ht Hinc].
    assert (Hlt : Forall (fun x => (x < t)%Q) history).
    { eapply Forall_impl; [exact Hle|]. cbn. intros x Hx. lra. }
    destruct (check_extends_history s history t Hs Hpos ltac:(lra) Hlt)
      as (s1 & info & Hc & Hs1).
    destruct (IH s1 (history ++ [t]) t Hs1) as (s' & Hrun).
    + apply Forall_app. split; [exact Hpos|]. repeat constructor. lra.
    + lra.
    + apply Forall_app. split.
      * eapply Forall_impl; [exact Hlt|]. cbn. intros x Hx. lra.
      * repeat constructor. lra.
    + exact Hinc.
    + exists s'. cbn [replay window_decisions]. unfold sliding_window_check at 1.
      rewrite Hc, Hrun. reflexivity.
Qed.

End History.

Section Bound.
Variable rule : RateLimitRule.
Let W : Q := inject_Z (window rule).

Lemma window_decisions_length times : forall history,
  length (window_decisions rule history times) = length times.
Proof. induction times as [|t rest IH]; intros history; cbn; [done|]. by rewrite IH. Qed.

Lemma window_decisions_snoc pre t : forall history,
  window_decisions rule history (pre ++ [t])
  = window_decisions rule history pre
    ++ [(Z.of_nat (length (counted rule (history ++ pre) t)) <? limit rule)%Z].
Proof.
  induction pre as [|x pre IH]; intros history; cbn.
  - by rewrite app_nil_r.
  - rewrite IH, <- app_assoc. reflexivity.
Qed.

Lemma allowed_in_span_snoc a times : forall oks t ok,
  length oks = length times ->
  allowed_in_span a W (times ++ [t]) (oks ++ [ok])
  = (allowed_in_span a W times oks
     + (if ok && Qle_bool a t && Qlt_bool t (a + W) then 1 else 0))%nat.
Proof.
  induction times as [|x times IH]; intros [|o oks] t ok Hlen; try discriminate.
  - cbn. lia.
  - cbn in Hlen. cbn. rewrite IH by lia. lia.
Qed.

(** The allowed checks in a span are among the checks at or after its start. *)
Lemma allowed_in_span_le a times : forall oks,
  (allowed_in_span a W times oks <= length (List.filter (Qle_bool a) times))%nat.
Proof.
  induction times as [|x times IH]; intros [|o oks]; cbn; try lia.
  specialize (IH oks).
  destruct o; cbn; [|destruct (Qle_bool a x); cbn; lia].
  destruct (Qle_bool a x); cbn; [|lia].
  destruct (Qlt_bool x (a + W)); cbn; lia.
Qed.

Lemma filter_length_mono {A} (p q : A -> bool) l :
  (forall x, p x = true -> q x = true) ->
  (length (List.filter p l) <= length (List.filter q l))%nat.
Proof.
  intros Hpq. induction l as [|x l IH]; cbn; [lia|].
  destruct (p x) eqn:Ep.
  - rewrite (Hpq x Ep). cbn. lia.
  - destruct (q x); cbn; lia.
Qed.

(** In a run decided by [window_decisions], no span of one window holds more
    allowed checks than the limit. *)
Lemma decisions_respect_limit history times a :
  (Z.of_nat (allowed_in_span a W times (window_decisions rule history times))
   <= Z.max 0 (limit rule))%Z.
Proof.
  induction times as [|t pre IH] using rev_ind; [cbn; lia|].
  rewrite window_decisions_snoc, allowed_in_span_snoc
    by apply window_decisions_length.
  set (ok := (Z.of_nat (length (counted rule (history ++ pre) t)) <? limit rule)%Z).
  destruct (ok && Qle_bool a t && Qlt_bool t (a + W)) eqn:E; [|lia].
  apply andb_prop in E as [E Hin]. apply andb_prop in E as [Hok Hat].
  subst ok. apply Z.ltb_lt in Hok. apply Qlt_bool_iff in Hin. apply Qle_bool_iff in Hat.
  pose proof (allowed_in_span_le a pre (window_decisions rule history pre)) as H1.
  assert (H2 : (length (List.filter (Qle_bool a) pre)
                <= length (counted rule (history ++ pre) t))%nat).
  { unfold counted. rewrite List.filter_app, length_app.
    etransitivity; [|apply Nat.le_add_l].
    apply filter_length_mono. intros x Hx. apply Qle_bool_iff in Hx.
    apply Qlt_bool_iff. fold W. lra. }
  lia.
Qed.

End Bound.


End SlidingWindowProps.

(** C5.  The rule [RateLimitRule(2, 60)] (sliding window) and three checks of
    one key at the same clock reading 100: the sorted set keeps a single
    member [str(100)], every check counts at most one earlier event, and all
    three are allowed although the limit is 2. *)
Theorem sliding_window_same_instant_exceeds_limit :
  let rule := RateLimiter.new_rule 2 60 RateLimiter.SLIDING_WINDOW None None in
  exists s',
    RateLimiter.replay RateLimiter.sliding_window_check "rate_limit:10.0.0.1" rule
      [100; 100; 100]%Q RateLimiter.empty_store
    = Some (s', [true; true; true]) /\
    read 100 (RateLimiter.zsets s') "rate_limit:10.0.0.1" = Some [100%Q].
Proof.
  eexists. split.
  - vm_compute. reflexivity.
  - vm_compute. reflexivity.
Qed.

(** Where the sliding window does hold its limit: a run of checks at
    distinct, increasing instants on a key that has never been checked
    returns, and no span [a, a+W) holds more than [limit] allowed checks. *)
Theorem sliding_window_limit_at_distinct_instants (key : string)
    (rule : RateLimiter.RateLimitRule) (times : list Q) (s : RateLimiter.Store) :
  RateLimiter.zsets s !! key = None ->
  RateLimiterSpec.increasing_from 0 times ->
  exists s' oks,
    RateLimiter.replay RateLimiter.sliding_window_check key rule times s = Some (s', oks) /\
    forall a, (Z.of_nat (RateLimiterSpec.allowed_in_span a (inject_Z (RateLimiter.window rule)) times oks)
               <= Z.max 0 (RateLimiter.limit rule))%Z.
Proof.
  intros Hfresh Hinc.
  destruct (SlidingWindowProps.replay_follows_decisions key rule times s [] 0) as (s' & Hrun).
  - intros now _. unfold read. rewrite Hfresh. reflexivity.
  - constructor.
  - lra.
  - constructor.
  - exact Hinc.
  - exists s', (RateLimiterSpec.window_decisions rule [] times). split; [exact Hrun|].
    intros a. apply SlidingWindowProps.decisions_respect_limit.
Qed.

(** Two per minute: the checks at 100 and 101 are allowed, the one at 102 is
    denied, and a minute after the first two the next ones are allowed again. *)
Example sliding_window_two_per_minute :
  exists s',
    RateLimiter.replay RateLimiter.sliding_window_check "rate_limit:10.0.0.1"
      (RateLimiter.new_rule 2 60 RateLimiter.SLIDING_WINDOW None None)
      [100; 101; 102; 161; 162]%Q RateLimiter.empty_store
    = Some (s', [true; true; false; true; true]).
Proof. eexists. vm_compute. reflexivity. Qed.

(** ** What a check writes *)

(** C7 (amended).  A sliding-window check records its instant and a
    fixed-window check increments the counter of the current window whatever
    the decision is; a token-bucket check writes the bucket (new token count
    and instant) only when it allows, and a denied token-bucket check leaves
    the store as it was. *)
Theorem check_state_effects (key : string) (rule : RateLimiter.RateLimitRule)
    (now : Q) (s : RateLimiter.Store) :
  (0 < RateLimiter.window_seconds rule)%Z ->
  RateLimiterSpec.check_writes key rule now s.
Proof.
  intros Hws. unfold RateLimiterSpec.check_writes. split; [|split; [|split]].
  - apply SlidingWindowProps.sliding_window_records.
  - intros s' ok info Hc. unfold RateLimiter._check_fixed_window in Hc.
    destruct (RateLimiter.window_seconds rule =? 0)%Z; [discriminate|].
    injection Hc as <- _ _. cbn.
    apply read_insert_live.
    assert (0 < inject_Z (RateLimiter.window_seconds rule))%Q.
    { change 0%Q with (inject_Z 0). by rewrite <- Zlt_Qlt. }
    lra.
  - intros s' info Hc. unfold RateLimiter._check_token_bucket in Hc.
    destruct (match read now (RateLimiter.buckets s) (key +:+ ":bucket") with
              | Some b => _ | None => _ end) as [tk|]; [|discriminate].
    destruct (Qle_bool 0 tk); [discriminate|].
    destruct ((RateLimiter.window rule =? 0)%Z || (RateLimiter.limit rule =? 0)%Z);
      [discriminate|].
    by injection Hc as <- _.
  - intros s' info Hc. unfold RateLimiter._check_token_bucket in Hc.
    destruct (match read now (RateLimiter.buckets s) (key +:+ ":bucket") with
              | Some b => _ | None => _ end) as [tk|]; [|discriminate].
    destruct (Qle_bool 0 tk) eqn:Hge.
    + injection Hc as <- <-. eexists. unfold RateLimiter.stored_bucket. cbn.
      rewrite lookup_insert_eq. cbn. split; [reflexivity|]. cbn.
      split; [reflexivity|]. split; [by apply Qle_bool_iff|reflexivity].
    + destruct ((RateLimiter.window rule =? 0)%Z || (RateLimiter.limit rule =? 0)%Z);
        discriminate.
Qed.

(** The theorem at [API_BURST] and an empty store. *)
Lemma check_state_effects_witness :
  RateLimiterSpec.check_writes "rate_limit:10.0.0.1" RateLimiter.API_BURST 1000
    RateLimiter.empty_store.
Proof.
  apply (check_state_effects "rate_limit:10.0.0.1" RateLimiter.API_BURST 1000
           RateLimiter.empty_store).
  vm_compute. reflexivity.
Defined.

(** C7 as stated fails: a token bucket with one token, checked twice at the
    instant 100.  The second check is denied and the store after it is the
    store before it. *)
Lemma denied_token_bucket_check_writes_nothing :
  let rule := RateLimiter.new_rule 1 60 RateLimiter.TOKEN_BUCKET None None in
  exists s1 info1 info2,
    RateLimiter._check_token_bucket "rate_limit:10.0.0.1" rule 100 RateLimiter.empty_store
      = Some (s1, (true, info1)) /\
    RateLimiter._check_token_bucket "rate_limit:10.0.0.1" rule 100 s1
      = Some (s1, (false, info2)).
Proof.
  eexists _, _, _. split.
  - vm_compute. reflexivity.
  - vm_compute. reflexivity.
Qed.

(** ** Several rules on one endpoint *)

Module CheckRulesProps.
Import RateLimiter RateLimiterSpec.

(** The loop returns at the first rule that denies: the rules after it are
    not run, and the accumulated info is overwritten by the denying rule's. *)
Lemma check_rules_first_denial request rule post info s2 :
  forall pre clock acc s s1 results,
    evaluate_all pre request clock s = Some (s1, results) ->
    all_allowed results ->
    check_rule (key_func rule request) rule (clock (length pre)) s1
    = Some (s2, (false, info)) ->
    check_rules (pre ++ rule :: post) request clock acc s
    = (s2, Some (false, denial_of info)).
Proof.
  induction pre as [|r pre IH]; intros clock acc s s1 results Hev Hall Hdeny.
  - cbn in Hev. injection Hev as <- <-. cbn in Hdeny |- *. rewrite Hdeny. reflexivity.
  - cbn in Hev.
    destruct (check_rule (key_func r request) r (clock 0%nat) s) as [[sa [ok i]]|] eqn:Hc;
      [|discriminate].
    destruct (evaluate_all pre request (later clock) sa) as [[sb rs]|] eqn:Hrest;
      [|discriminate].
    injection Hev as <- <-. inversion Hall as [|? ? Hok Hall']; subst.
    cbn in Hok. subst ok. cbn. rewrite Hc. cbn.
    eapply (IH (later clock)); eauto.
Qed.

Lemma fold_min_shift (a b : Z) (l : list Z) :
  fold_right Z.min (Z.min a b) l = Z.min b (fold_right Z.min a l).
Proof. induction l as [|x l IH]; cbn; [lia|]. rewrite IH. lia. Qed.

(** Without a denial every rule is run, whatever the rules report. *)
Lemma check_rules_runs_all request :
  forall rs0 clock acc s s' results,
    evaluate_all rs0 request clock s = Some (s', results) ->
    all_allowed results ->
    exists i, check_rules rs0 request clock acc s = (s', Some (true, i)) /\
              allowed i = allowed acc.
Proof.
  induction rs0 as [|r rs0 IH]; intros clock acc s s' results Hev Hall.
  - cbn in Hev. injection Hev as <- <-. exists acc. cbn. done.
  - cbn in Hev.
    destruct (check_rule (key_func r request) r (clock 0%nat) s) as [[sa [ok i]]|] eqn:Hc;
      [|discriminate].
    destruct (evaluate_all rs0 request (later clock) sa) as [[sb rs]|] eqn:Hrest;
      [|discriminate].
    injection Hev as -> <-.
    inversion Hall as [|? ? Hok Hall']; subst.
    cbn in Hok. subst ok. cbn [check_rules]. rewrite Hc. cbn [negb].
    set (acc' := if ((remaining i <? rl_remaining acc)%Z || (rl_remaining acc =? 0)%Z)
                 then update acc i else acc).
    assert (Hal : allowed acc' = allowed acc).
    { subst acc'. by destruct (_ || _). }
    destruct (IH (later clock) acc' sa s' rs Hrest Hall') as (j & Hj & Hjal).
    exists j. split; [exact Hj|congruence].
Qed.

(** Once the accumulated [remaining] is positive and every rule reports a
    positive one, the loop keeps the minimum. *)
Lemma check_rules_all_allowed request :
  forall rs0 clock acc s s' results,
    evaluate_all rs0 request clock s = Some (s', results) ->
    all_allowed results -> all_positive results ->
    (0 < rl_remaining acc)%Z ->
    exists i, check_rules rs0 request clock acc s = (s', Some (true, i)) /\
              allowed i = allowed acc /\
              rl_remaining i
              = fold_right Z.min (rl_remaining acc) ((fun x => remaining (snd x)) <$> results).
Proof.
  induction rs0 as [|r rs0 IH]; intros clock acc s s' results Hev Hall Hpos Hacc.
  - cbn in Hev. injection Hev as <- <-. exists acc. cbn. done.
  - cbn in Hev.
    destruct (check_rule (key_func r request) r (clock 0%nat) s) as [[sa [ok i]]|] eqn:Hc;
      [|discriminate].
    destruct (evaluate_all rs0 request (later clock) sa) as [[sb rs]|] eqn:Hrest;
      [|discriminate].
    injection Hev as -> <-.
    inversion Hall as [|? ? Hok Hall']; subst. inversion Hpos as [|? ? Hp Hpos']; subst.
    cbn in Hok, Hp. subst ok. cbn [check_rules]. rewrite Hc. cbn [negb].
    set (acc' := if ((remaining i <? rl_remaining acc)%Z || (rl_remaining acc =? 0)%Z)
                 then update acc i else acc).
    assert (Hacc' : rl_remaining acc' = Z.min (rl_remaining acc) (remaining i)
                    /\ allowed acc' = allowed acc).
    { subst acc'. destruct (remaining i <? rl_remaining acc)%Z eqn:E1.
      - apply Z.ltb_lt in E1. cbn. split; [lia|done].
      - apply Z.ltb_ge in E1.
        replace (rl_remaining acc =? 0)%Z with false by (symmetry; apply Z.eqb_neq; lia).
        cbn. split; [lia|done]. }
    destruct Hacc' as [Hrem Hal].
    destruct (IH (later clock) acc' sa s' rs Hrest Hall' Hpos') as (j & Hj & Hjal & Hjrem);
      [lia|].
    exists j. split; [exact Hj|]. split; [congruence|].
    rewrite Hjrem, Hrem. cbn [fmap list_fmap fold_right]. apply fold_min_shift.
Qed.

(** From the initial dict (remaining 0) the first rule's info is taken as it
    is. *)
Lemma check_rules_smallest request clock rs0 s s' results :
  evaluate_all rs0 request clock s = Some (s', results) ->
  all_allowed results -> all_positive results ->
  exists i, check_rules rs0 request clock initial_info s = (s', Some (true, i)) /\
            allowed i = true /\ rl_remaining i = smallest_remaining results.
Proof.
  destruct rs0 as [|r rs0]; intros Hev Hall Hpos.
  - cbn in Hev. injection Hev as <- <-. exists initial_info. done.
  - cbn in Hev.
    destruct (check_rule (key_func r request) r (clock 0%nat) s) as [[sa [ok i]]|] eqn:Hc;
      [|discriminate].
    destruct (evaluate_all rs0 request (later clock) sa) as [[sb rs]|] eqn:Hrest;
      [|discriminate].
    injection Hev as -> <-.
    inversion Hall as [|? ? Hok Hall']; subst. inversion Hpos as [|? ? Hp Hpos']; subst.
    cbn in Hok, Hp. subst ok. cbn [check_rules]. rewrite Hc. cbn [negb].
    replace ((remaining i <? rl_remaining initial_info)%Z
             || (rl_remaining initial_info =? 0)%Z) with true
      by (cbn; by rewrite orb_true_r).
    destruct (check_rules_all_allowed request rs0 (later clock) (update initial_info i) sa s'
                rs Hrest Hall' Hpos') as (j & Hj & Hjal & Hjrem); [exact Hp|].
    exists j. split; [exact Hj|]. split; [exact Hjal|]. exact Hjrem.
Qed.

End CheckRulesProps.

(** C4 (amended).  [check_rate_limit] runs the rules of the endpoint in order,
    each with its own reading of the clock, and returns at the first one that
    denies, with that rule's info (remaining and retry-after) and allowed
    false; the rules after it are not run and their keys are not written.
    When no rule denies, every rule is run and the call allows; if moreover
    every rule reports a positive remaining, the returned remaining is the
    smallest of them. *)
Theorem check_rate_limit_most_restrictive (rl : RateLimiter.RateLimiter)
    (request : RateLimiter.Request) (endpoint : string) (clock : RateLimiter.Clock) :
  RateLimiterSpec.first_denial_wins rl request endpoint clock /\
  RateLimiterSpec.smallest_remaining_wins rl request endpoint clock.
Proof.
  split.
  - intros pre rule post s1 s2 results info Hrules Hev Hall Hdeny.
    unfold RateLimiter.check_rate_limit. rewrite Hrules.
    by rewrite (CheckRulesProps.check_rules_first_denial request rule post info s2
                  pre clock RateLimiter.initial_info (RateLimiter.store rl) s1 results
                  Hev Hall Hdeny).
  - intros rs s' results Hrules Hev Hall.
    unfold RateLimiter.check_rate_limit. rewrite Hrules.
    destruct (CheckRulesProps.check_rules_runs_all request rs clock
                RateLimiter.initial_info (RateLimiter.store rl) s' results Hev Hall)
      as (i & Hi & Hal).
    exists i. rewrite Hi. split; [done|]. split; [exact Hal|].
    intros Hpos.
    destruct (CheckRulesProps.check_rules_smallest request clock rs (RateLimiter.store rl)
                s' results Hev Hall Hpos) as (j & Hj & _ & Hrem).
    rewrite Hi in Hj. by injection Hj as <-.
Qed.

(** The theorem on the two-rule endpoint, the clock advancing by a
    millisecond from one rule to the next: the second request of the minute
    is denied by the first rule, and the first request returns the smaller
    remaining when both are positive (rules of 5 and 3 per minute). *)
Lemma check_rate_limit_most_restrictive_witness :
  (exists s2 info,
     RateLimiter.check_rate_limit RateLimiterSpec.after_first_request
       RateLimiterSpec.a_request "chat" (RateLimiterSpec.ticking 101)
     = (RateLimiter.mkRateLimiter (RateLimiter.rules RateLimiterSpec.after_first_request) s2,
        Some (false, RateLimiter.Full (RateLimiter.denial_of info))) /\
     RateLimiter.retry_after info = Some 60%Z) /\
  (exists s' i,
     RateLimiter.check_rate_limit
       (RateLimiter.add_rule "chat"
          (RateLimiter.new_rule 3 60 RateLimiter.SLIDING_WINDOW None (Some (fun _ => "c")))
          (RateLimiter.add_rule "chat" RateLimiterSpec.rule_b RateLimiter.new_limiter))
       RateLimiterSpec.a_request "chat" (RateLimiterSpec.ticking 100)
     = (s', Some (true, RateLimiter.Full i)) /\ RateLimiter.rl_remaining i = 2%Z).
Proof.
  split.
  - eexists _, _. split.
    + eapply (proj1 (check_rate_limit_most_restrictive RateLimiterSpec.after_first_request
                       RateLimiterSpec.a_request "chat" (RateLimiterSpec.ticking 101))
                [] RateLimiterSpec.rule_a [RateLimiterSpec.rule_b]).
      * vm_compute. reflexivity.
      * reflexivity.
      * constructor.
      * vm_compute. reflexivity.
    + reflexivity.
  - destruct (proj2 (check_rate_limit_most_restrictive
                       (RateLimiter.add_rule "chat"
                          (RateLimiter.new_rule 3 60 RateLimiter.SLIDING_WINDOW None
                             (Some (fun _ => "c")))
                          (RateLimiter.add_rule "chat" RateLimiterSpec.rule_b
                             RateLimiter.new_limiter))
                       RateLimiterSpec.a_request "chat" (RateLimiterSpec.ticking 100))
                _ _ _ eq_refl eq_refl) as (i & Hi & _ & Hrem).
    + repeat constructor.
    + eexists _, i. split; [exact Hi|]. apply Hrem. repeat constructor.
Defined.

(** C4 as stated fails: on the two-rule endpoint the second request of the
    minute is denied by the first rule, and the key of the second rule still
    holds only the first request: the second rule was not evaluated.  Had it
    been, its key would hold both requests. *)
Lemma check_rate_limit_stops_at_first_denial :
  let '(rl2, result) :=
    RateLimiter.check_rate_limit RateLimiterSpec.after_first_request
      RateLimiterSpec.a_request "chat" (RateLimiterSpec.ticking 101) in
  (exists i, result = Some (false, RateLimiter.Full i)) /\
  read 102 (RateLimiter.zsets (RateLimiter.store rl2)) "b" = Some [100001 # 1000]%Q /\
  (exists s' results,
     RateLimiter.evaluate_all [RateLimiterSpec.rule_a; RateLimiterSpec.rule_b]
       RateLimiterSpec.a_request (RateLimiterSpec.ticking 101)
       (RateLimiter.store RateLimiterSpec.after_first_request)
     = Some (s', results) /\
     read 102 (RateLimiter.zsets s') "b" = Some [100001 # 1000; 101001 # 1000]%Q).
Proof.
  vm_compute. split; [|split].
  - eexists. reflexivity.
  - reflexivity.
  - eexists _, _. split; reflexivity.
Qed.

(** The update test [info["remaining"] < acc["remaining"] or acc["remaining"]
    == 0] also fires when a rule has really reported 0: rule a (one per
    minute) allows the first request with remaining 0, rule b then reports 4,
    and 4 is what is returned. *)
Example remaining_zero_is_overwritten :
  exists rl' i,
    RateLimiter.check_rate_limit RateLimiterSpec.two_rules RateLimiterSpec.a_request
      "chat" (RateLimiterSpec.ticking 100) = (rl', Some (true, RateLimiter.Full i)) /\
    RateLimiter.rl_remaining i = 4%Z.
Proof. eexists _, _. vm_compute. split; reflexivity. Qed.

(** ** Presence: heartbeats and the monitor *)

Module PresenceProps.
Import PubSub PresenceSpec.

Section AnyCallback.
Context {Callback : Type}.
Implicit Types m : RedisPubSubManager Callback.

Lemma set_user_heartbeat_written wallet now m :
  written_by_heartbeat (heartbeats m) ->
  written_by_heartbeat (heartbeats (set_user_heartbeat wallet now m)).
Proof.
  intros Hinv. unfold set_user_heartbeat. destruct (is_connected m); [|exact Hinv].
  cbn. intros k e. rewrite lookup_insert. case_decide.
  - intros [= <-]. exists now. split; [reflexivity|]. cbn. reflexivity.
  - apply Hinv.
Qed.

(** A key that is still visible is younger than 60 seconds, so the scan of
    the monitor, which looks for an age above 120 seconds, finds nothing. *)
Lemma scan_finds_nothing keys current_time : forall h expired_users,
  written_by_heartbeat h ->
  scan_heartbeats keys current_time h expired_users = (h, Some expired_users).
Proof.
  induction keys as [|key keys IH]; intros h expired_users Hinv; [reflexivity|].
  cbn. destruct (read current_time h key) as [v|] eqn:Hread; [|by apply IH].
  apply read_Some in Hread as (e & He & Hv & Hlive).
  destruct (Hinv key e He) as (t & Ht & Hex).
  rewrite <- Hv, Ht.
  assert (Hyoung : Qlt_bool offline_after (current_time - t) = false).
  { apply Qlt_bool_false. unfold offline_after. rewrite Hex in Hlive. lra. }
  rewrite Hyoung. by apply IH.
Qed.

(** A sweep over heartbeats written by [set_user_heartbeat] changes nothing
    and publishes nothing. *)
Lemma heartbeat_sweep_silent current_time m :
  written_by_heartbeat (heartbeats m) -> heartbeat_sweep current_time m = m.
Proof.
  intros Hinv. unfold heartbeat_sweep, sweep_keys.
  destruct (is_connected m) eqn:Hc; [|reflexivity].
  rewrite scan_finds_nothing by exact Hinv. cbn.
  unfold with_heartbeats. destruct m; reflexivity.
Qed.

Lemma heartbeat_monitor_silent sweeps : forall m,
  written_by_heartbeat (heartbeats m) -> heartbeat_monitor sweeps m = m.
Proof.
  induction sweeps as [|t sweeps IH]; intros m Hinv; [reflexivity|].
  cbn. rewrite heartbeat_sweep_silent by exact Hinv. by apply IH.
Qed.

End AnyCallback.

End PresenceProps.

(** C3.  One heartbeat of wallet A at the instant 1000 and sweeps every 30
    seconds after it.  The key is written with a 60 second time-to-live, so
    the wallet is listed online at 1059 and no longer at 1060, a minute
    before the two-minute threshold of the monitor; the sweeps at 1030, ...,
    1150 (the last one after 1000 + 120) find no key older than the threshold
    and publish no offline notification. *)
Theorem presence_sweep_never_notifies :
  let m := PubSub.set_user_heartbeat "walletA" 1000 PresenceSpec.connected in
  PubSub.get_online_users 1059 m = ["walletA"] /\
  PubSub.get_online_users 1060 m = [] /\
  PubSub.published (PubSub.heartbeat_monitor [1030; 1060; 1090; 1120; 1150]%Q m) = [].
Proof.
  cbv zeta. split; [|split].
  - vm_compute. reflexivity.
  - vm_compute. reflexivity.
  - rewrite PresenceProps.heartbeat_monitor_silent.
    + reflexivity.
    + apply PresenceProps.set_user_heartbeat_written. intros k e.
      unfold PresenceSpec.connected. cbn [PubSub.heartbeats]. by rewrite lookup_empty.
Qed.

(** When the scan does find a stale key (here one stored with a longer
    time-to-live than [set_user_heartbeat] gives), the notification carries
    the instant of the sweep, 1150, as [last_seen], not the heartbeat 1000. *)
Example offline_notification_carries_sweep_time :
  let m := PubSub.mkManager (Callback := unit) true true ∅
             {["walletA" := mkExpiring (PubSub.Iso 1000) 2000]} ∅ [] in
  PubSub.published (PubSub.heartbeat_sweep 1150 m)
  = [("user_status",
      JObj [("type", JStr "user_status"); ("wallet_address", JStr "walletA");
            ("data", JObj [("is_online", JBool false); ("last_seen", JTime 1150)]);
            ("timestamp", JTime 1150)])].
Proof. vm_compute. reflexivity. Qed.

(** ** Fan-out to subscribers *)

Module FanOutProps.
Import PubSub FanOutSpec.

Section AnyCallback.
Context {Callback Env : Type}.
Variable invoke : Callback -> string -> Json -> Env -> Env * option string.

Local Abbreviation after_callbacks := (FanOutSpec.after_callbacks invoke).

Lemma invoke_callbacks_all cbs channel data : forall env,
  let '(env', log) := invoke_callbacks invoke cbs channel data env in
  inv_callback <$> log = cbs /\
  Forall (fun i => inv_channel i = channel /\ inv_data i = data) log /\
  env' = after_callbacks cbs channel data env.
Proof.
  unfold after_callbacks. induction cbs as [|cb cbs IH]; intros env; cbn.
  - done.
  - destruct (invoke cb channel data env) as [env1 raised] eqn:E1.
    specialize (IH env1).
    destruct (invoke_callbacks invoke cbs channel data env1) as [env2 log].
    destruct IH as (Hcbs & Hargs & Henv). cbn.
    split; [by rewrite Hcbs|]. split; [by constructor|]. exact Henv.
Qed.

(** What [invoke] answered is what the log holds. *)
Lemma invoke_callbacks_raised cbs channel data : forall env i,
  i ∈ snd (invoke_callbacks invoke cbs channel data env) ->
  exists e, inv_raised i = snd (invoke (inv_callback i) channel data e).
Proof.
  induction cbs as [|cb cbs IH]; intros env i; cbn.
  - intros Hin. by apply elem_of_nil in Hin.
  - destruct (invoke cb channel data env) as [env1 raised] eqn:E1.
    destruct (invoke_callbacks invoke cbs channel data env1) as [env2 log] eqn:E2.
    cbn. intros Hin. apply elem_of_cons in Hin as [->|Hin].
    + exists env. cbn. by rewrite E1.
    + apply (IH env1). by rewrite E2.
Qed.

Lemma listen_keeps_manager messages : forall (m : RedisPubSubManager Callback) env,
  fst (fst (listen_for_messages invoke messages m env)) = m.
Proof.
  induction messages as [|message rest IH]; intros m env; cbn; [reflexivity|].
  destruct (is_connected m); [|reflexivity].
  destruct (on_message invoke message m env) as [[[m1 env1] log1]|] eqn:E; [|reflexivity].
  assert (m1 = m) as ->.
  { unfold on_message in E. destruct (msg_type message =? "message")%string.
    - destruct (msg_data message); [|discriminate].
      destruct (subscriptions m !! msg_channel message).
      + destruct (invoke_callbacks invoke l (msg_channel message) j env).
        by injection E as <- _ _.
      + by injection E as <- _ _.
    - by injection E as <- _ _. }
  specialize (IH m env1).
  destruct (listen_for_messages invoke rest m env1) as [[m2 env2] log2]. done.
Qed.

Lemma run_calls_app calls1 : forall calls2 env,
  run_calls invoke (calls1 ++ calls2) env
  = (fst (run_calls invoke calls2 (fst (run_calls invoke calls1 env))),
     snd (run_calls invoke calls1 env)
     ++ snd (run_calls invoke calls2 (fst (run_calls invoke calls1 env)))).
Proof.
  induction calls1 as [|[[cb channel] data] calls1 IH]; intros calls2 env.
  - cbn. by destruct (run_calls invoke calls2 env).
  - cbn [app run_calls]. destruct (invoke cb channel data env) as [env1 raised].
    rewrite IH. destruct (run_calls invoke calls1 env1) as [env2 others]. reflexivity.
Qed.

(** The loop over the callbacks of one channel makes the calls owed, one
    after the other. *)
Lemma invoke_callbacks_run cbs channel data : forall env,
  let calls := (fun cb => (cb, channel, data)) <$> cbs in
  fst (invoke_callbacks invoke cbs channel data env) = fst (run_calls invoke calls env) /\
  call_of <$> snd (invoke_callbacks invoke cbs channel data env) = calls /\
  inv_raised <$> snd (invoke_callbacks invoke cbs channel data env)
  = snd (run_calls invoke calls env).
Proof.
  induction cbs as [|cb cbs IH]; intros env; cbn; [done|].
  destruct (invoke cb channel data env) as [env1 raised].
  destruct (IH env1) as (Henv & Hcalls & Hraised). cbn in Henv, Hcalls, Hraised.
  destruct (invoke_callbacks invoke cbs channel data env1) as [env2 log].
  destruct (run_calls invoke ((fun cb0 => (cb0, channel, data)) <$> cbs) env1)
    as [env2' others].
  cbn in *. subst. split; [done|]. split; [by f_equal|done].
Qed.

(** One turn of the listener on a message whose payload decodes. *)
Lemma on_message_run message (m : RedisPubSubManager Callback) env :
  decodable message ->
  exists log,
    on_message invoke message m env
    = Some (m, fst (run_calls invoke (calls_for m message) env), log) /\
    call_of <$> log = calls_for m message /\
    inv_raised <$> log = snd (run_calls invoke (calls_for m message) env).
Proof.
  intros Hdec. unfold on_message, calls_for, decodable in *.
  destruct (msg_type message =? "message")%string eqn:Htype; [|by exists []].
  apply String.eqb_eq in Htype.
  destruct (msg_data message) as [data|]; [|by destruct (Hdec Htype)].
  destruct (subscriptions m !! msg_channel message) as [cbs|]; [|by exists []].
  cbn [default from_option]. unfold Datatypes.id.
  destruct (invoke_callbacks_run cbs (msg_channel message) data env)
    as (Henv & Hcalls & Hraised). cbn in Henv, Hcalls, Hraised.
  destruct (invoke_callbacks invoke cbs (msg_channel message) data env) as [env' log].
  cbn in *. exists log. by rewrite Henv.
Qed.

(** The listener over a run of messages. *)
Lemma listen_run messages : forall (m : RedisPubSubManager Callback) env,
  is_connected m = true ->
  Forall decodable messages ->
  exists log,
    listen_for_messages invoke messages m env
    = (m, fst (run_calls invoke (concat (calls_for m <$> messages)) env), log) /\
    call_of <$> log = concat (calls_for m <$> messages) /\
    inv_raised <$> log = snd (run_calls invoke (concat (calls_for m <$> messages)) env).
Proof.
  induction messages as [|message rest IH]; intros m env Hc Hall.
  - exists []. done.
  - inversion Hall as [|? ? Hdec Hrest]; subst.
    destruct (on_message_run message m env Hdec) as (log1 & Hon & Hcalls1 & Hraised1).
    destruct (IH m (fst (run_calls invoke (calls_for m message) env)) Hc Hrest)
      as (log2 & Hlisten & Hcalls2 & Hraised2).
    exists (log1 ++ log2). cbn [listen_for_messages fmap list_fmap concat].
    rewrite Hc, Hon, Hlisten, run_calls_app. cbn [fst snd].
    split; [reflexivity|]. rewrite !fmap_app. split; congruence.
Qed.

End AnyCallback.

End FanOutProps.

(** C8.  For every run of messages handed to the listener whose payloads are
    JSON, and every message of the run, the listener calls every callback
    subscribed to the channel of the message with the channel and the decoded
    data, in subscription order and message after message, whatever the
    callbacks do: the exception of one is recorded and the calls after it are
    made on the state it left.  The manager, and with it every subscriber
    list, is unchanged by the run. *)
Theorem fan_out_reaches_every_subscriber {Callback Env : Type}
    (invoke : Callback -> string -> Json -> Env -> Env * option string)
    (m : PubSub.RedisPubSubManager Callback) (env : Env)
    (messages : list PubSub.PubSubMessage) :
  PubSub.is_connected m = true ->
  Forall FanOutSpec.decodable messages ->
  FanOutSpec.delivers_every_message invoke m env messages.
Proof.
  intros Hc Hall. unfold FanOutSpec.delivers_every_message. cbv zeta.
  apply FanOutProps.listen_run; assumption.
Qed.

(** The theorem on three subscribers of room:1, the second of which raises,
    and two messages on that channel with a subscription notice between
    them: each message reaches all three, the second subscriber raising both
    times. *)
Lemma fan_out_reaches_every_subscriber_witness :
  FanOutSpec.delivers_every_message FanOutSpec.second_raises
    (PubSub.mkManager true true {["room:1" := [1; 2; 3]]} ∅ ∅ []) []
    [PubSub.mkPubSubMessage "message" "room:1" (Some (JStr "hello"));
     PubSub.mkPubSubMessage "subscribe" "room:1" None;
     PubSub.mkPubSubMessage "message" "room:1" (Some (JStr "again"))]
  /\ FanOutSpec.run_calls FanOutSpec.second_raises
       (concat (FanOutSpec.calls_for
                  (PubSub.mkManager true true {["room:1" := [1; 2; 3]]} ∅ ∅ [])
                <$> [PubSub.mkPubSubMessage "message" "room:1" (Some (JStr "hello"));
                     PubSub.mkPubSubMessage "subscribe" "room:1" None;
                     PubSub.mkPubSubMessage "message" "room:1" (Some (JStr "again"))]))
       []
     = ([1; 2; 3; 1; 2; 3],
        [None; Some "boom"; None; None; Some "boom"; None]).
Proof.
  split.
  - apply (fan_out_reaches_every_subscriber FanOutSpec.second_raises
             (PubSub.mkManager true true {["room:1" := [1; 2; 3]]} ∅ ∅ []) []
             [PubSub.mkPubSubMessage "message" "room:1" (Some (JStr "hello"));
              PubSub.mkPubSubMessage "subscribe" "room:1" None;
              PubSub.mkPubSubMessage "message" "room:1" (Some (JStr "again"))]).
    + reflexivity.
    + constructor; [intros _ H; discriminate H|].
      constructor; [intros H; discriminate H|].
      constructor; [intros _ H; discriminate H|]. constructor.
  - reflexivity.
Defined.

(** ** The message router *)

Module RouterProps.
Import WsAuth Models Router RouterSpec.

Lemma steps_refl w : steps w w.
Proof. repeat split; try done. exists []. by rewrite app_nil_r. Qed.

Lemma steps_trans w1 w2 w3 : steps w1 w2 -> steps w2 w3 -> steps w1 w3.
Proof.
  intros (Ha & Hl & Hh & Hc & l1 & He1 & Hf1) (Ha' & Hl' & Hh' & Hc' & l2 & He2 & Hf2).
  repeat split; try congruence; [tauto|].
  exists (l1 ++ l2). rewrite He2, He1, app_assoc. split; [done|].
  rewrite forallb_app, Hf1, Hf2. done.
Qed.

Lemma steps_log e w : forallb no_retry_after e = true -> steps w (log e w).
Proof. intros H. repeat split; try done. exists e. done. Qed.

Lemma steps_raises exception w : steps w (raises exception w).
Proof. by apply steps_log. Qed.

Lemma send_text_raises ws frame w : send_text ws frame w = raises "NameError" w.
Proof. reflexivity. Qed.

Lemma reply_raises ws frame w : reply ws frame w = raises "NameError" w.
Proof. reflexivity. Qed.

Lemma steps_reply ws frame w : steps w (reply ws frame w).
Proof. rewrite reply_raises. apply steps_raises. Qed.

Lemma steps_internal_server_error ws w : steps w (internal_server_error ws w).
Proof. apply steps_raises. Qed.

Lemma steps_commit d w : steps w (commit d w).
Proof. repeat split; try done. exists [ECommit]. done. Qed.

Lemma steps_store_message_cache room message now w :
  steps w (manager_store_message_cache room message now w).
Proof.
  unfold manager_store_message_cache. destruct (PubSub.is_connected (pubsub w)) eqn:E.
  - repeat split; try done.
    + cbn. unfold PubSub.store_message_cache. rewrite E. reflexivity.
    + cbn. unfold PubSub.store_message_cache. rewrite E. reflexivity.
    + eexists. split; [reflexivity|reflexivity].
  - apply steps_refl.
Qed.

Lemma steps_publish_chat_message room message now w :
  steps w (manager_publish_chat_message room message now w).
Proof.
  unfold manager_publish_chat_message. destruct (PubSub.is_connected (pubsub w)) eqn:E.
  - repeat split; try done.
    + cbn. unfold PubSub.publish_chat_message, PubSub.publish_message. rewrite E. reflexivity.
    + cbn. unfold PubSub.publish_chat_message, PubSub.publish_message. rewrite E. reflexivity.
    + eexists. split; [reflexivity|reflexivity].
  - apply steps_refl.
Qed.

Lemma steps_join_room ws wallet frame user now w :
  steps w (join_room ws wallet frame user now w).
Proof.
  unfold join_room.
  destruct (truthy_id (frame_room_id frame)) as [id|]; [|apply steps_reply].
  destruct (find_room id (db w)) as [room|]; [|apply steps_reply].
  match goal with |- context [if ?c then _ else _] => destruct c end; [apply steps_reply|].
  set (w1 := match find_member id wallet (db w) with Some _ => w | None => _ end).
  assert (H1 : steps w w1).
  { subst w1. destruct (find_member id wallet (db w)); [apply steps_refl|apply steps_commit]. }
  eapply steps_trans; [exact H1|]. clearbody w1.
  destruct (PubSub.subscribe_to_channel (room_channel id) (ForwardTo ws) (pubsub w1)) as [p|] eqn:Hs;
    [|apply steps_internal_server_error].
  eapply steps_trans; [|apply steps_reply].
  unfold PubSub.subscribe_to_channel in Hs.
  destruct (PubSub.is_connected (pubsub w1)) eqn:Hc.
  - injection Hs as <-. repeat split; try done. eexists. split; reflexivity.
  - unfold PubSub.connect in Hs. destruct (PubSub.redis_reachable (pubsub w1)); [|discriminate].
    injection Hs as <-. repeat split; try done. eexists. split; reflexivity.
Qed.

Lemma steps_room_message ws wallet frame user now w :
  steps w (room_message ws wallet frame user now w).
Proof.
  unfold room_message.
  destruct (truthy_id (frame_room_id frame)) as [id|]; [|apply steps_reply].
  destruct (truthy_str (frame_message frame)) as [text|]; [|apply steps_reply].
  destruct (find_member id wallet (db w)) as [member|]; [|apply steps_reply].
  destruct (can_send_messages member); [|apply steps_reply].
  eapply steps_trans; [apply steps_commit|].
  eapply steps_trans; [apply steps_store_message_cache|].
  eapply steps_trans; [apply steps_publish_chat_message|].
  eapply steps_trans; [apply steps_commit|].
  apply steps_log. reflexivity.
Qed.

Lemma steps_private_message ws wallet frame now w :
  steps w (private_message ws wallet frame now w).
Proof.
  unfold private_message.
  destruct (truthy_str (frame_target_wallet frame)) as [target|]; [|apply steps_reply].
  destruct (truthy_str (frame_message frame)) as [text|]; [|apply steps_reply].
  eapply steps_trans; [apply steps_commit|].
  eapply steps_trans; [|apply steps_reply].
  apply steps_log. unfold broadcast_to_wallet.
  induction (get_connections_by_wallet target _) as [|c l IH]; [reflexivity|].
  cbn. exact IH.
Qed.

Lemma steps_dispatch ws wallet frame user now w :
  steps w (dispatch ws wallet frame user now w).
Proof.
  unfold dispatch.
  repeat match goal with |- context [if ?c then _ else _] => destruct c end.
  - apply steps_reply.
  - apply steps_join_room.
  - apply steps_room_message.
  - apply steps_private_message.
  - apply steps_reply.
  - apply steps_reply.
  - apply steps_reply.
Qed.

Lemma send_text_with_limiter ws f l w :
  send_text ws f (with_limiter l w) = with_limiter l (send_text ws f w).
Proof. reflexivity. Qed.

Lemma commit_with_limiter d l w : commit d (with_limiter l w) = with_limiter l (commit d w).
Proof. reflexivity. Qed.

Lemma log_with_limiter e l w : log e (with_limiter l w) = with_limiter l (log e w).
Proof. reflexivity. Qed.

Lemma set_user_heartbeat_with_limiter wallet now l w :
  manager_set_user_heartbeat wallet now (with_limiter l w)
  = with_limiter l (manager_set_user_heartbeat wallet now w).
Proof.
  unfold manager_set_user_heartbeat. cbn [pubsub with_limiter].
  destruct (PubSub.is_connected (pubsub w)); reflexivity.
Qed.

Lemma store_message_cache_with_limiter room message now l w :
  manager_store_message_cache room message now (with_limiter l w)
  = with_limiter l (manager_store_message_cache room message now w).
Proof.
  unfold manager_store_message_cache. cbn [pubsub with_limiter].
  destruct (PubSub.is_connected (pubsub w)); reflexivity.
Qed.

Lemma publish_chat_message_with_limiter room message now l w :
  manager_publish_chat_message room message now (with_limiter l w)
  = with_limiter l (manager_publish_chat_message room message now w).
Proof.
  unfold manager_publish_chat_message. cbn [pubsub with_limiter].
  destruct (PubSub.is_connected (pubsub w)); reflexivity.
Qed.

Lemma join_room_with_limiter ws wallet frame user now l w :
  join_room ws wallet frame user now (with_limiter l w)
  = with_limiter l (join_room ws wallet frame user now w).
Proof.
  unfold join_room. cbn [db with_limiter].
  destruct (truthy_id (frame_room_id frame)) as [id|]; [|reflexivity].
  destruct (find_room id (db w)) as [room|]; [|reflexivity].
  match goal with |- context [if ?c then _ else _] => destruct c end; [reflexivity|].
  destruct (find_member id wallet (db w)).
  - cbn [pubsub with_limiter].
    destruct (PubSub.subscribe_to_channel _ _ _); reflexivity.
  - cbn [pubsub with_limiter commit log with_db].
    destruct (PubSub.subscribe_to_channel _ _ _); reflexivity.
Qed.

Lemma room_message_with_limiter ws wallet frame user now l w :
  room_message ws wallet frame user now (with_limiter l w)
  = with_limiter l (room_message ws wallet frame user now w).
Proof.
  unfold room_message. cbn [db with_limiter].
  destruct (truthy_id (frame_room_id frame)) as [id|]; [|reflexivity].
  destruct (truthy_str (frame_message frame)) as [text|]; [|reflexivity].
  destruct (find_member id wallet (db w)) as [member|]; [|reflexivity].
  destruct (can_send_messages member); [|reflexivity].
  rewrite commit_with_limiter, store_message_cache_with_limiter,
    publish_chat_message_with_limiter.
  reflexivity.
Qed.

Lemma private_message_with_limiter ws wallet frame now l w :
  private_message ws wallet frame now (with_limiter l w)
  = with_limiter l (private_message ws wallet frame now w).
Proof.
  unfold private_message. cbn [db with_limiter].
  destruct (truthy_str (frame_target_wallet frame)) as [target|]; [|reflexivity].
  destruct (truthy_str (frame_message frame)) as [text|]; reflexivity.
Qed.

Lemma dispatch_with_limiter ws wallet frame user now l w :
  dispatch ws wallet frame user now (with_limiter l w)
  = with_limiter l (dispatch ws wallet frame user now w).
Proof.
  unfold dispatch.
  repeat match goal with |- context [if ?c then _ else _] => destruct c end;
    try reflexivity.
  - apply join_room_with_limiter.
  - apply room_message_with_limiter.
  - apply private_message_with_limiter.
Qed.

Lemma handle_with_limiter cid (message_data : MessageData) user now l w :
  handle_websocket_message cid message_data user now (with_limiter l w)
  = with_limiter l (handle_websocket_message cid message_data user now w).
Proof.
  unfold handle_websocket_message. destruct message_data as [|frame]; [reflexivity|].
  cbn [auth with_limiter].
  destruct (get_connection cid (auth w)); [|reflexivity].
  rewrite set_user_heartbeat_with_limiter. apply dispatch_with_limiter.
Qed.

Lemma steps_set_user_heartbeat wallet now w :
  PubSub.is_connected (pubsub w) = true ->
  auth (manager_set_user_heartbeat wallet now w) = auth w /\
  limiter (manager_set_user_heartbeat wallet now w) = limiter w /\
  db (manager_set_user_heartbeat wallet now w) = db w /\
  PubSub.is_connected (pubsub (manager_set_user_heartbeat wallet now w)) = true /\
  PubSub.heartbeats (pubsub (manager_set_user_heartbeat wallet now w))
  = <[wallet := mkExpiring (PubSub.Iso now) (now + 60)%Q]> (PubSub.heartbeats (pubsub w)) /\
  effects (manager_set_user_heartbeat wallet now w) = effects w ++ [ESetHeartbeat wallet now].
Proof.
  intros Hc. unfold manager_set_user_heartbeat, PubSub.set_user_heartbeat. rewrite Hc. cbn.
  rewrite Hc. done.
Qed.

Lemma set_user_heartbeat_effects wallet now w :
  exists l, effects (manager_set_user_heartbeat wallet now w) = effects w ++ l /\
            forallb no_retry_after l = true.
Proof.
  unfold manager_set_user_heartbeat. destruct (PubSub.is_connected (pubsub w)).
  - by exists [ESetHeartbeat wallet now].
  - exists []. by rewrite app_nil_r.
Qed.

Lemma set_user_heartbeat_limiter wallet now w :
  limiter (manager_set_user_heartbeat wallet now w) = limiter w.
Proof. unfold manager_set_user_heartbeat. by destruct (PubSub.is_connected (pubsub w)). Qed.

Lemma heartbeat_listed (Callback : Type) (m : PubSub.RedisPubSubManager Callback)
    wallet e t :
  PubSub.is_connected m = true ->
  PubSub.heartbeats m !! wallet = Some e -> (t < expire_at e)%Q ->
  wallet ∈ PubSub.get_online_users t m.
Proof.
  intros Hc He Hlt. unfold PubSub.get_online_users, PubSub.heartbeat_keys. rewrite Hc.
  apply list_elem_of_fmap. exists (wallet, e). split; [reflexivity|].
  apply list_elem_of_In, filter_In. split.
  - apply list_elem_of_In, elem_of_map_to_list. exact He.
  - cbn. unfold live. by apply Qlt_bool_iff.
Qed.

Lemma gating_requirement_nfts room required :
  gating_requirement room = Some required -> required_nfts room = Some required.
Proof.
  unfold gating_requirement. destruct (room_type room =? "nft_gated")%string; [|discriminate].
  destruct (required_nfts room) as [[|nft rest]|]; [discriminate| |discriminate].
  by intros [= <-].
Qed.

Lemma new_effects_app w w' l : effects w' = effects w ++ l -> new_effects w w' = l.
Proof. intros H. unfold new_effects. rewrite H. apply drop_app_length. Qed.

Lemma pubsub_set_user_heartbeat wallet now w :
  pubsub (manager_set_user_heartbeat wallet now w)
  = PubSub.set_user_heartbeat wallet now (pubsub w).
Proof.
  unfold manager_set_user_heartbeat, PubSub.set_user_heartbeat.
  destruct (PubSub.is_connected (pubsub w)); reflexivity.
Qed.

Lemma subscriptions_set_user_heartbeat (Callback : Type) wallet now
    (m : PubSub.RedisPubSubManager Callback) :
  PubSub.subscriptions (PubSub.set_user_heartbeat wallet now m) = PubSub.subscriptions m.
Proof. unfold PubSub.set_user_heartbeat. by destruct (PubSub.is_connected m). Qed.

Lemma remove_connection_delete cid a :
  authenticated_connections (remove_connection cid a)
  = delete cid (authenticated_connections a).
Proof.
  unfold remove_connection. destruct (authenticated_connections a !! cid) eqn:E.
  - reflexivity.
  - symmetry. by apply delete_id.
Qed.

End RouterProps.

(** C1 (amended).  When the transport closes the endpoint removes the
    connection from the registry: it is no longer found by its id nor among
    the connections of any wallet.  Nothing else is touched: the pub/sub
    manager, and with it every channel's subscriber list, is what it was
    before the close, so a callback subscribed for the connection stays in
    place.  The endpoint as a whole, from the handshake to the close, leaves
    the pub/sub manager as it found it. *)
Theorem close_unregisters_and_keeps_subscriptions (connection_id : string)
    (w : Router.World) :
  RouterSpec.closed_connection_is_unregistered connection_id w
    (Router.cleanup connection_id w) /\
  (forall websocket auth_result frames,
     WsAuth.get_connection connection_id
       (Router.auth (Router.authenticated_websocket_chat connection_id websocket
                       auth_result frames w))
     = None) /\
  (forall websocket user_data frames,
     Router.pubsub (Router.authenticated_websocket_chat connection_id websocket
                      (Some user_data) frames w)
     = Router.pubsub (Router.serve connection_id websocket user_data frames w)) /\
  (forall websocket auth_result frames,
     Router.pubsub (Router.authenticated_websocket_chat connection_id websocket
                      auth_result frames w)
     = Router.pubsub w).
Proof.
  assert (Hgone : forall w0, WsAuth.get_connection connection_id
                               (Router.auth (Router.cleanup connection_id w0)) = None).
  { intros w0. unfold WsAuth.get_connection, Router.cleanup. cbn.
    rewrite RouterProps.remove_connection_delete. apply lookup_delete_eq. }
  split; [|split; [|split]].
  - split; [apply Hgone|]. split; [|done].
    intros wallet c Hin.
    unfold WsAuth.get_connections_by_wallet, WsAuth.connections, Router.cleanup in Hin.
    cbn in Hin. rewrite RouterProps.remove_connection_delete in Hin.
    apply list_elem_of_In, filter_In in Hin as [Hin Hw].
    apply list_elem_of_In, list_elem_of_fmap in Hin as ([other c'] & -> & Hin).
    apply elem_of_map_to_list in Hin. cbn in *.
    exists other. destruct (decide (other = connection_id)) as [->|Hne].
    + by rewrite lookup_delete_eq in Hin.
    + rewrite lookup_delete_ne in Hin by done. split; [done|]. split; [done|].
      by apply String.eqb_eq.
  - intros websocket [user_data|] frames; apply Hgone.
  - reflexivity.
  - intros websocket [user_data|] frames; reflexivity.
Qed.

(** C1 as stated fails: wallet A is registered as c1 on transport 7, the
    router handles its join of room 1 (the callback is subscribed before the
    call ends at its reply), and the [finally] block of the endpoint runs for
    c1.  Afterwards the connection is out of the registry, but the subscriber
    list of room:1 still holds its callback, and the listener still calls it
    for a message delivered on room:1. *)
Lemma closed_connection_stays_subscribed :
  WsAuth.get_connection "c1" (Router.auth RouterSpec.alice_registered)
  = Some (WsAuth.mkConnData 7 RouterSpec.alice "walletA") /\
  PubSub.subscriptions (Router.pubsub RouterSpec.alice_registered) !! "room:1" = None /\
  WsAuth.get_connection "c1" (Router.auth RouterSpec.alice_gone) = None /\
  PubSub.subscriptions (Router.pubsub RouterSpec.alice_gone) !! "room:1"
  = Some [Router.ForwardTo 7] /\
  FanOutSpec.call_of
    <$> snd (PubSub.listen_for_messages Router.websocket_message_callback
               [PubSub.mkPubSubMessage "message" "room:1" (Some (JStr "hello"))]
               (Router.pubsub RouterSpec.alice_gone) [])
  = [(Router.ForwardTo 7, "room:1", JStr "hello")].
Proof. vm_compute. repeat split; reflexivity. Qed.

(** C2 (amended).  The router does no rate limiting.  Handling a frame leaves
    the limiter as it was, does the same whatever the limiter holds, and writes
    no frame with a [retry_after] field; what an action does is decided by
    the validation, membership and NFT tests of its branch alone. *)
Theorem router_does_not_rate_limit (connection_id : string)
    (message_data : Router.Frame) (user_data : WsAuth.UserData) (now : Q)
    (w : Router.World) :
  RouterSpec.ignores_rate_limiter connection_id message_data user_data now w.
Proof.
  unfold RouterSpec.ignores_rate_limiter. cbv zeta.
  destruct (WsAuth.get_connection connection_id (Router.auth w)) as [conn_data|] eqn:Hconn.
  - set (wallet := WsAuth.wallet_address user_data).
    assert (Heq : Router.handle_websocket_message connection_id message_data user_data now w
                  = Router.dispatch (WsAuth.websocket conn_data) wallet message_data
                      user_data now (Router.manager_set_user_heartbeat wallet now w)).
    { unfold Router.handle_websocket_message. by rewrite Hconn. }
    destruct (RouterProps.steps_dispatch (WsAuth.websocket conn_data) wallet message_data
                user_data now (Router.manager_set_user_heartbeat wallet now w))
      as (_ & Hl & _ & _ & l2 & He2 & Hf2).
    destruct (RouterProps.set_user_heartbeat_effects wallet now w) as (l1 & He1 & Hf1).
    split; [|split].
    + rewrite Heq, Hl. apply RouterProps.set_user_heartbeat_limiter.
    + intros l. apply RouterProps.handle_with_limiter.
    + rewrite Heq. rewrite (RouterProps.new_effects_app w _ (l1 ++ l2)).
      * by rewrite forallb_app, Hf1, Hf2.
      * rewrite He2, He1, app_assoc. reflexivity.
  - assert (Heq : Router.handle_websocket_message connection_id message_data user_data now w
                  = w).
    { unfold Router.handle_websocket_message. by rewrite Hconn. }
    split; [by rewrite Heq|]. split.
    + intros l. apply RouterProps.handle_with_limiter.
    + rewrite Heq. unfold Router.new_effects. by rewrite drop_all.
Qed.

(** C2 as stated fails: the limiter holds a rule of one room_message per
    minute and has seen the request at 99, so a check at 100 is denied with
    retry-after 60.  The router, given a room_message frame at 100, stores the
    message, caches and publishes it, and writes no error frame; the limiter
    is not consulted. *)
Lemma router_acts_when_limiter_would_deny :
  let w := RouterSpec.alice_throttled in
  let w' := Router.handle_websocket_message "c1" (RouterSpec.say 1 "hello")
              RouterSpec.alice 100 w in
  (exists rl' i,
     RateLimiter.check_rate_limit (Router.limiter w) (RateLimiter.mkRequest "10.0.0.1")
       "room_message" (RateLimiterSpec.steady 100)
     = (rl', Some (false, RateLimiter.Full i)) /\
     RateLimiter.rl_retry_after i = Some 60%Z) /\
  Models.chat_messages (Router.db w) = [] /\
  Models.content <$> Models.chat_messages (Router.db w') = ["hello"] /\
  omap (fun e => match e with Router.EPublish channel => Some channel | _ => None end)
       (Router.new_effects w w') = ["room:1"] /\
  Router.sent_frames (Router.new_effects w w') = [].
Proof.
  cbv zeta. split; [|split; [|split; [|split]]].
  - eexists _, _. vm_compute. split; reflexivity.
  - vm_compute. reflexivity.
  - vm_compute. reflexivity.
  - vm_compute. reflexivity.
  - vm_compute. reflexivity.
Qed.

(** C9.  A join_room frame for a room of type nft_gated with a non-empty
    required list, from a connection whose NFT holdings contain none of the
    required ones, makes no subscription and no membership record: database,
    registry, limiter and subscriber lists are unchanged.  But no access-denied
    reply is sent: the call writes nothing to any transport and ends with the
    NameError of [json.dumps], raised where the reply is built and again in
    the handler that would report it.  All it has done before is the
    heartbeat write that precedes the dispatch. *)
Theorem gated_join_without_nft_gets_no_reply (connection_id : string)
    (message_data : Router.Frame) (user_data : WsAuth.UserData) (now : Q)
    (w : Router.World) (conn_data : WsAuth.ConnData)
    (id : Z) (room : Models.ChatRoom) (required : list string) :
  WsAuth.get_connection connection_id (Router.auth w) = Some conn_data ->
  Router.frame_type message_data = Some "join_room" ->
  Router.truthy_id (Router.frame_room_id message_data) = Some id ->
  Models.find_room id (Router.db w) = Some room ->
  Router.gating_requirement room = Some required ->
  Router.has_access user_data required = false ->
  RouterSpec.denied_without_reply (WsAuth.wallet_address user_data) now w
    (Router.handle_websocket_message connection_id message_data user_data now w).
Proof.
  intros Hconn Htype Hid Hroom Hgate Hno.
  set (wallet := WsAuth.wallet_address user_data).
  assert (Hdb : Router.db (Router.manager_set_user_heartbeat wallet now w) = Router.db w).
  { unfold Router.manager_set_user_heartbeat.
    by destruct (PubSub.is_connected (Router.pubsub w)). }
  assert (Heq : Router.handle_websocket_message connection_id message_data user_data now w
                = Router.raises "NameError"
                    (Router.manager_set_user_heartbeat wallet now w)).
  { unfold Router.handle_websocket_message. rewrite Hconn. unfold Router.dispatch.
    rewrite Htype. cbn [Router.is_type].
    change ("join_room" =? "heartbeat")%string with false.
    change ("join_room" =? "join_room")%string with true. cbv iota.
    unfold Router.join_room. fold wallet. rewrite Hid, Hdb, Hroom, Hgate, Hno. cbn [negb].
    apply RouterProps.reply_raises. }
  unfold RouterSpec.denied_without_reply. rewrite Heq.
  assert (Hnew : Router.new_effects w
                   (Router.raises "NameError"
                      (Router.manager_set_user_heartbeat wallet now w))
                 = (if PubSub.is_connected (Router.pubsub w)
                    then [Router.ESetHeartbeat wallet now] else [])
                   ++ [Router.ERaise "NameError"]).
  { apply RouterProps.new_effects_app. unfold Router.manager_set_user_heartbeat.
    destruct (PubSub.is_connected (Router.pubsub w)); cbn.
    - by rewrite <- app_assoc.
    - reflexivity. }
  split; [reflexivity|]. rewrite Hnew.
  split; [by destruct (PubSub.is_connected (Router.pubsub w))|].
  split; [by destruct (PubSub.is_connected (Router.pubsub w))|].
  split.
  { destruct (PubSub.is_connected (Router.pubsub w)); cbn.
    - apply Forall_cons_2; [by left|]. apply Forall_cons_2; [by right|]. apply Forall_nil_2.
    - apply Forall_cons_2; [by right|]. apply Forall_nil_2. }
  split; [exact Hdb|].
  split; [unfold Router.manager_set_user_heartbeat;
          by destruct (PubSub.is_connected (Router.pubsub w))|].
  split; [apply RouterProps.set_user_heartbeat_limiter|].
  split; [apply RouterProps.pubsub_set_user_heartbeat|].
  cbn. rewrite RouterProps.pubsub_set_user_heartbeat.
  apply RouterProps.subscriptions_set_user_heartbeat.
Qed.

(** The theorem for wallet A (holding nftY) asking to join room 2 (gated on
    nftX) at the instant 100. *)
Lemma gated_join_without_nft_gets_no_reply_witness :
  RouterSpec.denied_without_reply "walletA" 100 RouterSpec.alice_in_lobby
    (Router.handle_websocket_message "c1" (RouterSpec.join 2) RouterSpec.alice 100
       RouterSpec.alice_in_lobby).
Proof.
  apply (gated_join_without_nft_gets_no_reply "c1" (RouterSpec.join 2) RouterSpec.alice 100
           RouterSpec.alice_in_lobby
           (WsAuth.mkConnData 7 RouterSpec.alice "walletA") 2 RouterSpec.vault ["nftX"]).
  - vm_compute. reflexivity.
  - reflexivity.
  - reflexivity.
  - reflexivity.
  - reflexivity.
  - reflexivity.
Defined.

(** The denied join of wallet A at the instant 100, run: nothing is written
    to transport 7 or any other, the membership rows and the subscriber lists
    are those of before, and the effects of the call are the heartbeat write
    and the exception. *)
Example denied_join_of_wallet_a :
  let w := RouterSpec.alice_in_lobby in
  let w' := Router.handle_websocket_message "c1" (RouterSpec.join 2) RouterSpec.alice 100 w in
  Router.new_effects w w'
  = [Router.ESetHeartbeat "walletA" 100; Router.ERaise "NameError"] /\
  Models.room_members (Router.db w') = Models.room_members (Router.db w) /\
  PubSub.subscriptions (Router.pubsub w') !! "room:2" = None.
Proof. cbv zeta. split; [|split]; vm_compute; reflexivity. Qed.

(** C10 (amended).  For a registered connection and a pub/sub manager
    connected to Redis, handling a frame that is a JSON object, of any type
    (known, unknown or absent, answered or refused), first writes the
    heartbeat of the wallet with the instant of the frame: it is the first
    effect of the step, the key reads back that instant, and the wallet is
    listed online for the 60 seconds that follow.  A frame that is another
    JSON value ends the call with AttributeError before the heartbeat: it
    refreshes nothing. *)
Theorem object_frame_refreshes_heartbeat (connection_id : string)
    (message_data : Router.Frame) (user_data : WsAuth.UserData) (now : Q)
    (w : Router.World) (conn_data : WsAuth.ConnData) :
  WsAuth.get_connection connection_id (Router.auth w) = Some conn_data ->
  PubSub.is_connected (Router.pubsub w) = true ->
  RouterSpec.heartbeat_refreshed_first (WsAuth.wallet_address user_data) now w
    (Router.handle_websocket_message connection_id (Router.Dict message_data)
       user_data now w) /\
  RouterSpec.rejected_before_heartbeat w
    (Router.handle_websocket_message connection_id Router.NotADict user_data now w).
Proof.
  intros Hconn Hc. split.
  - unfold Router.handle_websocket_message. rewrite Hconn.
    set (wallet := WsAuth.wallet_address user_data).
    destruct (RouterProps.steps_set_user_heartbeat wallet now w Hc)
      as (_ & _ & _ & Hc1 & Hh1 & He1).
    destruct (RouterProps.steps_dispatch (WsAuth.websocket conn_data) wallet message_data
                user_data now (Router.manager_set_user_heartbeat wallet now w))
      as (_ & _ & Hh2 & Hc2 & l & He2 & _).
    specialize (Hc2 Hc1).
    set (w' := Router.dispatch _ _ _ _ _ _) in *.
    assert (Hentry : PubSub.heartbeats (Router.pubsub w') !! wallet
                     = Some (mkExpiring (PubSub.Iso now) (now + 60)%Q)).
    { rewrite Hh2, Hh1. apply lookup_insert_eq. }
    split; [|split].
    + exists l. rewrite He2, He1, <- app_assoc. reflexivity.
    + unfold PubSub.get_user_heartbeat. rewrite Hc2.
      rewrite (read_live now _ wallet _ Hentry); [reflexivity|]. cbn. lra.
    + intros t _ Ht. eapply RouterProps.heartbeat_listed; [exact Hc2|exact Hentry|exact Ht].
  - split; [|done]. by apply RouterProps.new_effects_app.
Qed.

(** The theorem for a frame of an unknown type from wallet A at the instant
    100. *)
Lemma object_frame_refreshes_heartbeat_witness :
  RouterSpec.heartbeat_refreshed_first "walletA" 100 RouterSpec.alice_in_lobby
    (Router.handle_websocket_message "c1"
       (Router.mkFrame (Some "dance") None None None) RouterSpec.alice 100
       RouterSpec.alice_in_lobby) /\
  RouterSpec.rejected_before_heartbeat RouterSpec.alice_in_lobby
    (Router.handle_websocket_message "c1" Router.NotADict RouterSpec.alice 100
       RouterSpec.alice_in_lobby).
Proof.
  apply (object_frame_refreshes_heartbeat "c1" (Router.mkFrame (Some "dance") None None None)
           RouterSpec.alice 100 RouterSpec.alice_in_lobby
           (WsAuth.mkConnData 7 RouterSpec.alice "walletA")).
  - vm_compute. reflexivity.
  - reflexivity.
Defined.

(** C10 as stated fails: wallet A, registered as c1 with Redis connected,
    last sent a frame at the instant 10.  At the instant 100 that heartbeat
    has expired; a frame that is a JSON list arrives.  The call ends with
    AttributeError, the heartbeat key is still absent and the wallet is not
    listed online; the same call with a JSON object of an unknown type writes
    the key. *)
Lemma non_object_frame_refreshes_nothing :
  let w := RouterSpec.alice_in_lobby in
  let w' := Router.handle_websocket_message "c1" Router.NotADict RouterSpec.alice 100 w in
  let w'' := Router.handle_websocket_message "c1"
               (Router.mkFrame (Some "dance") None None None) RouterSpec.alice 100 w in
  WsAuth.get_connection "c1" (Router.auth w)
  = Some (WsAuth.mkConnData 7 RouterSpec.alice "walletA") /\
  PubSub.is_connected (Router.pubsub w) = true /\
  Router.new_effects w w' = [Router.ERaise "AttributeError"] /\
  PubSub.get_user_heartbeat "walletA" 100 (Router.pubsub w') = None /\
  PubSub.get_online_users 100 (Router.pubsub w') = [] /\
  PubSub.get_user_heartbeat "walletA" 100 (Router.pubsub w'') = Some (PubSub.Iso 100) /\
  PubSub.get_online_users 100 (Router.pubsub w'') = ["walletA"].
Proof. cbv zeta. repeat split; vm_compute; reflexivity. Qed.

(** * Further properties of the code *)

(** ** Fixed windows *)

Module FixedWindowProps.
Import RateLimiter FixedWindowSpec.


Lemma window_bounds (t : Q) (ws idx : Z) :
  (0 < ws)%Z -> Qfloor (t / inject_Z ws) = idx ->
  (inject_Z idx * inject_Z ws <= t)%Q /\ (t < (inject_Z idx + 1) * inject_Z ws)%Q.
Proof.
  intros Hws Hidx.
  assert (Hpos : (0 < inject_Z ws)%Q).
  { change 0%Q with (inject_Z 0). by rewrite <- Zlt_Qlt. }
  pose proof (Qfloor_le (t / inject_Z ws)) as Hlo.
  pose proof (Qlt_floor (t / inject_Z ws)) as Hhi.
  rewrite Hidx in Hlo, Hhi. rewrite inject_Z_plus in Hhi. change (inject_Z 1) with 1%Q in Hhi.
  assert (Ht : (t == t / inject_Z ws * inject_Z ws)%Q) by (field; lra).
  split.
  - rewrite Ht at 1. apply Qmult_le_compat_r; lra.
  - rewrite Ht at 1. apply Qmult_lt_compat_r; lra.
Qed.

Section OneWindow.
Variable key : string.
Variable rule : RateLimitRule.
Variable idx : Z.
Hypothesis ws_pos : (0 < window_seconds rule)%Z.

Let ws : Z := window_seconds rule.
Let wkey : string * Z * Z := (key, ws, idx).

Local Abbreviation in_window := (FixedWindowSpec.in_window rule idx).
Local Abbreviation counter_at := (FixedWindowSpec.counter_at key rule idx).

Lemma counter_at_read s c t :
  counter_at s c -> in_window t -> default 0%Z (read t (counters s) wkey) = c.
Proof.
  intros [[-> Hnone]|(e & t0 & He & Hv & Ht0 & Hex)] Ht.
  - unfold read, wkey, ws. by rewrite Hnone.
  - rewrite (read_live t _ wkey e He); [by rewrite Hv|].
    rewrite Hex. fold ws.
    destruct (window_bounds t ws idx ws_pos Ht) as [_ Hhi].
    destruct (window_bounds t0 ws idx ws_pos Ht0) as [Hlo _]. lra.
Qed.

Lemma check_in_window s c t :
  counter_at s c -> in_window t ->
  exists s' info,
    _check_fixed_window key rule t s = Some (s', ((c + 1 <=? limit rule)%Z, info)) /\
    counter_at s' (c + 1) /\
    (forall k, k <> wkey -> counters s' !! k = counters s !! k) /\
    retry_after info = (if (limit rule <? c + 1)%Z then Some ws else None).
Proof.
  intros Hc Ht. unfold _check_fixed_window. fold ws.
  assert (Hne : (ws =? 0)%Z = false) by (apply Z.eqb_neq; unfold ws; lia).
  rewrite Hne. unfold FixedWindowSpec.in_window in Ht. fold ws in Ht. rewrite Ht. fold wkey.
  rewrite (counter_at_read s c t Hc Ht).
  eexists _, _. split; [reflexivity|]. split; [|split].
  - right. eexists _, t. cbn. rewrite lookup_insert_eq. done.
  - intros k Hk. cbn. by rewrite lookup_insert_ne.
  - reflexivity.
Qed.

Lemma replay_in_window times : forall s c,
  counter_at s c -> Forall in_window times ->
  exists s', replay _check_fixed_window key rule times s
             = Some (s', count_up (limit rule) c (length times)) /\
             counter_at s' (c + Z.of_nat (length times)) /\
             (forall k, k <> wkey -> counters s' !! k = counters s !! k).
Proof.
  induction times as [|t rest IH]; intros s c Hc Hall.
  - exists s. cbn. rewrite Z.add_0_r. done.
  - inversion Hall as [|? ? Ht Hrest]; subst.
    destruct (check_in_window s c t Hc Ht) as (s1 & info & Hchk & Hc1 & Hframe1 & _).
    destruct (IH s1 (c + 1)%Z Hc1 Hrest) as (s' & Hrun & Hc' & Hframe').
    exists s'. cbn [replay length count_up]. rewrite Hchk, Hrun.
    split; [reflexivity|]. split.
    + replace (c + Z.of_nat (S (length rest)))%Z with (c + 1 + Z.of_nat (length rest))%Z by lia.
      exact Hc'.
    + intros k Hk. rewrite Hframe' by done. by apply Hframe1.
Qed.

End OneWindow.

Lemma count_up_over limit (n : nat) : forall c,
  (limit <= c)%Z -> count_up limit c n = repeat false n.
Proof.
  induction n as [|n IH]; intros c Hc; [reflexivity|].
  cbn [count_up repeat]. destruct (Z.leb_spec (c + 1) limit); [lia|].
  f_equal. apply IH. lia.
Qed.

(** From an empty counter: the first [limit] checks pass, the rest do not. *)
Lemma count_up_split limit (n : nat) : forall c,
  (0 <= c)%Z -> (c <= limit)%Z ->
  count_up limit c n
  = repeat true (Nat.min n (Z.to_nat (limit - c)))
    ++ repeat false (n - Z.to_nat (limit - c)).
Proof.
  induction n as [|n IH]; intros c Hc Hle; [reflexivity|].
  cbn [count_up]. destruct (Z.leb_spec (c + 1) limit) as [Hin|Hout].
  - rewrite IH by lia.
    replace (Z.to_nat (limit - c)) with (S (Z.to_nat (limit - (c + 1)))) by lia.
    reflexivity.
  - assert (limit = c) as -> by lia. rewrite Z.sub_diag. cbn.
    rewrite count_up_over by lia. reflexivity.
Qed.

Lemma Forall_repeat {A} (P : A -> Prop) (x : A) (n : nat) : P x -> Forall P (repeat x n).
Proof. intros Hx. induction n; cbn; by constructor. Qed.

Lemma count_up_all limit :
  count_up limit 0 (Z.to_nat limit) = repeat true (Z.to_nat limit).
Proof.
  destruct (Z.le_gt_cases 0 limit) as [Hl|Hl].
  - rewrite count_up_split by lia. rewrite Z.sub_0_r.
    by rewrite Nat.min_id, Nat.sub_diag, app_nil_r.
  - replace (Z.to_nat limit) with 0%nat by lia. reflexivity.
Qed.

End FixedWindowProps.

Import RateLimiter.

(** X1.  Fixed window: in one calendar window whose counter does not exist yet,
    the first [limit] checks are allowed and every later check of the window
    is denied, whatever the order of the instants inside the window. *)
Theorem fixed_window_allows_limit_per_window (key : string) (rule : RateLimitRule)
    (idx : Z) (times : list Q) (s : Store) :
  (0 < window_seconds rule)%Z -> (0 <= limit rule)%Z ->
  counters s !! (key, window_seconds rule, idx) = None ->
  Forall (fun t => Qfloor (t / inject_Z (window_seconds rule)) = idx) times ->
  exists s',
    replay _check_fixed_window key rule times s
    = Some (s', repeat true (Nat.min (length times) (Z.to_nat (limit rule)))
                ++ repeat false (length times - Z.to_nat (limit rule))).
Proof.
  intros Hws Hlim Hnone Hall.
  destruct (FixedWindowProps.replay_in_window key rule idx Hws times s 0%Z)
    as (s' & Hrun & _ & _).
  - left. done.
  - exact Hall.
  - exists s'. rewrite Hrun. f_equal. f_equal.
    rewrite FixedWindowProps.count_up_split by lia. by rewrite Z.sub_0_r.
Qed.

Lemma fixed_window_allows_limit_per_window_witness :
  exists s',
    replay _check_fixed_window "rate_limit:10.0.0.1"
      (new_rule 2 60 PER_MINUTE None None) [120; 150; 121; 179]%Q empty_store
    = Some (s', [true; true; false; false]).
Proof.
  destruct (fixed_window_allows_limit_per_window "rate_limit:10.0.0.1"
              (new_rule 2 60 PER_MINUTE None None) 2 [120; 150; 121; 179]%Q empty_store)
    as (s' & Hrun).
  - reflexivity.
  - vm_compute. discriminate.
  - reflexivity.
  - repeat constructor.
  - exists s'. exact Hrun.
Defined.

(** X2.  Fixed window: the counters of two windows are apart, so [limit] checks at
    the end of one window and [limit] checks at the start of the next are all
    allowed, however close the two instants are. *)
Theorem fixed_window_burst_across_boundary (key : string) (rule : RateLimitRule)
    (t1 t2 : Q) (s : Store) :
  let ws := window_seconds rule in
  let n := Z.to_nat (limit rule) in
  (0 < ws)%Z ->
  Qfloor (t1 / inject_Z ws) <> Qfloor (t2 / inject_Z ws) ->
  counters s !! (key, ws, Qfloor (t1 / inject_Z ws)) = None ->
  counters s !! (key, ws, Qfloor (t2 / inject_Z ws)) = None ->
  exists s',
    replay _check_fixed_window key rule (repeat t1 n ++ repeat t2 n) s
    = Some (s', repeat true (n + n)).
Proof.
  intros ws n Hws Hne H1 H2.
  destruct (FixedWindowProps.replay_in_window key rule (Qfloor (t1 / inject_Z ws)) Hws
              (repeat t1 n) s 0%Z) as (s1 & Hrun1 & _ & Hframe).
  { left. done. }
  { by apply FixedWindowProps.Forall_repeat. }
  destruct (FixedWindowProps.replay_in_window key rule (Qfloor (t2 / inject_Z ws)) Hws
              (repeat t2 n) s1 0%Z) as (s2 & Hrun2 & _ & _).
  { left. split; [done|]. rewrite Hframe; [exact H2|]. intros [= E]. by apply Hne. }
  { by apply FixedWindowProps.Forall_repeat. }
  exists s2. rewrite (TokenBucketProps.replay_app key rule _ _ _ _ _ _ Hrun1), Hrun2.
  rewrite !repeat_length.
  fold n. unfold n. rewrite FixedWindowProps.count_up_all. by rewrite repeat_app.
Qed.

Lemma fixed_window_burst_across_boundary_witness :
  exists s',
    replay _check_fixed_window "rate_limit:10.0.0.1"
      (new_rule 2 60 PER_MINUTE None None)
      [1199 # 10; 1199 # 10; 1201 # 10; 1201 # 10]%Q empty_store
    = Some (s', [true; true; true; true]).
Proof.
  apply (fixed_window_burst_across_boundary "rate_limit:10.0.0.1"
           (new_rule 2 60 PER_MINUTE None None) (1199 # 10) (1201 # 10) empty_store).
  - reflexivity.
  - vm_compute. discriminate.
  - reflexivity.
  - reflexivity.
Defined.

(** ** Retry hints and statistics *)

Import RateLimiter RetrySpec.

Module RetryProps.

(** A sliding-window check that finds no set counts nothing. *)
Lemma sliding_check_on_absent key rule t s :
  read t (zsets s) key = None ->
  exists s' info,
    _check_sliding_window key rule t s = (s', ((0 <? limit rule)%Z, info)) /\
    remaining info = Z.max 0 (limit rule - 0 - 1).
Proof.
  intros Hnone. unfold _check_sliding_window. rewrite Hnone.
  eexists _, _. split; reflexivity.
Qed.

End RetryProps.

(** X4.  Sliding window: the sorted set outlives its last check by exactly one
    window, so a check one window after any check of the key counts nothing:
    the [retry_after] of a denial (the window) is long enough whenever the
    limit is positive. *)
Theorem sliding_window_retry_after_suffices (key : string) (rule : RateLimitRule)
    (now : Q) (s s' : Store) (info : Info) (r : Z) :
  (1 <= limit rule)%Z ->
  _check_sliding_window key rule now s = (s', (false, info)) ->
  retry_after info = Some r ->
  exists s'' info',
    _check_sliding_window key rule (now + inject_Z r) s' = (s'', (true, info')) /\
    remaining info' = (limit rule - 1)%Z.
Proof.
  intros HL Hdeny Hr. unfold _check_sliding_window in Hdeny.
  injection Hdeny as <- Hok <-. cbn in Hr. rewrite Hok in Hr. injection Hr as <-.
  destruct (RetryProps.sliding_check_on_absent key rule (now + inject_Z (window rule))
              (mkStore
                 (<[key := mkExpiring
                      (zadd now (zremrangebyscore 0 (now - inject_Z (window rule))
                                   (default [] (read now (zsets s) key))))
                      (now + inject_Z (window rule))%Q]> (zsets s))
                 (buckets s) (counters s)))
    as (s'' & info' & Hchk & Hrem).
  { unfold read, live. cbn [zsets]. rewrite lookup_insert_eq. cbn.
    assert (E : Qlt_bool (now + inject_Z (window rule)) (now + inject_Z (window rule)) = false)
      by (apply Qlt_bool_false; lra).
    by rewrite E. }
  exists s'', info'. rewrite Hchk, Hrem.
  replace (0 <? limit rule)%Z with true by (symmetry; apply Z.ltb_lt; lia).
  split; [reflexivity|lia].
Qed.

Lemma sliding_window_retry_after_suffices_witness :
  let rule := new_rule 1 60 SLIDING_WINDOW None None in
  let s := store_after sliding_window_check "k" rule [100]%Q empty_store in
  exists s' info s'' info',
    _check_sliding_window "k" rule 110 s = (s', (false, info)) /\
    retry_after info = Some 60%Z /\
    _check_sliding_window "k" rule (110 + inject_Z 60) s' = (s'', (true, info')).
Proof.
  cbv zeta.
  set (rule := new_rule 1 60 SLIDING_WINDOW None None).
  set (s := store_after sliding_window_check "k" rule [100]%Q empty_store).
  destruct (_check_sliding_window "k" rule 110 s) as [s' [ok info]] eqn:Hdeny.
  assert (Hs : ok = false /\ retry_after info = Some 60%Z).
  { vm_compute in Hdeny. injection Hdeny as _ <- <-. split; reflexivity. }
  destruct Hs as (-> & Hr).
  destruct (sliding_window_retry_after_suffices "k" rule 110 s s' info 60)
    as (s'' & info' & Hok & _).
  - vm_compute. discriminate.
  - exact Hdeny.
  - exact Hr.
  - exists s', info, s'', info'. done.
Defined.

Module StatsProps.
Import RateLimiterStats.

Lemma py_int_inject (z : Z) : py_int (inject_Z z) = z.
Proof. unfold py_int. cbn. apply Z.quot_1_r. Qed.

Lemma py_int_floor (q : Q) : (0 <= q)%Q -> py_int q = Qfloor q.
Proof.
  destruct q as [n d]. unfold Qle. cbn. intros Hn.
  unfold py_int. cbn. apply Z.quot_div_nonneg; lia.
Qed.

(** [int(float(x))] is [int(x)] for an [x] that is a double. *)
Lemma py_int_fl (q : Q) :
  (0 <= q)%Q -> (Float64.fl q == q)%Q -> py_int (Float64.fl q) = py_int q.
Proof.
  intros Hq Hfl. rewrite !py_int_floor; [by rewrite Hfl|exact Hq|by rewrite Hfl].
Qed.

(** What an allowed token-bucket check leaves under the bucket key: a count
    that is not negative and is a double, with the [remaining] it reported. *)
Lemma allowed_check_stores key rule now s s' info :
  (Z.abs (burst_limit rule) <= 2 ^ 53)%Z ->
  _check_token_bucket key rule now s = Some (s', (true, info)) ->
  exists tk,
    buckets s' = <[key +:+ ":bucket" := mkExpiring (mkBucket tk now)
                                           (now + inject_Z (window rule * 2))%Q]> (buckets s) /\
    remaining info = py_int tk /\ (0 <= tk)%Q /\ (Float64.fl tk == tk)%Q.
Proof.
  intros HB Hchk. unfold _check_token_bucket in Hchk. cbv zeta in Hchk.
  assert (Hint : (0 <= inject_Z (burst_limit rule) - 1)%Q ->
                 (Float64.fl (inject_Z (burst_limit rule) - 1)
                  == inject_Z (burst_limit rule) - 1)%Q).
  { intros H0. apply (Float64Props.fl_integer _ (burst_limit rule - 1)).
    - unfold Z.sub. rewrite inject_Z_plus, inject_Z_opp. reflexivity.
    - assert (H1 : (1 <= burst_limit rule)%Z).
      { rewrite Zle_Qle. change (inject_Z 1) with 1%Q. lra. }
      lia. }
  assert (Hfinish : forall tk,
            (Float64.fl tk == tk)%Q \/ tk = (inject_Z (burst_limit rule) - 1)%Q ->
            (if Qle_bool 0 tk
             then Some (mkStore (zsets s)
                          (<[key +:+ ":bucket" := mkExpiring (mkBucket tk now)
                                                    (now + inject_Z (window rule * 2))%Q]>
                             (buckets s)) (counters s),
                        (true, {| info_limit := limit rule; remaining := py_int tk;
                                  reset_time := None; retry_after := None |}))
             else if ((window rule =? 0) || (limit rule =? 0))%Z then None
                  else Some (s, (false,
                        {| info_limit := limit rule; remaining := 0; reset_time := None;
                           retry_after :=
                             Some (py_int
                                     (Float64.fl
                                        (Float64.fl (1 - tk)
                                         / Float64.fl (inject_Z (limit rule)
                                                       / inject_Z (window rule))))) |})))
            = Some (s', (true, info)) ->
            exists tk0,
              buckets s' = <[key +:+ ":bucket" := mkExpiring (mkBucket tk0 now)
                               (now + inject_Z (window rule * 2))%Q]> (buckets s) /\
              remaining info = py_int tk0 /\ (0 <= tk0)%Q /\ (Float64.fl tk0 == tk0)%Q).
  { intros tk Htk H. destruct (Qle_bool 0 tk) eqn:Hok.
    - injection H as <- <-. exists tk. apply Qle_bool_iff in Hok.
      split; [reflexivity|]. split; [reflexivity|]. split; [exact Hok|].
      destruct Htk as [Htk| ->]; [exact Htk|by apply Hint].
    - destruct ((window rule =? 0) || (limit rule =? 0))%Z; discriminate. }
  destruct (read now (buckets s) (key +:+ ":bucket")) as [b|].
  - destruct (window rule =? 0)%Z; [discriminate|].
    match type of Hchk with context [if Qlt_bool ?x ?y then _ else _] =>
      destruct (Qlt_bool x y) end.
    + apply (Hfinish _ (or_introl (Float64Props.fl_idempotent_eq _)) Hchk).
    + apply (Hfinish _ (or_intror eq_refl) Hchk).
  - apply (Hfinish _ (or_intror eq_refl) Hchk).
Qed.

Lemma filter_all {A} (f : A -> bool) (l : list A) :
  Forall (fun x => f x = true) l -> List.filter f l = l.
Proof.
  induction l as [|x l IH]; intros H; [reflexivity|].
  inversion H as [|? ? Hx Hl]; subst. cbn. rewrite Hx. f_equal. by apply IH.
Qed.

Lemma Forall_filter {A} (P : A -> Prop) (f : A -> bool) (l : list A) :
  Forall P l -> Forall (fun x => P x /\ f x = true) (List.filter f l).
Proof.
  induction l as [|x l IH]; intros H; [constructor|].
  inversion H as [|? ? Hx Hl]; subst. cbn. destruct (f x) eqn:E.
  - constructor; [done|]. by apply IH.
  - by apply IH.
Qed.

End StatsProps.

Import RateLimiterStats.

(** X5.  Statistics of a token-bucket rule, for a burst limit within the
    integers a double holds exactly (at most 2^53 in size), show what the
    last allowed check left in the bucket: before the bucket key expires
    they equal the [remaining] of that check, with no refill for the time
    passed, and after the expiry they show the full burst limit. *)
Theorem stats_show_last_token_count (user_key : string) (rule : RateLimitRule)
    (now t : Q) (s s' : Store) (info : Info) :
  limit_type rule = TOKEN_BUCKET ->
  (Z.abs (burst_limit rule) <= 2 ^ 53)%Z ->
  _check_token_bucket ("rate_limit:" +:+ user_key) rule now s = Some (s', (true, info)) ->
  ((t < now + inject_Z (window rule * 2))%Q ->
   stats_remaining_of user_key rule t s' = remaining info) /\
  ((now + inject_Z (window rule * 2) < t)%Q ->
   stats_remaining_of user_key rule t s' = burst_limit rule).
Proof.
  intros Htype HB Hchk. unfold stats_remaining_of. rewrite Htype.
  destruct (StatsProps.allowed_check_stores _ _ _ _ _ _ HB Hchk)
    as (tk & -> & -> & Htk0 & Hfl).
  split; intros Ht.
  - rewrite (read_insert_live t _ _ _ _ Ht). cbn [tokens].
    by apply StatsProps.py_int_fl.
  - unfold read, live. rewrite lookup_insert_eq. cbn [expire_at value].
    assert (E : Qlt_bool t (now + inject_Z (window rule * 2)) = false)
      by (apply Qlt_bool_false; lra).
    rewrite E.
    rewrite (Float64Props.fl_inject_Z _ HB). apply StatsProps.py_int_inject.
Qed.

(** A burst of 50 with 20 tokens per minute: after one check at 1000 the
    statistics show 49 at 1100 and, after the key has run out at 1120, 50 at
    1121. *)
Lemma stats_show_last_token_count_witness :
  let rule := new_rule 20 60 TOKEN_BUCKET (Some 50%Z) None in
  exists s' info,
    _check_token_bucket "rate_limit:alice" rule 1000 empty_store = Some (s', (true, info)) /\
    stats_remaining_of "alice" rule 1100 s' = 49%Z /\
    stats_remaining_of "alice" rule 1121 s' = 50%Z.
Proof.
  cbv zeta. set (rule := new_rule 20 60 TOKEN_BUCKET (Some 50%Z) None).
  destruct (_check_token_bucket "rate_limit:alice" rule 1000 empty_store)
    as [[s' [ok info]]|] eqn:Hchk; [|vm_compute in Hchk; discriminate].
  assert (Hok : ok = true /\ remaining info = 49%Z).
  { vm_compute in Hchk. injection Hchk as _ <- <-. split; reflexivity. }
  destruct Hok as [-> Hrem].
  exists s', info. split; [reflexivity|].
  change "rate_limit:alice" with ("rate_limit:" +:+ "alice") in Hchk.
  assert (HB : (Z.abs (burst_limit rule) <= 2 ^ 53)%Z) by (vm_compute; discriminate).
  split.
  - rewrite <- Hrem.
    apply (proj1 (stats_show_last_token_count "alice" rule 1000 1100 empty_store s' info
                    eq_refl HB Hchk)).
    vm_compute. reflexivity.
  - apply (proj2 (stats_show_last_token_count "alice" rule 1000 1121 empty_store s' info
                    eq_refl HB Hchk)).
    vm_compute. reflexivity.
Defined.


(** X6.  Statistics of a sliding-window rule agree with the check that was just
    made: when the check is later than every recorded request of the key,
    [get_user_stats] at the same instant reports the [remaining] the check
    returned. *)
Theorem stats_agree_with_sliding_check (user_key : string) (rule : RateLimitRule)
    (now : Q) (s s' : Store) (ok : bool) (info : Info) :
  limit_type rule = SLIDING_WINDOW -> (0 < window rule)%Z ->
  Forall (fun x => (0 <= x)%Q /\ (x < now)%Q)
         (default [] (read now (zsets s) ("rate_limit:" +:+ user_key))) ->
  _check_sliding_window ("rate_limit:" +:+ user_key) rule now s = (s', (ok, info)) ->
  stats_remaining_of user_key rule now s' = remaining info.
Proof.
  intros Htype HW Hold Hchk. unfold stats_remaining_of. rewrite Htype.
  assert (HWq : (0 < inject_Z (window rule))%Q).
  { change 0%Q with (inject_Z 0). by rewrite <- Zlt_Qlt. }
  unfold _check_sliding_window in Hchk. injection Hchk as <- _ <-.
  cbn [zsets remaining].
  set (old := default [] (read now (zsets s) ("rate_limit:" +:+ user_key))) in *.
  set (purged := zremrangebyscore 0 (now - inject_Z (window rule)) old).
  assert (Hp : Forall (fun x => ((0 <= x)%Q /\ (x < now)%Q) /\
                 negb (Qle_bool 0 x && Qle_bool x (now - inject_Z (window rule))) = true)
                 purged) by (by apply StatsProps.Forall_filter).
  assert (Hlt : Forall (fun x => (x < now)%Q) purged).
  { eapply Forall_impl; [exact Hp|]. cbn. tauto. }
  rewrite (SlidingWindowProps.zadd_new now purged Hlt).
  rewrite read_insert_live by lra. cbn [default from_option id].
  unfold zcount. rewrite StatsProps.filter_all.
  - rewrite length_app. cbn [length]. unfold zcard. lia.
  - apply Forall_app. split.
    + eapply Forall_impl; [exact Hp|]. cbn. intros x [[Hx0 Hxn] Hkeep].
      apply negb_true_iff, andb_false_iff in Hkeep as [Hk|Hk].
      * apply Qle_bool_false in Hk. lra.
      * apply Qle_bool_false in Hk.
        apply andb_true_iff. split; apply Qle_bool_iff; lra.
    + repeat constructor. apply andb_true_iff. split; apply Qle_bool_iff; lra.
Qed.

Lemma stats_agree_with_sliding_check_witness :
  let rule := new_rule 5 60 SLIDING_WINDOW None None in
  let s := store_after sliding_window_check "rate_limit:alice" rule [100; 101]%Q empty_store in
  exists s' ok info,
    _check_sliding_window "rate_limit:alice" rule 102 s = (s', (ok, info)) /\
    remaining info = 2%Z /\
    stats_remaining_of "alice" rule 102 s' = 2%Z.
Proof.
  cbv zeta. set (rule := new_rule 5 60 SLIDING_WINDOW None None).
  set (s := store_after sliding_window_check "rate_limit:alice" rule [100; 101]%Q empty_store).
  destruct (_check_sliding_window "rate_limit:alice" rule 102 s) as [s' [ok info]] eqn:Hchk.
  assert (Hrem : remaining info = 2%Z).
  { vm_compute in Hchk. by injection Hchk as _ _ <-. }
  exists s', ok, info. split; [reflexivity|]. split; [exact Hrem|].
  rewrite <- Hrem.
  change "rate_limit:alice" with ("rate_limit:" +:+ "alice") in Hchk.
  apply (stats_agree_with_sliding_check "alice" rule 102 s s' ok info eq_refl).
  - reflexivity.
  - vm_compute. repeat constructor; discriminate.
  - exact Hchk.
Defined.

(** ** Message cache, channels and the heartbeat sweep *)

Import PubSub CacheSpec SweepSpec.




Module CacheProps.

Section AnyCallback.
Context {Callback : Type}.
Implicit Types m : RedisPubSubManager Callback.


Lemma lrange_nil {A} (stop : Z) : lrange 0 stop (@nil A) = [].
Proof.
  unfold lrange. change (0 <? 0)%Z with false. cbv iota.
  match goal with |- (if ?c then _ else _) = _ => destruct c eqn:E end; [reflexivity|].
  apply Z.ltb_ge in E. cbn [length Z.of_nat] in E. destruct (stop <? 0)%Z; lia.
Qed.

Lemma lrange_positive {A} (limit : Z) (l : list A) :
  (0 < limit)%Z -> lrange 0 (limit - 1) l = take (Z.to_nat limit) l.
Proof.
  intros Hl. unfold lrange. change (0 <? 0)%Z with false. cbv iota.
  destruct (limit - 1 <? 0)%Z eqn:E1; [apply Z.ltb_lt in E1; lia|].
  destruct (Z.min (limit - 1) (Z.of_nat (length l) - 1) <? 0)%Z eqn:E2.
  - apply Z.ltb_lt in E2. destruct l as [|x l]; [by rewrite take_nil|].
    rewrite length_cons in E2. lia.
  - apply Z.ltb_ge in E2. change (Z.to_nat 0) with 0%nat. rewrite drop_0.
    destruct (Z.le_gt_cases limit (Z.of_nat (length l))).
    + replace (Z.to_nat _) with (Z.to_nat limit) by lia. done.
    + rewrite !take_ge; [done|lia|lia].
Qed.

Lemma lrange_non_positive {A} (limit : Z) (l : list A) :
  (limit <= 0)%Z ->
  lrange 0 (limit - 1) l = take (Z.to_nat (Z.of_nat (length l) + limit)) l.
Proof.
  intros Hl. unfold lrange. change (0 <? 0)%Z with false. cbv iota.
  destruct (limit - 1 <? 0)%Z eqn:E1; [|apply Z.ltb_ge in E1; lia].
  destruct (Z.min _ _ <? 0)%Z eqn:E2.
  - apply Z.ltb_lt in E2. replace (Z.to_nat _) with 0%nat by lia. done.
  - apply Z.ltb_ge in E2. change (Z.to_nat 0) with 0%nat. rewrite drop_0.
    match goal with |- take ?a _ = take ?b _ => replace a with b by lia end. done.
Qed.

Lemma take_app_take {A} (n : nat) (a b : list A) :
  take n (a ++ take n b) = take n (a ++ b).
Proof.
  rewrite !take_app. f_equal. rewrite take_take. f_equal. lia.
Qed.

Lemma store_connected room ttl message t m :
  is_connected m = true ->
  is_connected (store_message_cache room message ttl t m) = true.
Proof. intros Hc. unfold store_message_cache. by rewrite Hc. Qed.

Lemma store_all_read room ttl items : forall m cur t,
  is_connected m = true ->
  default [] (read (next_time items t) (recent_messages m) room) = cur ->
  (length cur <= 100)%nat ->
  kept_alive ttl (snd <$> items) t ->
  default [] (read t (recent_messages (store_all room ttl items m)) room)
  = take 100 (rev (fst <$> items) ++ cur).
Proof.
  induction items as [|[message t0] rest IH]; intros m cur t Hc Hcur Hlen Halive.
  - cbn in *. rewrite Hcur. by rewrite take_ge.
  - cbn [store_all fmap list_fmap fst rev]. cbn [next_time] in Hcur.
    rewrite (IH (store_message_cache room message ttl t0 m) (take 100 (message :: cur)) t).
    + rewrite <- app_assoc. cbn [app]. apply take_app_take.
    + by apply store_connected.
    + unfold store_message_cache. rewrite Hc. cbn [recent_messages]. rewrite Hcur.
      rewrite read_insert_live; [reflexivity|].
      cbn in Halive. destruct rest as [|[m1 t1] rest']; cbn in *; [exact Halive|tauto].
    + rewrite length_take. lia.
    + cbn in Halive. destruct rest as [|[m1 t1] rest']; cbn in *; [done|tauto].
Qed.

End AnyCallback.

End CacheProps.

(** X7.  The message cache of a room: for a connected manager and a room without
    a list, after the messages were stored one after the other, each before
    the list ran out, a read before it runs out returns, oldest first, the
    range 0 to [limit - 1] of the last 100 messages, newest first: for a
    positive [limit] the [limit] newest of them, for [limit] 0 all of them
    (the range 0 to -1 is the whole list), for a negative [limit] all but the
    [- limit] oldest.  A read more than [ttl] seconds after the last store
    returns nothing. *)
Theorem recent_messages_round_trip {Callback : Type} (m : RedisPubSubManager Callback)
    (room_id : string) (ttl : Z) (items : list (Json * Q)) (limit : Z) (t : Q) :
  is_connected m = true ->
  recent_messages m !! room_id = None ->
  kept_alive ttl (snd <$> items) t ->
  ((0 < limit)%Z ->
   get_recent_messages room_id limit t (store_all room_id ttl items m)
   = rev (take (Nat.min (Z.to_nat limit) 100) (rev (fst <$> items)))) /\
  (limit = 0%Z ->
   get_recent_messages room_id limit t (store_all room_id ttl items m)
   = rev (take 100 (rev (fst <$> items)))) /\
  ((limit <= 0)%Z ->
   get_recent_messages room_id limit t (store_all room_id ttl items m)
   = rev (take (Z.to_nat (Z.of_nat (Nat.min (length items) 100) + limit))
               (take 100 (rev (fst <$> items))))) /\
  (forall message t0 t1,
     (t0 + inject_Z ttl < t1)%Q ->
     get_recent_messages room_id limit t1
       (store_message_cache room_id message ttl t0 (store_all room_id ttl items m)) = []).
Proof.
  intros Hc Hnone Halive.
  assert (Hcs : forall items' (m' : RedisPubSubManager Callback),
            is_connected m' = true -> is_connected (store_all room_id ttl items' m') = true).
  { induction items' as [|[x tx] rest IH]; intros m' Hm'; [exact Hm'|].
    cbn. apply IH. by apply CacheProps.store_connected. }
  assert (Hread : default [] (read t (recent_messages (store_all room_id ttl items m)) room_id)
                  = take 100 (rev (fst <$> items))).
  { rewrite (CacheProps.store_all_read room_id ttl items m [] t Hc).
    - by rewrite app_nil_r.
    - unfold read. by rewrite Hnone.
    - cbn. lia.
    - exact Halive. }
  assert (Hlen : length (take 100 (rev (fst <$> items))) = Nat.min (length items) 100).
  { rewrite length_take, length_rev, length_fmap. lia. }
  assert (Hnon : (limit <= 0)%Z ->
            get_recent_messages room_id limit t (store_all room_id ttl items m)
            = rev (take (Z.to_nat (Z.of_nat (Nat.min (length items) 100) + limit))
                        (take 100 (rev (fst <$> items))))).
  { intros Hl. unfold get_recent_messages. rewrite (Hcs items m Hc), Hread.
    rewrite (CacheProps.lrange_non_positive limit _ Hl). by rewrite Hlen. }
  split; [|split; [|split]].
  - intros Hl. unfold get_recent_messages. rewrite (Hcs items m Hc), Hread.
    rewrite (CacheProps.lrange_positive limit _ Hl). by rewrite take_take.
  - intros ->. rewrite Hnon by lia. f_equal. apply take_ge. rewrite Hlen. lia.
  - exact Hnon.
  - intros message t0 t1 Ht. unfold get_recent_messages.
    rewrite (CacheProps.store_connected _ _ _ _ _ (Hcs items m Hc)).
    unfold store_message_cache. rewrite (Hcs items m Hc). cbn [recent_messages].
    unfold read, live. rewrite lookup_insert_eq. cbn [expire_at].
    assert (E : Qlt_bool t1 (t0 + inject_Z ttl) = false) by (apply Qlt_bool_false; lra).
    rewrite E. cbn [default from_option]. by rewrite CacheProps.lrange_nil.
Qed.

(** Three messages stored at 10, 20 and 25 and read at 30: with limit 2 the two
    newest, with limit 0 all three. *)
Lemma recent_messages_round_trip_witness :
  let m := store_all "1" 3600 [(JStr "a", 10%Q); (JStr "b", 20%Q); (JStr "c", 25%Q)]
             (mkManager (Callback := unit) true true ∅ ∅ ∅ []) in
  get_recent_messages "1" 2 30 m = [JStr "b"; JStr "c"] /\
  get_recent_messages "1" 0 30 m = [JStr "a"; JStr "b"; JStr "c"].
Proof.
  cbv zeta. split.
  - destruct (recent_messages_round_trip (mkManager (Callback := unit) true true ∅ ∅ ∅ [])
                "1" 3600 [(JStr "a", 10%Q); (JStr "b", 20%Q); (JStr "c", 25%Q)] 2 30)
      as [H _].
    + reflexivity.
    + reflexivity.
    + vm_compute. repeat split.
    + rewrite H; [reflexivity|lia].
  - reflexivity.
Defined.

Module ChannelProps.

Section AnyCallback.
Context {Callback Env : Type}.
Variable invoke : Callback -> string -> Json -> Env -> Env * option string.
Implicit Types m : RedisPubSubManager Callback.

Lemma on_message_manager message m env m1 env1 log1 :
  on_message invoke message m env = Some (m1, env1, log1) -> m1 = m.
Proof.
  unfold on_message. destruct (msg_type message =? "message")%string.
  - destruct (msg_data message) as [data|]; [|discriminate].
    destruct (subscriptions m !! msg_channel message) as [cbs|].
    + destruct (invoke_callbacks invoke cbs (msg_channel message) data env).
      by intros [= <- _ _].
    + by intros [= <- _ _].
  - by intros [= <- _ _].
Qed.

Lemma on_message_callbacks message m env data cbs :
  msg_type message = "message" -> msg_data message = Some data ->
  subscriptions m !! msg_channel message = Some cbs ->
  exists env' log, on_message invoke message m env = Some (m, env', log) /\
                   inv_callback <$> log = cbs.
Proof.
  intros Htype Hdata Hsubs. unfold on_message. rewrite Htype, Hdata, Hsubs. cbn.
  pose proof (FanOutProps.invoke_callbacks_all invoke cbs (msg_channel message) data env) as H.
  destruct (invoke_callbacks invoke cbs (msg_channel message) data env) as [env' log].
  destruct H as (H & _ & _). by exists env', log.
Qed.

Lemma listen_stops_at pre : forall m env bad post,
  msg_type bad = "message" -> msg_data bad = None ->
  listen_for_messages invoke (pre ++ bad :: post) m env
  = listen_for_messages invoke pre m env.
Proof.
  induction pre as [|x pre IH]; intros m env bad post Htype Hdata.
  - cbn. unfold on_message. rewrite Htype, Hdata. cbn. by destruct (is_connected m).
  - cbn. destruct (is_connected m); [|reflexivity].
    destruct (on_message invoke x m env) as [[[m1 env1] log1]|] eqn:E; [|reflexivity].
    by rewrite (IH m1 env1 bad post Htype Hdata).
Qed.

End AnyCallback.

End ChannelProps.


(** X8.  On a connected manager, subscribing puts the callback last in the
    channel's list, after the earlier subscribers, so a message on the channel
    reaches them all and the new one last; unsubscribing the channel removes
    every subscriber of it, the earlier ones too, after which a message on the
    channel reaches nobody.  Other channels are not touched by either. *)
Theorem subscribe_then_unsubscribe {Callback Env : Type}
    (invoke : Callback -> string -> Json -> Env -> Env * option string)
    (m : RedisPubSubManager Callback) (channel : string) (callback : Callback) :
  is_connected m = true ->
  subscription_life invoke m channel callback.
Proof.
  intros Hc. unfold subscription_life, subscribe_to_channel. rewrite Hc.
  eexists. split; [reflexivity|]. split; [|split].
  - intros other Hne. cbn. by rewrite lookup_insert_ne.
  - intros message data env Htype Hdata Hch. split.
    + apply (ChannelProps.on_message_callbacks invoke message _ env data _ Htype Hdata).
      cbn. rewrite Hch. apply lookup_insert_eq.
    + unfold unsubscribe_from_channel. cbn [is_connected]. rewrite Hc.
      unfold on_message. rewrite Htype, Hdata. cbn. rewrite Hch, lookup_delete_eq. reflexivity.
  - intros other Hne. unfold unsubscribe_from_channel. cbn [is_connected]. rewrite Hc.
    cbn. rewrite lookup_delete_ne by done. by rewrite lookup_insert_ne.
Qed.

Lemma subscribe_then_unsubscribe_witness :
  subscription_life FanOutSpec.second_raises
    (mkManager true true {["room:1" := [1; 2]]} ∅ ∅ []) "room:1" 3.
Proof.
  apply (subscribe_then_unsubscribe FanOutSpec.second_raises
           (mkManager true true {["room:1" := [1; 2]]} ∅ ∅ []) "room:1" 3).
  reflexivity.
Defined.

(** X9.  The listener ends at the first message of type "message" whose payload is
    not JSON: no message after it is delivered, whatever it is.  Messages of
    any other type are skipped and the listener goes on. *)
Theorem listener_stops_at_undecodable_payload {Callback Env : Type}
    (invoke : Callback -> string -> Json -> Env -> Env * option string)
    (m : RedisPubSubManager Callback) (env : Env)
    (pre post : list PubSubMessage) (bad : PubSubMessage) :
  msg_type bad = "message" -> msg_data bad = None ->
  listen_for_messages invoke (pre ++ bad :: post) m env
  = listen_for_messages invoke pre m env
  /\ (forall other rest,
        is_connected m = true -> msg_type other <> "message" ->
        listen_for_messages invoke (other :: rest) m env
        = listen_for_messages invoke rest m env).
Proof.
  intros Htype Hdata. split.
  - by apply ChannelProps.listen_stops_at.
  - intros other rest Hc Hne. cbn. rewrite Hc. unfold on_message.
    apply String.eqb_neq in Hne. rewrite Hne.
    by destruct (listen_for_messages invoke rest m env) as [[m2 env2] log2].
Qed.

Lemma listener_stops_at_undecodable_payload_witness :
  snd (fst (listen_for_messages FanOutSpec.second_raises
              [mkPubSubMessage "message" "room:1" (Some (JStr "a"));
               mkPubSubMessage "message" "room:1" None;
               mkPubSubMessage "message" "room:1" (Some (JStr "b"))]
              (mkManager true true {["room:1" := [1]]} ∅ ∅ []) []))
  = [1].
Proof.
  rewrite (proj1 (listener_stops_at_undecodable_payload FanOutSpec.second_raises
                    (mkManager true true {["room:1" := [1]]} ∅ ∅ []) []
                    [mkPubSubMessage "message" "room:1" (Some (JStr "a"))]
                    [mkPubSubMessage "message" "room:1" (Some (JStr "b"))]
                    (mkPubSubMessage "message" "room:1" None) eq_refl eq_refl)).
  reflexivity.
Defined.




Module SweepProps.

Section AnyCallback.
Context {Callback : Type}.
Implicit Types m : RedisPubSubManager Callback.

Lemma NoDup_fst_filter {A B} (f : A * B -> bool) (l : list (A * B)) :
  NoDup (fst <$> l) -> NoDup (fst <$> List.filter f l).
Proof.
  induction l as [|x l IH]; cbn; [done|].
  intros Hnd. apply NoDup_cons in Hnd as [Hx Hl].
  destruct (f x); cbn; [|by apply IH].
  apply NoDup_cons. split; [|by apply IH].
  intros Hin. apply Hx. apply list_elem_of_fmap in Hin as (y & -> & Hy).
  apply list_elem_of_fmap. exists y. split; [done|].
  apply list_elem_of_In in Hy. apply filter_In in Hy as [Hy _]. by apply list_elem_of_In.
Qed.

Lemma heartbeat_keys_NoDup t m : NoDup (heartbeat_keys t m).
Proof. unfold heartbeat_keys. apply NoDup_fst_filter, NoDup_fst_map_to_list. Qed.

Lemma heartbeat_keys_visible t m k :
  k ∈ heartbeat_keys t m <-> exists e, heartbeats m !! k = Some e /\ live t e = true.
Proof.
  unfold heartbeat_keys. rewrite list_elem_of_fmap. split.
  - intros ([k' e] & -> & Hin). apply list_elem_of_In, filter_In in Hin as [Hin Hlive].
    apply list_elem_of_In, elem_of_map_to_list in Hin. by exists e.
  - intros (e & He & Hlive). exists (k, e). split; [done|].
    apply list_elem_of_In, filter_In. split; [|done].
    by apply list_elem_of_In, elem_of_map_to_list.
Qed.

Lemma read_agree t (h h0 : gmap string (Expiring IsoString)) k :
  h !! k = h0 !! k -> read t h k = read t h0 k.
Proof. intros H. unfold read. by rewrite H. Qed.

Lemma scanned_all_naive t (h0 : gmap string (Expiring IsoString)) keys :
  all_naive t h0 keys = true -> scanned t h0 keys = keys.
Proof.
  unfold all_naive. induction keys as [|key keys IH]; [done|]. cbn.
  destruct (offset_aware t h0 key); [done|]. cbn. intros H. by rewrite IH.
Qed.

(** The scan over keys that are all different: among the keys it reaches, the
    stale and the unreadable ones are deleted and the stale ones collected in
    order; it ends without a result at the first value with an offset. *)
Lemma scan_spec t (h0 : gmap string (Expiring IsoString)) keys : forall h acc,
  NoDup keys ->
  (forall k, k ∈ keys -> h !! k = h0 !! k) ->
  exists h',
    scan_heartbeats keys t h acc
    = (h', if all_naive t h0 keys then Some (acc ++ List.filter (stale t h0) keys)
           else None) /\
    forall k, h' !! k = if decide (k ∈ scanned t h0 keys)
                        then (if stale t h0 k || unreadable t h0 k then None else h !! k)
                        else h !! k.
Proof.
  induction keys as [|key keys IH]; intros h acc Hnd Hagree.
  - exists h. cbn. rewrite app_nil_r. split; [done|]. intros k.
    destruct (decide (k ∈ [])) as [Hin|_]; [by apply elem_of_nil in Hin|done].
  - apply NoDup_cons in Hnd as [Hkey Hnd].
    assert (Hread : read t h key = read t h0 key).
    { apply read_agree, Hagree. by left. }
    cbn [scan_heartbeats List.filter scanned]. unfold all_naive. cbn [forallb].
    fold (all_naive t h0 keys).
    rewrite Hread.
    assert (Hrest : forall h1 : gmap string (Expiring IsoString),
              (forall k, k <> key -> h1 !! k = h !! k) ->
              forall k, k ∈ keys -> h1 !! k = h0 !! k).
    { intros h1 Hh1 k Hk. rewrite Hh1; [apply Hagree; by right|]. intros ->. done. }
    assert (Hfinal : forall (h1 h' : gmap string (Expiring IsoString)) (bad : bool),
              (forall k, k <> key -> h1 !! k = h !! k) ->
              h1 !! key = (if bad then None else h !! key) ->
              (stale t h0 key || unreadable t h0 key) = bad ->
              (forall k, h' !! k = if decide (k ∈ scanned t h0 keys)
                                   then (if stale t h0 k || unreadable t h0 k
                                         then None else h1 !! k)
                                   else h1 !! k) ->
              forall k, h' !! k = if decide (k ∈ key :: scanned t h0 keys)
                                  then (if stale t h0 k || unreadable t h0 k
                                        then None else h !! k)
                                  else h !! k).
    { assert (Hsub : forall k, k ∈ scanned t h0 keys -> k ∈ keys).
      { clear. induction keys as [|x keys IH]; cbn; [done|].
        intros k. destruct (offset_aware t h0 x); [by intros ?%elem_of_nil|].
        intros [->|Hk]%elem_of_cons; [by left|right; by apply IH]. }
      intros h1 h' bad Hh1 Hh1key Hbad Hh' k. rewrite Hh'.
      destruct (decide (k = key)) as [->|Hne].
      - destruct (decide (key ∈ scanned t h0 keys)) as [Hin|_];
          [exfalso; by apply Hkey, Hsub|].
        destruct (decide (key ∈ key :: scanned t h0 keys)) as [_|Hout];
          [|exfalso; apply Hout; by left].
        by rewrite Hh1key, Hbad.
      - rewrite (Hh1 k Hne).
        destruct (decide (k ∈ scanned t h0 keys)) as [Hin|Hout].
        + destruct (decide (k ∈ key :: scanned t h0 keys)) as [_|Hout]; [done|].
          exfalso. apply Hout. by right.
        + destruct (decide (k ∈ key :: scanned t h0 keys)) as [Hin|_]; [|done].
          apply elem_of_cons in Hin as [?|?]; done. }
    assert (Hs0 : stale t h0 key
                     = match read t h0 key with
                       | Some (Iso heartbeat_time) =>
                           Qlt_bool offline_after (t - heartbeat_time)
                       | _ => false
                       end) by reflexivity.
    assert (Haware : offset_aware t h0 key
                     = match read t h0 key with Some (Aware _) => true | _ => false end)
      by reflexivity.
    destruct (read t h0 key) as [[|heartbeat_time|aware_time|]|] eqn:Hr0;
      rewrite Hs0, Haware; cbn [negb andb].
    + (* an empty value *)
      destruct (IH h acc Hnd) as (h' & Hscan & Hh').
      { apply Hrest. done. }
      exists h'. rewrite Hscan. split; [done|].
      apply (Hfinal h h' false); [done|done| |exact Hh'].
      unfold stale, unreadable. by rewrite Hr0.
    + destruct (Qlt_bool offline_after (t - heartbeat_time)) eqn:Hstale.
      * destruct (IH (delete key h) (acc ++ [key]) Hnd) as (h' & Hscan & Hh').
        { apply Hrest. intros k Hk. by rewrite lookup_delete_ne. }
        exists h'. rewrite Hscan, <- app_assoc. split; [done|].
        apply (Hfinal (delete key h) h' true); [| | |exact Hh'].
        -- intros k Hk. by rewrite lookup_delete_ne.
        -- apply lookup_delete_eq.
        -- unfold stale. by rewrite Hr0, Hstale.
      * destruct (IH h acc Hnd) as (h' & Hscan & Hh').
        { apply Hrest. done. }
        exists h'. rewrite Hscan. split; [done|].
        apply (Hfinal h h' false); [done|done| |exact Hh'].
        unfold stale, unreadable. by rewrite Hr0, Hstale.
    + (* an instant with an offset *)
      exists h. split; [done|]. intros k.
      destruct (decide (k ∈ [])) as [Hin|_]; [by apply elem_of_nil in Hin|done].
    + destruct (IH (delete key h) acc Hnd) as (h' & Hscan & Hh').
      { apply Hrest. intros k Hk. by rewrite lookup_delete_ne. }
      exists h'. rewrite Hscan. split; [done|].
      apply (Hfinal (delete key h) h' true); [| | |exact Hh'].
      * intros k Hk. by rewrite lookup_delete_ne.
      * apply lookup_delete_eq.
      * unfold stale, unreadable. by rewrite Hr0.
    + destruct (IH h acc Hnd) as (h' & Hscan & Hh').
      { apply Hrest. done. }
      exists h'. rewrite Hscan. split; [done|].
      apply (Hfinal h h' false); [done|done| |exact Hh'].
      unfold stale, unreadable. by rewrite Hr0.
Qed.

Lemma notify_offline_spec t expired : forall m,
  is_connected m = true ->
  is_connected (notify_offline expired t m) = true /\
  heartbeats (notify_offline expired t m) = heartbeats m /\
  subscriptions (notify_offline expired t m) = subscriptions m /\
  recent_messages (notify_offline expired t m) = recent_messages m /\
  published (notify_offline expired t m) = published m ++ (offline_notice t <$> expired).
Proof.
  induction expired as [|x expired IH]; intros m Hc.
  - cbn. by rewrite app_nil_r.
  - cbn [notify_offline].
    assert (Hstep : publish_user_status x
                      (JObj [("is_online", JBool false); ("last_seen", JTime t)]) t m
                    = mkManager (is_connected m) (redis_reachable m) (subscriptions m)
                        (heartbeats m) (recent_messages m)
                        (published m ++ [offline_notice t x])).
    { unfold publish_user_status, publish_message. by rewrite Hc. }
    rewrite Hstep.
    destruct (IH (mkManager (is_connected m) (redis_reachable m) (subscriptions m)
                    (heartbeats m) (recent_messages m)
                    (published m ++ [offline_notice t x])) Hc)
      as (H1 & H2 & H3 & H4 & H5).
    cbn [is_connected heartbeats subscriptions recent_messages published] in H2, H3, H4, H5.
    split; [exact H1|]. split; [exact H2|]. split; [exact H3|]. split; [exact H4|].
    rewrite H5. cbn [fmap list_fmap]. by rewrite <- app_assoc.
Qed.

End AnyCallback.

End SweepProps.


(** X10.  One round of the heartbeat monitor on a connected manager, whatever
    its heartbeat keys hold and in whatever order KEYS returns them.  When no
    visible key holds an instant with a UTC offset: every visible key whose
    instant is more than two minutes old is deleted and one offline status per
    such wallet is published, in the order of the keys; visible keys that hold
    a string that is no instant are deleted without a message; every other
    key, an empty value included, is left as it is.  When some visible key
    holds an instant with an offset, the round ends at the first such key:
    the stale and unreadable keys before it are deleted, the others are left,
    and nothing is published. *)
Theorem heartbeat_sweep_outcome {Callback : Type} (t : Q)
    (m : RedisPubSubManager Callback) (keys : list string) :
  is_connected m = true ->
  keys ≡ₚ heartbeat_keys t m ->
  heartbeat_sweep t m = sweep_keys (heartbeat_keys t m) t m /\
  if all_naive t (heartbeats m) keys
  then sweep_outcome keys t m (sweep_keys keys t m)
  else sweep_cut_short keys t m (sweep_keys keys t m).
Proof.
  intros Hc Hperm. split; [unfold heartbeat_sweep; by rewrite Hc|].
  unfold sweep_keys.
  destruct (SweepProps.scan_spec t (heartbeats m) keys (heartbeats m) [])
    as (h' & Hscan & Hh');
    [rewrite Hperm; apply SweepProps.heartbeat_keys_NoDup|done|].
  rewrite Hscan. cbn [app].
  assert (Hhidden : forall k, k ∉ keys ->
            stale t (heartbeats m) k || unreadable t (heartbeats m) k = false).
  { intros k Hout.
    assert (Hr : read t (heartbeats m) k = None).
    { destruct (read t (heartbeats m) k) eqn:E; [|done]. exfalso. apply Hout.
      apply read_Some in E as (e & He & _ & Hlt). rewrite Hperm.
      apply SweepProps.heartbeat_keys_visible. exists e. split; [done|].
      by apply Qlt_bool_iff. }
    unfold stale, unreadable. by rewrite Hr. }
  destruct (all_naive t (heartbeats m) keys) eqn:Hnaive.
  - rewrite (SweepProps.scanned_all_naive _ _ _ Hnaive) in Hh'.
    destruct (SweepProps.notify_offline_spec t
                (List.filter (stale t (heartbeats m)) keys)
                (with_heartbeats h' m) Hc) as (_ & Hhb & Hsub & Hrec & Hpub).
    assert (Hlook : forall k, h' !! k
              = if stale t (heartbeats m) k || unreadable t (heartbeats m) k
                then None else heartbeats m !! k).
    { intros k. rewrite Hh'. destruct (decide (k ∈ keys)) as [_|Hout]; [done|].
      by rewrite (Hhidden k Hout). }
    assert (Haware : forall k, offset_aware t (heartbeats m) k = false).
    { intros k. destruct (decide (k ∈ keys)) as [Hin|Hout].
      - unfold all_naive in Hnaive. rewrite forallb_forall in Hnaive.
        apply list_elem_of_In in Hin. specialize (Hnaive k Hin).
        by destruct (offset_aware t (heartbeats m) k).
      - unfold offset_aware. destruct (read t (heartbeats m) k) as [v|] eqn:E; [|done].
        exfalso. apply Hout. apply read_Some in E as (e & He & _ & Hlt). rewrite Hperm.
        apply SweepProps.heartbeat_keys_visible. exists e. split; [done|].
        by apply Qlt_bool_iff. }
    split; [|split; [|split; [|split]]].
    + intros k. rewrite Hhb. cbn. apply Hlook.
    + rewrite Hpub. reflexivity.
    + intros k v Hv. rewrite Hhb in Hv. cbn in Hv.
      apply read_Some in Hv as (e & He & Hval & Hlt). rewrite Hlook in He.
      destruct (stale t (heartbeats m) k || unreadable t (heartbeats m) k) eqn:Hbad;
        [discriminate|].
      apply orb_false_iff in Hbad as [Hs Hu].
      pose proof (Haware k) as Ha.
      unfold stale, unreadable, offset_aware in Hs, Hu, Ha.
      rewrite (read_live t _ k e He Hlt), Hval in Hs, Hu, Ha.
      destruct v as [|heartbeat_time|aware_time|]; [by left| |discriminate|discriminate].
      right. exists heartbeat_time. split; [done|]. by apply Qlt_bool_false.
    + rewrite Hsub. reflexivity.
    + rewrite Hrec. reflexivity.
  - split; [reflexivity|]. split; [|done].
    intros k. cbn [heartbeats with_heartbeats]. rewrite Hh'.
    destruct (decide (k ∈ scanned t (heartbeats m) keys)) as [Hin|Hout].
    + by rewrite (bool_decide_eq_true_2 _ Hin).
    + by rewrite (bool_decide_eq_false_2 _ Hout).
Qed.

(** The theorem for the five keys returned in the order D, A, C, E, B: A and E
    are deleted and announced in that order, D is deleted in silence, C and B
    stay.  With a key F that holds an instant with an offset, returned after
    D and A, the round deletes D and A and announces nothing. *)
Lemma heartbeat_sweep_outcome_witness :
  let m := mkManager (Callback := unit) true true ∅ five_keys ∅ [] in
  let keys := ["walletD"; "walletA"; "walletC"; "walletE"; "walletB"] in
  let m_f := mkManager (Callback := unit) true true ∅
               (<["walletF" := mkExpiring (Aware 1140) 2000]> five_keys) ∅ [] in
  let keys_f := ["walletD"; "walletA"; "walletF"; "walletC"; "walletE"; "walletB"] in
  sweep_outcome keys 1150 m (sweep_keys keys 1150 m) /\
  published (sweep_keys keys 1150 m)
  = [offline_notice 1150 "walletA"; offline_notice 1150 "walletE"] /\
  sweep_cut_short keys_f 1150 m_f (sweep_keys keys_f 1150 m_f) /\
  (fst <$> map_to_list (heartbeats (sweep_keys keys_f 1150 m_f)))
  ≡ₚ ["walletB"; "walletC"; "walletE"; "walletF"].
Proof.
  cbv zeta. split; [|split; [|split]].
  - assert (Hperm : ["walletD"; "walletA"; "walletC"; "walletE"; "walletB"]
                    ≡ₚ heartbeat_keys 1150
                         (mkManager (Callback := unit) true true ∅ five_keys ∅ [])).
    { vm_compute. by apply (bool_decide_unpack _). }
    exact (proj2 (heartbeat_sweep_outcome 1150
                    (mkManager (Callback := unit) true true ∅ five_keys ∅ [])
                    ["walletD"; "walletA"; "walletC"; "walletE"; "walletB"]
                    eq_refl Hperm)).
  - vm_compute. reflexivity.
  - assert (Hperm : ["walletD"; "walletA"; "walletF"; "walletC"; "walletE"; "walletB"]
                    ≡ₚ heartbeat_keys 1150
                         (mkManager (Callback := unit) true true ∅
                            (<["walletF" := mkExpiring (Aware 1140) 2000]> five_keys) ∅ [])).
    { vm_compute. by apply (bool_decide_unpack _). }
    exact (proj2 (heartbeat_sweep_outcome 1150
                    (mkManager (Callback := unit) true true ∅
                       (<["walletF" := mkExpiring (Aware 1140) 2000]> five_keys) ∅ [])
                    ["walletD"; "walletA"; "walletF"; "walletC"; "walletE"; "walletB"]
                    eq_refl Hperm)).
  - vm_compute. by apply (bool_decide_unpack _).
Defined.

(** X11.  A heartbeat written at [t0], whatever heartbeat the wallet had before:
    before [t0 + 60] the wallet is listed as online and its key reads the
    instant [t0]; after [t0 + 60] the wallet is not listed and its key reads
    nothing.  The other wallets are listed exactly when they were, and no
    wallet is listed twice. *)
Theorem heartbeat_lasts_sixty_seconds {Callback : Type}
    (m : RedisPubSubManager Callback) (wallet_address : string) (t0 t : Q) :
  is_connected m = true ->
  ((t < t0 + 60)%Q ->
   get_user_heartbeat wallet_address t (set_user_heartbeat wallet_address t0 m)
   = Some (Iso t0) /\
   wallet_address ∈ get_online_users t (set_user_heartbeat wallet_address t0 m)) /\
  ((t0 + 60 < t)%Q ->
   get_user_heartbeat wallet_address t (set_user_heartbeat wallet_address t0 m) = None /\
   wallet_address ∉ get_online_users t (set_user_heartbeat wallet_address t0 m)) /\
  (forall w, w <> wallet_address ->
             w ∈ get_online_users t (set_user_heartbeat wallet_address t0 m) <->
             w ∈ get_online_users t m) /\
  NoDup (get_online_users t (set_user_heartbeat wallet_address t0 m)).
Proof.
  intros Hc. unfold get_user_heartbeat, get_online_users, set_user_heartbeat.
  rewrite Hc. unfold heartbeat_keys, with_heartbeats. cbn [is_connected heartbeats].
  rewrite Hc. fold (heartbeat_keys t m).
  change (fst <$> List.filter (fun kv => live t kv.2)
            (map_to_list (<[wallet_address := mkExpiring (Iso t0) (t0 + 60)]> (heartbeats m))))
    with (heartbeat_keys t
            (with_heartbeats
               (<[wallet_address := mkExpiring (Iso t0) (t0 + 60)]> (heartbeats m)) m)).
  split; [|split; [|split]].
  - intros Ht. split.
    + unfold read, live. rewrite lookup_insert_eq. cbn [expire_at value].
      apply Qlt_bool_iff in Ht. by rewrite Ht.
    + apply SweepProps.heartbeat_keys_visible. unfold with_heartbeats. cbn [heartbeats].
      rewrite lookup_insert_eq. eexists. split; [done|]. by apply Qlt_bool_iff.
  - intros Ht.
    assert (E : Qlt_bool t (t0 + 60) = false) by (apply Qlt_bool_false; lra).
    split.
    + unfold read, live. rewrite lookup_insert_eq. cbn [expire_at value]. by rewrite E.
    + rewrite SweepProps.heartbeat_keys_visible. unfold with_heartbeats. cbn [heartbeats].
      rewrite lookup_insert_eq. intros (e & [= <-] & Hlive).
      unfold live in Hlive. cbn in Hlive. congruence.
  - intros w Hne. rewrite !SweepProps.heartbeat_keys_visible.
    unfold with_heartbeats. cbn [heartbeats]. by rewrite lookup_insert_ne.
  - apply SweepProps.heartbeat_keys_NoDup.
Qed.

(** The theorem for a heartbeat of wallet A at 100, read at 130 and at 161. *)
Lemma heartbeat_lasts_sixty_seconds_witness :
  let m := set_user_heartbeat "walletA" 100
             (mkManager (Callback := unit) true true ∅ ∅ ∅ []) in
  (get_user_heartbeat "walletA" 130 m = Some (Iso 100) /\
   "walletA" ∈ get_online_users 130 m) /\
  (get_user_heartbeat "walletA" 161 m = None /\ "walletA" ∉ get_online_users 161 m).
Proof.
  cbv zeta. split.
  - apply (proj1 (heartbeat_lasts_sixty_seconds
                    (mkManager (Callback := unit) true true ∅ ∅ ∅ []) "walletA" 100 130
                    eq_refl)).
    reflexivity.
  - apply (proj1 (proj2 (heartbeat_lasts_sixty_seconds
                           (mkManager (Callback := unit) true true ∅ ∅ ∅ []) "walletA" 100 161
                           eq_refl))).
    reflexivity.
Defined.

(** ** Registry broadcasts and the handshake *)

Import WsAuth.
Local Open Scope Z_scope.

Module RegistryProps.

Lemma existsb_eqb_elem (nft : string) (l : list string) :
  existsb (String.eqb nft) l = true <-> nft ∈ l.
Proof.
  rewrite existsb_exists. split.
  - intros (x & Hin & Heq). apply String.eqb_eq in Heq as ->. by apply list_elem_of_In.
  - intros Hin. exists nft. split; [by apply list_elem_of_In|apply String.eqb_refl].
Qed.

Lemma holds_any_true user_nfts required_nfts :
  holds_any user_nfts required_nfts = true <->
  exists nft, nft ∈ required_nfts /\ nft ∈ user_nfts.
Proof.
  unfold holds_any. rewrite existsb_exists. split.
  - intros (nft & Hin & Hex). exists nft. split; [by apply list_elem_of_In|].
    by apply existsb_eqb_elem.
  - intros (nft & Hin & Hex). exists nft. split; [by apply list_elem_of_In|].
    by apply existsb_eqb_elem.
Qed.

Lemma connection_listed a c :
  c ∈ (snd <$> connections a) <-> exists id, get_connection id a = Some c.
Proof.
  unfold connections, get_connection. rewrite list_elem_of_fmap. split.
  - intros ([id c'] & -> & Hin). exists id. by apply elem_of_map_to_list in Hin.
  - intros (id & Hid). exists (id, c). split; [done|]. by apply elem_of_map_to_list.
Qed.

Lemma elem_of_filter_list {A} (f : A -> bool) (l : list A) x :
  x ∈ List.filter f l <-> x ∈ l /\ f x = true.
Proof. rewrite !list_elem_of_In. apply filter_In. Qed.

Lemma wallet_connection a wallet c :
  c ∈ get_connections_by_wallet wallet a <->
  (exists id, get_connection id a = Some c) /\ conn_wallet_address c = wallet.
Proof.
  unfold get_connections_by_wallet. rewrite elem_of_filter_list, connection_listed.
  by rewrite String.eqb_eq.
Qed.

Lemma length_remove_dups_le {A} `{EqDecision A} (l : list A) :
  (length (remove_dups l) <= length l)%nat.
Proof.
  induction l as [|x l IH]; cbn; [lia|]. destruct (decide_rel _ x l); cbn; lia.
Qed.

End RegistryProps.

(** X12.  A broadcast to NFT holders writes the message, and nothing else, to the
    transports of the registered connections whose holdings, as captured at
    authentication, contain one of the required NFTs; a connection without
    recorded holdings and an empty requirement receive nothing. *)
Theorem nft_broadcast_reaches_holders_only (required_nfts : list string) (message : Json)
    (a : WebSocketAuthManager) (ws : Websocket) (frame : Json) :
  ((ws, frame) ∈ broadcast_to_nft_holders required_nfts message a <->
   frame = message /\
   exists id c holdings nft,
     get_connection id a = Some c /\ websocket c = ws /\
     nft_holdings (user_data c) = Some holdings /\
     nft ∈ required_nfts /\ nft ∈ holdings) /\
  broadcast_to_nft_holders [] message a = [] /\
  (length (broadcast_to_nft_holders required_nfts message a)
   <= size (authenticated_connections a))%nat.
Proof.
  split; [|split].
  - unfold broadcast_to_nft_holders. rewrite list_elem_of_fmap. split.
    + intros (c & [= -> ->] & Hin).
      apply RegistryProps.elem_of_filter_list in Hin as [Hin Hholds].
      apply RegistryProps.connection_listed in Hin as (id & Hid).
      apply RegistryProps.holds_any_true in Hholds as (nft & Hreq & Hheld).
      split; [done|].
      destruct (nft_holdings (user_data c)) as [holdings|] eqn:Hh;
        [|by apply elem_of_nil in Hheld].
      by exists id, c, holdings, nft.
    + intros (-> & id & c & holdings & nft & Hid & <- & Hh & Hreq & Hheld).
      exists c. split; [done|]. apply RegistryProps.elem_of_filter_list. split.
      * apply RegistryProps.connection_listed. by exists id.
      * apply RegistryProps.holds_any_true. exists nft. by rewrite Hh.
  - unfold broadcast_to_nft_holders, holds_any. cbn [existsb].
    induction (snd <$> connections a) as [|c l IH]; [done|exact IH].
  - unfold broadcast_to_nft_holders. rewrite length_fmap.
    etransitivity; [apply filter_length_le|].
    unfold connections. by rewrite length_fmap, length_map_to_list.
Qed.

(** X13.  A broadcast to a wallet writes the message once to each registered
    connection of that wallet and to no other; the statistics list exactly
    the wallets that such a broadcast reaches, each once, and never more
    wallets than connections. *)
Theorem stats_list_reachable_wallets (message : Json) (a : WebSocketAuthManager) :
  exists wallets,
    get_stats a
    = JObj [("total_connections", JInt (Z.of_nat (size (authenticated_connections a))));
            ("unique_wallets", JInt (Z.of_nat (length wallets)));
            ("active_wallets", JStrs wallets)] /\
    NoDup wallets /\
    (length wallets <= size (authenticated_connections a))%nat /\
    (forall wallet, wallet ∈ wallets <-> broadcast_to_wallet wallet message a <> []) /\
    (forall wallet ws frame,
       (ws, frame) ∈ broadcast_to_wallet wallet message a <->
       frame = message /\
       exists id c, get_connection id a = Some c /\ websocket c = ws /\
                    conn_wallet_address c = wallet).
Proof.
  exists (active_wallets a).
  assert (Hsize : length (connections a) = size (authenticated_connections a)).
  { unfold connections. apply length_map_to_list. }
  split; [|split; [|split; [|split]]].
  - unfold get_stats. by rewrite Hsize.
  - apply NoDup_remove_dups.
  - unfold active_wallets. etransitivity; [apply RegistryProps.length_remove_dups_le|].
    by rewrite !length_fmap, Hsize.
  - intros wallet. unfold active_wallets, broadcast_to_wallet.
    rewrite elem_of_remove_dups, list_elem_of_fmap. split.
    + intros (c & -> & Hin) Hnil.
      assert (Hc : c ∈ get_connections_by_wallet (conn_wallet_address c) a).
      { apply RegistryProps.wallet_connection. split; [|done].
        by apply RegistryProps.connection_listed. }
      destruct (get_connections_by_wallet (conn_wallet_address c) a);
        [by apply elem_of_nil in Hc|discriminate].
    + intros Hne.
      destruct (get_connections_by_wallet wallet a) as [|c l] eqn:E; [done|].
      assert (Hc : c ∈ get_connections_by_wallet wallet a) by (rewrite E; by left).
      apply RegistryProps.wallet_connection in Hc as [Hlisted Hw].
      exists c. split; [done|]. by apply RegistryProps.connection_listed.
  - intros wallet ws frame. unfold broadcast_to_wallet. rewrite list_elem_of_fmap. split.
    + intros (c & [= -> ->] & Hin).
      apply RegistryProps.wallet_connection in Hin as [(id & Hid) Hw].
      split; [done|]. by exists id, c.
    + intros (-> & id & c & Hid & <- & Hw). exists c. split; [done|].
      apply RegistryProps.wallet_connection. split; [by exists id|done].
Qed.

Import Handshake HandshakeSpec.

(** X14.  The handshake returns a user only for a token the client presented and
    [verify_token] accepted: the query parameter, or the [token] field of a
    first frame of type [auth]. *)
Theorem handshake_returns_only_verified_users (verify_token : Json -> option UserData)
    (query_token : option string) (first : FirstMessage) (u : UserData) :
  user (authenticate_websocket verify_token query_token first) = Some u ->
  (exists token, query_token = Some token /\ verify_token (JStr token) = Some u) \/
  (exists token, first = AuthObject (Some "auth") (Some token) /\
                 verify_token token = Some u).
Proof.
  assert (Hmsg : user (authenticate_by_message verify_token first) = Some u ->
            exists token, first = AuthObject (Some "auth") (Some token) /\
                          verify_token token = Some u).
  { unfold authenticate_by_message.
    destruct first as [| |[type|] token]; try (cbn; discriminate).
    cbv [default from_option fmap option_fmap option_map id].
    destruct (String.eqb "auth" type) eqn:Htype; [|cbn; discriminate].
    apply String.eqb_eq in Htype as <-.
    destruct token as [token|]; [|cbn; discriminate].
    destruct (verify_token token) as [u'|] eqn:Hv; [|cbn; discriminate].
    cbn [user]. intros [= ->]. by exists token. }
  unfold authenticate_websocket, Router.truthy_str.
  destruct query_token as [token|]; [|intros H; right; by apply Hmsg].
  destruct (String.eqb token ""); [intros H; right; by apply Hmsg|].
  destruct (verify_token (JStr token)) as [u'|] eqn:Hv;
    [|intros H; right; by apply Hmsg].
  cbn [user]. intros [= ->]. left. by exists token.
Qed.


Lemma handshake_returns_only_verified_users_witness :
  (exists token, None = Some token /\
                 only_good_token (JStr token) = Some (mkUserData "walletA" None None)) \/
  (exists token, AuthObject (Some "auth") (Some (JStr "good"))
                 = AuthObject (Some "auth") (Some token) /\
                 only_good_token token = Some (mkUserData "walletA" None None)).
Proof.
  apply (handshake_returns_only_verified_users only_good_token None
           (AuthObject (Some "auth") (Some (JStr "good"))) (mkUserData "walletA" None None)).
  reflexivity.
Defined.

(** X15.  A handshake that returns no user has accepted the transport, sent one
    [auth_error] frame and closed with code 4001, 4002 or 4003; one that
    returns a user never closes, and has sent the [auth_success] frame if it
    accepted the transport and nothing if the query token was valid. *)
Theorem handshake_outcomes (verify_token : Json -> option UserData)
    (query_token : option string) (first : FirstMessage) :
  match user (authenticate_websocket verify_token query_token first) with
  | None =>
      accepted (authenticate_websocket verify_token query_token first) = true /\
      exists message code,
        sent (authenticate_websocket verify_token query_token first) = [auth_error message] /\
        close_code (authenticate_websocket verify_token query_token first) = Some code /\
        4001 <= code <= 4003
  | Some u =>
      close_code (authenticate_websocket verify_token query_token first) = None /\
      sent (authenticate_websocket verify_token query_token first)
      = (if accepted (authenticate_websocket verify_token query_token first)
         then [auth_success u] else [])
  end.
Proof.
  assert (Hmsg :
    match user (authenticate_by_message verify_token first) with
    | None =>
        accepted (authenticate_by_message verify_token first) = true /\
        exists message code,
          sent (authenticate_by_message verify_token first) = [auth_error message] /\
          close_code (authenticate_by_message verify_token first) = Some code /\
          4001 <= code <= 4003
    | Some u =>
        close_code (authenticate_by_message verify_token first) = None /\
        sent (authenticate_by_message verify_token first)
        = (if accepted (authenticate_by_message verify_token first)
           then [auth_success u] else [])
    end).
  { unfold authenticate_by_message.
    destruct first as [| |type token].
    - split; [done|]. eexists _, 4002. split; [reflexivity|]. split; [reflexivity|lia].
    - split; [done|]. eexists _, 4003. split; [reflexivity|]. split; [reflexivity|lia].
    - destruct (if default false (String.eqb "auth" <$> type) then token else None)
        as [t|].
      + destruct (verify_token t); [done|].
        split; [done|]. eexists _, 4003. split; [reflexivity|]. split; [reflexivity|lia].
      + split; [done|]. eexists _, 4001. split; [reflexivity|]. split; [reflexivity|lia]. }
  unfold authenticate_websocket.
  destruct (Router.truthy_str query_token) as [token|]; [|exact Hmsg].
  destruct (verify_token (JStr token)); [|exact Hmsg].
  cbn. done.
Qed.

(** ** What the router does with a frame *)

Import WsAuth Models Router SessionSpec.
Local Open Scope Z_scope.




Module SessionProps.
Import RouterSpec.

Lemma handle_registered cid (md : Frame) ud now w conn_data :
  get_connection cid (auth w) = Some conn_data ->
  handle_websocket_message cid md ud now w
  = dispatch (websocket conn_data) (wallet_address ud) md ud now
      (manager_set_user_heartbeat (wallet_address ud) now w).
Proof. intros H. unfold handle_websocket_message. by rewrite H. Qed.

Lemma is_type_true message_type name :
  is_type message_type name = true -> message_type = Some name.
Proof.
  destruct message_type as [t|]; [|discriminate]. cbn.
  by intros ->%String.eqb_eq.
Qed.

Lemma stores_nothing_refl w : stores_nothing w w.
Proof. by repeat split. Qed.

Lemma stores_nothing_trans w1 w2 w3 :
  stores_nothing w1 w2 -> stores_nothing w2 w3 -> stores_nothing w1 w3.
Proof. intros (? & ? & ?) (? & ? & ?). repeat split; congruence. Qed.

Lemma stores_nothing_reply ws frame w : stores_nothing w (reply ws frame w).
Proof. by repeat split. Qed.

Lemma stores_nothing_internal_server_error ws w :
  stores_nothing w (internal_server_error ws w).
Proof. by repeat split. Qed.

Lemma stores_nothing_heartbeat wallet now w :
  stores_nothing w (manager_set_user_heartbeat wallet now w).
Proof.
  unfold manager_set_user_heartbeat, PubSub.set_user_heartbeat.
  destruct (PubSub.is_connected (pubsub w)); by repeat split.
Qed.

Lemma stores_nothing_join ws wallet md ud now w :
  stores_nothing w (join_room ws wallet md ud now w).
Proof.
  unfold join_room.
  destruct (truthy_id (frame_room_id md)) as [id|]; [|apply stores_nothing_reply].
  destruct (find_room id (db w)) as [room|]; [|apply stores_nothing_reply].
  match goal with |- context [if ?c then _ else _] => destruct c end;
    [apply stores_nothing_reply|].
  set (w1 := match find_member id wallet (db w) with Some _ => w | None => _ end).
  assert (H1 : stores_nothing w w1).
  { subst w1. destruct (find_member id wallet (db w)); by repeat split. }
  eapply stores_nothing_trans; [exact H1|]. clearbody w1.
  destruct (PubSub.subscribe_to_channel (room_channel id) (ForwardTo ws) (pubsub w1))
    as [p|] eqn:Hs; [|apply stores_nothing_internal_server_error].
  eapply stores_nothing_trans; [|apply stores_nothing_reply].
  unfold PubSub.subscribe_to_channel in Hs.
  destruct (PubSub.is_connected (pubsub w1)) eqn:Hc.
  - injection Hs as <-. by repeat split.
  - unfold PubSub.connect in Hs. destruct (PubSub.redis_reachable (pubsub w1)); [|discriminate].
    injection Hs as <-. by repeat split.
Qed.

Lemma stores_nothing_private ws wallet md now w :
  stores_nothing w (private_message ws wallet md now w).
Proof.
  unfold private_message.
  destruct (truthy_str (frame_target_wallet md)) as [target|]; [|apply stores_nothing_reply].
  destruct (truthy_str (frame_message md)) as [text|]; [|apply stores_nothing_reply].
  by repeat split.
Qed.

(** A frame either is a room message of a member who may send, or stores
    nothing. *)
Lemma handle_cases cid (md : Frame) ud now w :
  (exists id text member,
     frame_type md = Some "room_message" /\
     truthy_id (frame_room_id md) = Some id /\
     truthy_str (frame_message md) = Some text /\
     find_member id (wallet_address ud) (db w) = Some member /\
     can_send_messages member = true /\
     get_connection cid (auth w) <> None) \/
  stores_nothing w (handle_websocket_message cid md ud now w).
Proof.
  unfold handle_websocket_message. cbv iota.
  destruct (get_connection cid (auth w)) as [conn_data|] eqn:Hconn;
    [|right; apply stores_nothing_refl].
  set (wallet := wallet_address ud).
  pose proof (stores_nothing_heartbeat wallet now w) as Hhb.
  assert (Hdb : db (manager_set_user_heartbeat wallet now w) = db w).
  { unfold manager_set_user_heartbeat. by destruct (PubSub.is_connected (pubsub w)). }
  set (w1 := manager_set_user_heartbeat wallet now w) in *.
  unfold dispatch.
  destruct (is_type (frame_type md) "heartbeat");
    [right; eapply stores_nothing_trans; [exact Hhb|apply stores_nothing_reply]|].
  destruct (is_type (frame_type md) "join_room");
    [right; eapply stores_nothing_trans; [exact Hhb|apply stores_nothing_join]|].
  destruct (is_type (frame_type md) "room_message") eqn:Htype.
  - apply is_type_true in Htype. unfold room_message.
    destruct (truthy_id (frame_room_id md)) as [id|] eqn:Hid;
      [|right; eapply stores_nothing_trans; [exact Hhb|apply stores_nothing_reply]].
    destruct (truthy_str (frame_message md)) as [text|] eqn:Htext;
      [|right; eapply stores_nothing_trans; [exact Hhb|apply stores_nothing_reply]].
    rewrite Hdb.
    destruct (find_member id wallet (db w)) as [member|] eqn:Hmember;
      [|right; eapply stores_nothing_trans; [exact Hhb|apply stores_nothing_reply]].
    destruct (can_send_messages member) eqn:Hcan;
      [|right; eapply stores_nothing_trans; [exact Hhb|apply stores_nothing_reply]].
    left. exists id, text, member. by repeat split.
  - destruct (is_type (frame_type md) "private_message");
      [right; eapply stores_nothing_trans; [exact Hhb|apply stores_nothing_private]|].
    destruct (is_type (frame_type md) "get_online_users");
      [right; eapply stores_nothing_trans; [exact Hhb|apply stores_nothing_reply]|].
    destruct (is_type (frame_type md) "stats");
      right; (eapply stores_nothing_trans; [exact Hhb|apply stores_nothing_reply]).
Qed.

Lemma handle_keeps_registry cid (md : MessageData) ud now w :
  auth (handle_websocket_message cid md ud now w) = auth w.
Proof.
  unfold handle_websocket_message. destruct md as [|md]; [reflexivity|].
  destruct (get_connection cid (auth w)) as [conn_data|]; [|reflexivity].
  destruct (RouterProps.steps_dispatch (websocket conn_data) (wallet_address ud) md ud now
              (manager_set_user_heartbeat (wallet_address ud) now w)) as (Ha & _).
  rewrite Ha. unfold manager_set_user_heartbeat.
  by destruct (PubSub.is_connected (pubsub w)).
Qed.

Lemma find_touch_member id wallet now l member :
  List.find (is_member_row id wallet) l = Some member ->
  List.find (is_member_row id wallet) (touch_member id wallet now l)
  = Some (after_message now member).
Proof.
  induction l as [|m l IH]; [discriminate|]. cbn [List.find touch_member].
  destruct (is_member_row id wallet m) eqn:Hrow.
  - intros [= <-]. cbn [List.find].
    unfold is_member_row in *. cbn [member_room_id member_wallet]. by rewrite Hrow.
  - intros H. cbn [List.find]. rewrite Hrow. by apply IH.
Qed.

(** The forwarding callbacks write nothing. *)
Lemma after_forwarding cbs channel data : forall sent,
  FanOutSpec.after_callbacks websocket_message_callback cbs channel data sent = sent.
Proof.
  unfold FanOutSpec.after_callbacks.
  induction cbs as [|[ws] cbs IH]; intros sent; cbn; [done|]. apply IH.
Qed.

Lemma store_message_cache_connected room message now w :
  PubSub.is_connected (pubsub w) = true ->
  let w' := manager_store_message_cache room message now w in
  db w' = db w /\ effects w' = effects w ++ [ECacheMessage room message] /\
  PubSub.is_connected (pubsub w') = true /\
  PubSub.published (pubsub w') = PubSub.published (pubsub w) /\
  PubSub.recent_messages (pubsub w')
  = <[room := mkExpiring
                (take 100 (message ::
                           default [] (read now (PubSub.recent_messages (pubsub w)) room)))
                (now + inject_Z 3600)%Q]> (PubSub.recent_messages (pubsub w)).
Proof.
  intros Hc. unfold manager_store_message_cache, PubSub.store_message_cache.
  rewrite Hc. cbn. rewrite ?Hc. done.
Qed.

Lemma publish_chat_message_connected room message now w :
  PubSub.is_connected (pubsub w) = true ->
  let w' := manager_publish_chat_message room message now w in
  db w' = db w /\ effects w' = effects w ++ [EPublish ("room:" +:+ room)] /\
  PubSub.is_connected (pubsub w') = true /\
  PubSub.published (pubsub w')
  = PubSub.published (pubsub w) ++
    [("room:" +:+ room,
      JObj [("type", JStr "chat_message"); ("data", message); ("timestamp", JTime now)])] /\
  PubSub.recent_messages (pubsub w') = PubSub.recent_messages (pubsub w).
Proof.
  intros Hc. unfold manager_publish_chat_message, PubSub.publish_chat_message,
    PubSub.publish_message.
  rewrite Hc. cbn. rewrite ?Hc. done.
Qed.

End SessionProps.

(** X16.  The router stores a room message, publishes or caches something only for
    a [room_message] frame that names a room and a text, from a registered
    connection whose wallet has a member row of that room with
    [can_send_messages]; every other frame leaves the stored messages, the
    published messages and the caches as they were. *)
Theorem only_members_post (connection_id : string) (message_data : Frame)
    (user_data : UserData) (now : Q) (w : World) :
  ~ stores_nothing w (handle_websocket_message connection_id message_data user_data now w) ->
  exists id text member,
    frame_type message_data = Some "room_message" /\
    truthy_id (frame_room_id message_data) = Some id /\
    truthy_str (frame_message message_data) = Some text /\
    find_member id (wallet_address user_data) (db w) = Some member /\
    can_send_messages member = true /\
    get_connection connection_id (auth w) <> None.
Proof.
  intros Hnot.
  destruct (SessionProps.handle_cases connection_id message_data user_data now w)
    as [H|H]; [exact H|]. by destruct Hnot.
Qed.

Lemma only_members_post_witness :
  exists id text member,
    frame_type (RouterSpec.say 1 "hello") = Some "room_message" /\
    truthy_id (frame_room_id (RouterSpec.say 1 "hello")) = Some id /\
    truthy_str (frame_message (RouterSpec.say 1 "hello")) = Some text /\
    find_member id (wallet_address RouterSpec.alice) (db RouterSpec.alice_in_lobby)
    = Some member /\
    can_send_messages member = true /\
    get_connection "c1" (auth RouterSpec.alice_in_lobby) <> None.
Proof.
  apply (only_members_post "c1" (RouterSpec.say 1 "hello") RouterSpec.alice 100
           RouterSpec.alice_in_lobby).
  intros (H & _). vm_compute in H. discriminate H.
Defined.

(** X17.  A [room_message] frame of a member who may send, with the pub/sub
    manager connected: one row is added to the stored messages, with the next
    free id, the sender's wallet and the holdings captured at
    authentication; the frame carrying that id is published once on the
    channel of the room and is the newest entry of the room's cache for an
    hour; the member row counts one more message; and the handler itself
    writes no frame to any transport. *)
Theorem member_message_is_stored_cached_and_published (connection_id : string)
    (message_data : Frame) (user_data : UserData) (now : Q) (w : World)
    (conn_data : ConnData) (id : Z) (text : string) (member : RoomMember) :
  get_connection connection_id (auth w) = Some conn_data ->
  PubSub.is_connected (pubsub w) = true ->
  frame_type message_data = Some "room_message" ->
  truthy_id (frame_room_id message_data) = Some id ->
  truthy_str (frame_message message_data) = Some text ->
  find_member id (wallet_address user_data) (db w) = Some member ->
  can_send_messages member = true ->
  let w' := handle_websocket_message connection_id message_data user_data now w in
  let row := mkChatMessage (next_message_id (db w)) id text (wallet_address user_data)
               (default [] (nft_holdings user_data)) "text" now in
  chat_messages (db w') = chat_messages (db w) ++ [row] /\
  find_member id (wallet_address user_data) (db w') = Some (after_message now member) /\
  PubSub.published (pubsub w')
  = PubSub.published (pubsub w) ++
    [("room:" +:+ pretty id,
      JObj [("type", JStr "chat_message"); ("data", room_frame row);
            ("timestamp", JTime now)])] /\
  (forall t limit, (now <= t)%Q -> (t < now + 3600)%Q -> (0 < limit)%Z ->
     last (PubSub.get_recent_messages (pretty id) limit t (pubsub w'))
     = Some (room_frame row)) /\
  sent_frames (new_effects w w') = [].
Proof.
  intros Hconn Hc Htype Hid Htext Hmember Hcan. cbv zeta.
  rewrite (SessionProps.handle_registered _ _ _ _ _ _ Hconn).
  set (wallet := wallet_address user_data) in *.
  destruct (RouterProps.steps_set_user_heartbeat wallet now w Hc)
    as (_ & _ & Hdb1 & Hc1 & _ & He1).
  assert (Hpub1 : PubSub.published (pubsub (manager_set_user_heartbeat wallet now w))
                  = PubSub.published (pubsub w)).
  { apply (SessionProps.stores_nothing_heartbeat wallet now w). }
  set (w1 := manager_set_user_heartbeat wallet now w) in *.
  unfold dispatch. rewrite Htype.
  change (is_type (Some "room_message") "heartbeat") with false.
  change (is_type (Some "room_message") "join_room") with false.
  change (is_type (Some "room_message") "room_message") with true.
  cbv iota. unfold room_message. rewrite Hid, Htext, Hdb1, Hmember, Hcan. cbv zeta.
  set (row := mkChatMessage (next_message_id (db w)) id text wallet
                (default [] (nft_holdings user_data)) "text" now).
  change (JObj [("type", JStr "room_message"); ("message_id", JInt (message_id row));
                ("room_id", JInt id); ("wallet_address", JStr wallet);
                ("message", JStr text); ("timestamp", JTime (created_at row))])
    with (room_frame row).
  set (w2 := commit (add_message row (db w)) w1).
  assert (Hc2 : PubSub.is_connected (pubsub w2) = true) by exact Hc1.
  destruct (SessionProps.store_message_cache_connected (pretty id) (room_frame row) now
              w2 Hc2) as (Hdb3 & He3 & Hc3 & Hpub3 & Hrec3).
  set (w3 := manager_store_message_cache (pretty id) (room_frame row) now w2) in *.
  destruct (SessionProps.publish_chat_message_connected (pretty id) (room_frame row) now
              w3 Hc3) as (Hdb4 & He4 & Hc4 & Hpub4 & Hrec4).
  set (w4 := manager_publish_chat_message (pretty id) (room_frame row) now w3) in *.
  cbn [commit log with_db db pubsub effects].
  rewrite Hdb4, Hdb3.
  split; [|split; [|split; [|split]]].
  - reflexivity.
  - unfold find_member, update_member_stats, add_message.
    cbn [room_members db commit log with_db].
    by apply SessionProps.find_touch_member.
  - rewrite Hpub4, Hpub3. unfold w2. cbn [commit log with_db pubsub]. by rewrite Hpub1.
  - intros t limit Hle Hlt Hlimit. unfold PubSub.get_recent_messages.
    rewrite Hc4, Hrec4, Hrec3.
    rewrite read_insert_live by exact Hlt.
    cbn [default from_option]. unfold Datatypes.id.
    rewrite CacheProps.lrange_positive by exact Hlimit.
    destruct (Z.to_nat limit) as [|n] eqn:Hn; [lia|].
    cbn [take rev]. by rewrite last_snoc.
  - erewrite RouterProps.new_effects_app.
    2:{ cbn [commit log with_db effects]. rewrite He4, He3. unfold w2.
        cbn [commit log with_db effects]. rewrite He1.
        rewrite <- !app_assoc. reflexivity. }
    reflexivity.
Qed.

Lemma member_message_is_stored_cached_and_published_witness :
  let w := RouterSpec.alice_in_lobby in
  let w' := handle_websocket_message "c1" (RouterSpec.say 1 "hello") RouterSpec.alice 100 w in
  let row := mkChatMessage (next_message_id (db w)) 1 "hello"
               (wallet_address RouterSpec.alice)
               (default [] (nft_holdings RouterSpec.alice)) "text" 100 in
  chat_messages (db w') = chat_messages (db w) ++ [row] /\
  find_member 1 (wallet_address RouterSpec.alice) (db w')
  = Some (after_message 100 (mkRoomMember 1 "walletA" "member" true 0 None)) /\
  PubSub.published (pubsub w')
  = PubSub.published (pubsub w) ++
    [("room:" +:+ pretty 1,
      JObj [("type", JStr "chat_message"); ("data", room_frame row);
            ("timestamp", JTime 100)])] /\
  (forall t limit, (100 <= t)%Q -> (t < 100 + 3600)%Q -> (0 < limit)%Z ->
     last (PubSub.get_recent_messages (pretty 1) limit t (pubsub w'))
     = Some (room_frame row)) /\
  sent_frames (new_effects w w') = [].
Proof.
  apply (member_message_is_stored_cached_and_published "c1" (RouterSpec.say 1 "hello")
           RouterSpec.alice 100 RouterSpec.alice_in_lobby
           (mkConnData 7%nat RouterSpec.alice "walletA") 1 "hello"
           (mkRoomMember 1 "walletA" "member" true 0 None));
    vm_compute; reflexivity.
Defined.

(** X18.  A [private_message] frame that names a target and a text: one row is
    stored with the next free id, and the frame carrying that id is written
    once to every registered connection of the target wallet and to no other
    transport; no membership, room or NFT test is made; room messages,
    publications and caches stay as they were.  The sender gets no
    confirmation: the call ends with the NameError of [json.dumps] where the
    [message_sent] frame is built. *)
Theorem private_message_is_stored_and_delivered (connection_id : string)
    (message_data : Frame) (user_data : UserData) (now : Q) (w : World)
    (conn_data : ConnData) (target_wallet text : string) :
  get_connection connection_id (auth w) = Some conn_data ->
  frame_type message_data = Some "private_message" ->
  truthy_str (frame_target_wallet message_data) = Some target_wallet ->
  truthy_str (frame_message message_data) = Some text ->
  let w' := handle_websocket_message connection_id message_data user_data now w in
  let row := mkPrivateMessage (next_private_id (db w)) (wallet_address user_data)
               target_wallet text "text" now in
  private_messages (db w') = private_messages (db w) ++ [row] /\
  sent_frames (new_effects w w')
  ≡ₚ broadcast_to_wallet target_wallet (private_frame row) (auth w) /\
  (forall ws frame,
     (ws, frame) ∈ sent_frames (new_effects w w') <->
     frame = private_frame row /\
     exists id c, get_connection id (auth w) = Some c /\ websocket c = ws /\
                  conn_wallet_address c = target_wallet) /\
  last (new_effects w w') = Some (ERaise "NameError") /\
  stores_nothing w w'.
Proof.
  intros Hconn Htype Htarget Htext. cbv zeta.
  assert (Hstores : stores_nothing w
            (handle_websocket_message connection_id message_data user_data now w)).
  { destruct (SessionProps.handle_cases connection_id message_data user_data now w)
      as [(id & text' & member & Htype' & _)|H]; [congruence|exact H]. }
  rewrite (SessionProps.handle_registered _ _ _ _ _ _ Hconn) in *.
  set (wallet := wallet_address user_data) in *.
  assert (Hdb1 : db (manager_set_user_heartbeat wallet now w) = db w)
    by (unfold manager_set_user_heartbeat; by destruct (PubSub.is_connected (pubsub w))).
  assert (Ha1 : auth (manager_set_user_heartbeat wallet now w) = auth w)
    by (unfold manager_set_user_heartbeat; by destruct (PubSub.is_connected (pubsub w))).
  assert (Hhb : exists l, effects (manager_set_user_heartbeat wallet now w) = effects w ++ l
                          /\ sent_frames l = []).
  { unfold manager_set_user_heartbeat. destruct (PubSub.is_connected (pubsub w)).
    - by exists [ESetHeartbeat wallet now].
    - exists []. by rewrite app_nil_r. }
  destruct Hhb as (l & Hl & Hnone).
  set (w1 := manager_set_user_heartbeat wallet now w) in *. clearbody w1.
  set (row := mkPrivateMessage (next_private_id (db w)) wallet target_wallet text "text" now).
  set (frames := broadcast_to_wallet target_wallet (private_frame row) (auth w)).
  assert (Heq : dispatch (websocket conn_data) wallet message_data user_data now w1
                = raises "NameError"
                    (log ((fun p => ESend p.1 p.2) <$> frames)
                       (commit (add_private_message row (db w)) w1))).
  { unfold dispatch; rewrite Htype.
    change (is_type (Some "private_message") "heartbeat") with false.
    change (is_type (Some "private_message") "join_room") with false.
    change (is_type (Some "private_message") "room_message") with false.
    change (is_type (Some "private_message") "private_message") with true.
    cbv iota; unfold private_message; rewrite Htarget, Htext. cbv zeta.
    rewrite RouterProps.reply_raises. cbn [commit log with_db auth db].
    rewrite Hdb1, Ha1. reflexivity. }
  rewrite Heq in *.
  assert (Hsent : forall fs : list (Websocket * Json),
            sent_frames ((fun p => ESend p.1 p.2) <$> fs) = fs).
  { unfold sent_frames. induction fs as [|[ws f] fs IH]; [done|].
    cbn. by rewrite IH. }
  assert (Hnew : new_effects w
            (raises "NameError"
               (log ((fun p => ESend p.1 p.2) <$> frames)
                  (commit (add_private_message row (db w)) w1)))
            = l ++ [ECommit] ++ ((fun p => ESend p.1 p.2) <$> frames)
                ++ [ERaise "NameError"]).
  { apply RouterProps.new_effects_app.
    cbn [raises effects log commit with_db]. rewrite Hl, <- !app_assoc. reflexivity. }
  assert (Hframes : sent_frames
            (l ++ [ECommit] ++ ((fun p => ESend p.1 p.2) <$> frames) ++ [ERaise "NameError"])
            = frames).
  { unfold sent_frames in *. rewrite !omap_app, Hnone, Hsent. cbn. by rewrite app_nil_r. }
  split; [reflexivity|]. rewrite Hnew, Hframes.
  split; [reflexivity|]. split; [|split].
  - intros ws frame. unfold frames, broadcast_to_wallet. rewrite list_elem_of_fmap. split.
    + intros (c & [= -> ->] & Hin).
      apply RegistryProps.wallet_connection in Hin as [(id & Hid) Hw].
      split; [done|]. by exists id, c.
    + intros (-> & id & c & Hid & <- & Hw). exists c. split; [done|].
      apply RegistryProps.wallet_connection. split; [by exists id|done].
  - rewrite !app_assoc. apply last_snoc.
  - exact Hstores.
Qed.

(** The theorem for wallet A, registered as c1 on transport 7, writing to
    itself at the instant 100: the frame reaches transport 7 and no
    confirmation follows. *)
Lemma private_message_is_stored_and_delivered_witness :
  let md := mkFrame (Some "private_message") None (Some "psst") (Some "walletA") in
  let w' := handle_websocket_message "c1" md RouterSpec.alice 100 RouterSpec.alice_in_lobby in
  let row := mkPrivateMessage (next_private_id (db RouterSpec.alice_in_lobby))
               (wallet_address RouterSpec.alice) "walletA" "psst" "text" 100 in
  private_messages (db w') = private_messages (db RouterSpec.alice_in_lobby) ++ [row] /\
  sent_frames (new_effects RouterSpec.alice_in_lobby w')
  ≡ₚ broadcast_to_wallet "walletA" (private_frame row) (auth RouterSpec.alice_in_lobby) /\
  (forall ws frame,
     (ws, frame) ∈ sent_frames (new_effects RouterSpec.alice_in_lobby w') <->
     frame = private_frame row /\
     exists id c, get_connection id (auth RouterSpec.alice_in_lobby) = Some c /\
                  websocket c = ws /\ conn_wallet_address c = "walletA") /\
  last (new_effects RouterSpec.alice_in_lobby w') = Some (ERaise "NameError") /\
  stores_nothing RouterSpec.alice_in_lobby w'.
Proof.
  apply (private_message_is_stored_and_delivered "c1"
           (mkFrame (Some "private_message") None (Some "psst") (Some "walletA"))
           RouterSpec.alice 100 RouterSpec.alice_in_lobby
           (mkConnData 7%nat RouterSpec.alice "walletA") "walletA" "psst");
    vm_compute; reflexivity.
Defined.

(** The same frame, run: the row, the one write to transport 7 and the
    exception. *)
Example private_message_of_wallet_a :
  let md := mkFrame (Some "private_message") None (Some "psst") (Some "walletA") in
  let w := RouterSpec.alice_in_lobby in
  let w' := handle_websocket_message "c1" md RouterSpec.alice 100 w in
  pm_content <$> private_messages (db w') = ["psst"] /\
  new_effects w w'
  = [ESetHeartbeat "walletA" 100; ECommit;
     ESend 7%nat (private_frame (mkPrivateMessage 1 "walletA" "walletA" "psst" "text" 100));
     ERaise "NameError"].
Proof. cbv zeta. split; vm_compute; reflexivity. Qed.



Module JoinProps.

(** A join that passes the room and NFT tests, with the manager connected. *)
Lemma join_admitted cid md ud now w conn_data id room :
  get_connection cid (auth w) = Some conn_data ->
  PubSub.is_connected (pubsub w) = true ->
  frame_type md = Some "join_room" ->
  truthy_id (frame_room_id md) = Some id ->
  find_room id (db w) = Some room ->
  (forall required, gating_requirement room = Some required ->
                    has_access ud required = true) ->
  let w' := handle_websocket_message cid md ud now w in
  auth w' = auth w /\
  PubSub.is_connected (pubsub w') = true /\
  db w' = match find_member id (wallet_address ud) (db w) with
          | Some _ => db w
          | None => add_member (mkRoomMember id (wallet_address ud) "member" true 0 None)
                               (db w)
          end /\
  PubSub.subscriptions (pubsub w')
  = <[room_channel id := default [] (PubSub.subscriptions (pubsub w) !! room_channel id)
                         ++ [ForwardTo (websocket conn_data)]]>
      (PubSub.subscriptions (pubsub w)) /\
  exists l, new_effects w w' = l ++ [ERaise "NameError"] /\ sent_frames l = [].
Proof.
  intros Hconn Hc Htype Hid Hroom Haccess. cbv zeta.
  rewrite (SessionProps.handle_registered _ _ _ _ _ _ Hconn).
  set (wallet := wallet_address ud) in *.
  destruct (RouterProps.steps_set_user_heartbeat wallet now w Hc)
    as (Ha1 & _ & Hdb1 & Hc1 & _ & He1).
  assert (Hsub1 : PubSub.subscriptions (pubsub (manager_set_user_heartbeat wallet now w))
                  = PubSub.subscriptions (pubsub w)).
  { rewrite RouterProps.pubsub_set_user_heartbeat.
    apply RouterProps.subscriptions_set_user_heartbeat. }
  set (w1 := manager_set_user_heartbeat wallet now w) in *.
  unfold dispatch. rewrite Htype.
  change (is_type (Some "join_room") "heartbeat") with false.
  change (is_type (Some "join_room") "join_room") with true.
  cbv iota. unfold join_room. rewrite Hid, Hdb1, Hroom.
  assert (Hopen : match gating_requirement room with
                  | Some required => negb (has_access ud required)
                  | None => false
                  end = false).
  { destruct (gating_requirement room) as [required|] eqn:Hgate; [|done].
    by rewrite (Haccess required eq_refl). }
  cbv zeta. rewrite Hopen.
  set (w2 := match find_member id wallet (db w) with Some _ => w1 | None => _ end).
  assert (H2 : auth w2 = auth w /\ PubSub.is_connected (pubsub w2) = true /\
               pubsub w2 = pubsub w1 /\
               db w2 = match find_member id wallet (db w) with
                       | Some _ => db w
                       | None => add_member (mkRoomMember id wallet "member" true 0 None)
                                            (db w)
                       end /\
               exists l, effects w2 = effects w ++ l /\ sent_frames l = []).
  { subst w2. destruct (find_member id wallet (db w)).
    - repeat split; try done. by exists [ESetHeartbeat wallet now].
    - repeat split; try done. exists [ESetHeartbeat wallet now; ECommit].
      cbn [commit log with_db effects]. rewrite He1, <- app_assoc. done. }
  destruct H2 as (Ha2 & Hc2 & Hp2 & Hdb2 & l & He2 & Hnone). clearbody w2.
  unfold PubSub.subscribe_to_channel. rewrite Hc2. rewrite RouterProps.reply_raises.
  cbn [auth db pubsub raises log with_pubsub PubSub.is_connected PubSub.subscriptions].
  rewrite Hp2, Hsub1. repeat split; try done.
  exists (l ++ [ESubscribe (room_channel id) (ForwardTo (websocket conn_data))]). split.
  - apply RouterProps.new_effects_app. cbn [effects raises log with_pubsub]. rewrite He2, <- !app_assoc. done.
  - unfold sent_frames in *. rewrite omap_app, Hnone. done.
Qed.

Lemma find_member_added id wallet d :
  find_member id wallet
    match find_member id wallet d with
    | Some _ => d
    | None => add_member (mkRoomMember id wallet "member" true 0 None) d
    end <> None.
Proof.
  destruct (find_member id wallet d) as [member|] eqn:E; [by rewrite E|].
  unfold find_member, add_member in *. cbn [room_members].
  induction (room_members d) as [|m l IH].
  - cbn. unfold is_member_row. cbn. by rewrite Z.eqb_refl, String.eqb_refl.
  - cbn [List.find app] in *. destruct (is_member_row id wallet m); [done|by apply IH].
Qed.

End JoinProps.

(** X20.  Two admitted [join_room] frames for the same room on one connection:
    the second join adds no member row, but it subscribes the connection's
    forwarding callback a second time, so that for a message published on the
    room's channel afterwards the listener calls that callback twice, after
    the subscribers that were there before.  No call writes anything to a
    transport (the callback's [json.dumps] raises, and the exception is
    caught inside it), and each join itself ends with NameError where the
    [room_joined] reply is built, after it has subscribed, without a frame
    written. *)
Theorem repeated_join_subscribes_again (connection_id : string) (message_data : Frame)
    (user_data : UserData) (now1 now2 : Q) (w : World) (conn_data : ConnData)
    (id : Z) (room : ChatRoom) :
  get_connection connection_id (auth w) = Some conn_data ->
  PubSub.is_connected (pubsub w) = true ->
  frame_type message_data = Some "join_room" ->
  truthy_id (frame_room_id message_data) = Some id ->
  find_room id (db w) = Some room ->
  (forall required, gating_requirement room = Some required ->
                    has_access user_data required = true) ->
  let w1 := handle_websocket_message connection_id message_data user_data now1 w in
  let w2 := handle_websocket_message connection_id message_data user_data now2 w1 in
  let before := default [] (PubSub.subscriptions (pubsub w) !! room_channel id) in
  let callback := ForwardTo (websocket conn_data) in
  db w2 = db w1 /\
  PubSub.subscriptions (pubsub w2) !! room_channel id
  = Some (before ++ [callback; callback]) /\
  (forall data sent,
     exists log,
       PubSub.on_message websocket_message_callback
         (PubSub.mkPubSubMessage "message" (room_channel id) (Some data)) (pubsub w2) sent
       = Some (pubsub w2, sent, log) /\
       PubSub.inv_callback <$> log = before ++ [callback; callback] /\
       Forall (fun i => PubSub.inv_data i = data /\ PubSub.inv_raised i = None) log) /\
  (last (new_effects w w1) = Some (ERaise "NameError") /\
   sent_frames (new_effects w w1) = []) /\
  (last (new_effects w1 w2) = Some (ERaise "NameError") /\
   sent_frames (new_effects w1 w2) = []).
Proof.
  intros Hconn Hc Htype Hid Hroom Haccess. cbv zeta.
  destruct (JoinProps.join_admitted connection_id message_data user_data now1 w conn_data
              id room Hconn Hc Htype Hid Hroom Haccess)
    as (Ha1 & Hc1 & Hdb1 & Hsub1 & l1 & He1 & Hn1).
  set (w1 := handle_websocket_message connection_id message_data user_data now1 w) in *.
  assert (Hroom1 : find_room id (db w1) = Some room).
  { rewrite Hdb1. destruct (find_member id (wallet_address user_data) (db w)); done. }
  assert (Hconn1 : get_connection connection_id (auth w1) = Some conn_data)
    by (by rewrite Ha1).
  destruct (JoinProps.join_admitted connection_id message_data user_data now2 w1 conn_data
              id room Hconn1 Hc1 Htype Hid Hroom1 Haccess)
    as (Ha2 & Hc2 & Hdb2 & Hsub2 & l2 & He2 & Hn2).
  set (w2 := handle_websocket_message connection_id message_data user_data now2 w1) in *.
  assert (Hmember : find_member id (wallet_address user_data) (db w1) <> None).
  { rewrite Hdb1. apply JoinProps.find_member_added. }
  assert (Hsubs : PubSub.subscriptions (pubsub w2) !! room_channel id
                  = Some (default [] (PubSub.subscriptions (pubsub w) !! room_channel id)
                          ++ [ForwardTo (websocket conn_data);
                              ForwardTo (websocket conn_data)])).
  { rewrite Hsub2, lookup_insert_eq, Hsub1, lookup_insert_eq.
    cbn [default from_option]. unfold Datatypes.id. by rewrite <- app_assoc. }
  assert (Hquiet : forall l, sent_frames l = [] ->
            last (l ++ [ERaise "NameError"]) = Some (ERaise "NameError") /\
            sent_frames (l ++ [ERaise "NameError"]) = []).
  { intros l Hl. split; [apply last_snoc|].
    unfold sent_frames in *. by rewrite omap_app, Hl. }
  split; [|split; [|split; [|split]]].
  - rewrite Hdb2. by destruct (find_member id (wallet_address user_data) (db w1)).
  - exact Hsubs.
  - intros data sent. unfold PubSub.on_message.
    cbn [PubSub.msg_type PubSub.msg_data PubSub.msg_channel].
    change (String.eqb "message" "message") with true. cbv iota. rewrite Hsubs.
    cbn [default from_option]. unfold Datatypes.id.
    set (cbs := default [] (PubSub.subscriptions (pubsub w) !! room_channel id)
                ++ [ForwardTo (websocket conn_data); ForwardTo (websocket conn_data)]).
    pose proof (FanOutProps.invoke_callbacks_all websocket_message_callback
                  cbs (room_channel id) data sent) as Hall.
    assert (Hraised : forall i,
              i ∈ snd (PubSub.invoke_callbacks websocket_message_callback cbs
                         (room_channel id) data sent) -> PubSub.inv_raised i = None).
    { intros i Hi.
      destruct (FanOutProps.invoke_callbacks_raised websocket_message_callback cbs
                  (room_channel id) data sent i Hi) as (e & ->).
      by destruct (PubSub.inv_callback i). }
    destruct (PubSub.invoke_callbacks websocket_message_callback _ _ _ _) as [env' log].
    destruct Hall as (Hcbs & Hargs & ->). exists log.
    rewrite SessionProps.after_forwarding. split; [done|]. split; [exact Hcbs|].
    apply Forall_forall. intros i Hi. split.
    + rewrite Forall_forall in Hargs. by apply Hargs.
    + by apply Hraised.
  - rewrite He1. by apply Hquiet.
  - rewrite He2. by apply Hquiet.
Qed.

(** The theorem for wallet A joining room 1 again at 20 and at 30, after its
    join at 10. *)
Lemma repeated_join_subscribes_again_witness :
  let w := RouterSpec.alice_in_lobby in
  let w1 := handle_websocket_message "c1" (RouterSpec.join 1) RouterSpec.alice 20 w in
  let w2 := handle_websocket_message "c1" (RouterSpec.join 1) RouterSpec.alice 30 w1 in
  let before := default [] (PubSub.subscriptions (pubsub w) !! room_channel 1) in
  let callback := ForwardTo (websocket (mkConnData 7%nat RouterSpec.alice "walletA")) in
  db w2 = db w1 /\
  PubSub.subscriptions (pubsub w2) !! room_channel 1
  = Some (before ++ [callback; callback]) /\
  (forall data sent,
     exists log,
       PubSub.on_message websocket_message_callback
         (PubSub.mkPubSubMessage "message" (room_channel 1) (Some data)) (pubsub w2) sent
       = Some (pubsub w2, sent, log) /\
       PubSub.inv_callback <$> log = before ++ [callback; callback] /\
       Forall (fun i => PubSub.inv_data i = data /\ PubSub.inv_raised i = None) log) /\
  (last (new_effects w w1) = Some (ERaise "NameError") /\
   sent_frames (new_effects w w1) = []) /\
  (last (new_effects w1 w2) = Some (ERaise "NameError") /\
   sent_frames (new_effects w1 w2) = []).
Proof.
  apply (repeated_join_subscribes_again "c1" (RouterSpec.join 1) RouterSpec.alice 20 30
           RouterSpec.alice_in_lobby (mkConnData 7%nat RouterSpec.alice "walletA") 1
           RouterSpec.lobby); try (vm_compute; reflexivity).
  intros required Hgate. vm_compute in Hgate. discriminate Hgate.
Defined.

(** The three joins of wallet A, run: one member row, the callback of
    transport 7 three times in the subscriber list of room:1, and no frame
    written by any of them. *)
Example three_joins_of_wallet_a :
  let w := RouterSpec.alice_in_lobby in
  let w1 := handle_websocket_message "c1" (RouterSpec.join 1) RouterSpec.alice 20 w in
  let w2 := handle_websocket_message "c1" (RouterSpec.join 1) RouterSpec.alice 30 w1 in
  length (room_members (db w2)) = 1%nat /\
  PubSub.subscriptions (pubsub w2) !! "room:1"
  = Some [ForwardTo 7%nat; ForwardTo 7%nat; ForwardTo 7%nat] /\
  sent_frames (effects w2) = [].
Proof. cbv zeta. repeat split; vm_compute; reflexivity. Qed.
